(** * Global Surface Atlas: tile allocation, object cache and capacity estimate

    A shallow embedding of [GlobalSurfaceAtlasPass.cpp]
    (Source/Engine/Renderer/GI): the per-face tile sizing and refit rule of
    [RasterizeActor], the object cache with its per-frame removal pass, the
    insertion-failure driven defragmentation of [Render], and the sizing of
    the culled-objects buffer from the asynchronous counter readback.

    Integers are [Z] with the wrap-around of the C++ type written out where
    the source computes in an unsigned type.  Floating-point quantities
    (bounds, matrices, distances) are not modelled: the values the code
    derives from them and then treats as integers are inputs. *)

From stdpp Require Import gmap list.
From Stdlib Require Import ZArith Lia.

Local Open Scope Z_scope.

(** ** Fixed-width arithmetic *)

Definition wrap16 (z : Z) : Z := z mod 2 ^ 16.
Definition wrap32 (z : Z) : Z := z mod 2 ^ 32.
Definition wrap64 (z : Z) : Z := z mod 2 ^ 64.

(** [a - b] on [uint64] operands. *)
Definition sub64 (a b : Z) : Z := wrap64 (a - b).

Definition MAX_int32 : Z := 2147483647.

Module Math.

(** Modelled from the spec: [Math::Clamp] (Engine/Core/Math/Math.h) is not
    among the sources; it clamps a value into [[lo, hi]]. *)
Definition Clamp (value lo hi : Z) : Z :=
  if value <? lo then lo else if value <? hi then value else hi.

(** Modelled from the spec: [Math::AlignDown] is not among the sources; it
    rounds down to a multiple of the alignment. *)
Definition AlignDown (value alignment : Z) : Z :=
  value / alignment * alignment.

(** Modelled from the spec: [Math::AlignUp] is not among the sources; it
    rounds up to a multiple of the alignment, here in [uint32]. *)
Definition AlignUp (value alignment : Z) : Z :=
  wrap32 (value + (alignment - 1)) / alignment * alignment.

Definition Abs (value : Z) : Z := if value <? 0 then - value else value.

Definition Min (a b : Z) : Z := if a <? b then a else b.

End Math.

(** ** Configuration constants (lines 27-36) *)

Definition GLOBAL_SURFACE_ATLAS_TILE_PADDING : Z := 1.
Definition GLOBAL_SURFACE_ATLAS_TILE_SIZE_MIN : Z := 8.
Definition GLOBAL_SURFACE_ATLAS_TILE_SIZE_MAX : Z := 192.
Definition GLOBAL_SURFACE_ATLAS_DEBUG_FORCE_REDRAW_TILES : bool := false.

(** ** The rectangle packer *)

Record Rect := mkRect { X : Z; Y : Z; Width : Z; Height : Z }.

Inductive Dir := GoLeft | GoRight.

Abbreviation TilePtr := (list Dir).

#[global] Instance Dir_eq_dec : EqDecision Dir.
Proof. solve_decision. Defined.

(** Two rectangles overlap when their interiors meet. *)
Definition overlaps (a b : Rect) : bool :=
  (X a <? X b + Width b) && (X b <? X a + Width a) &&
  (Y a <? Y b + Height b) && (Y b <? Y a + Height a).

Definition separated (a b : Rect) : Prop :=
  X a + Width a <= X b \/ X b + Width b <= X a \/
  Y a + Height a <= Y b \/ Y b + Height b <= Y a.

Definition inside (a b : Rect) : Prop :=
  X b <= X a /\ Y b <= Y a /\
  X a + Width a <= X b + Width b /\ Y a + Height a <= Y b + Height b.

(** The rectangle lies within the atlas [[0, resolution]] on both axes. *)
Definition in_atlas (resolution : Z) (r : Rect) : Prop :=
  0 <= X r /\ 0 <= Y r /\
  X r + Width r <= resolution /\ Y r + Height r <= resolution.

Module RectPack.

(** Modelled from the spec: [RectPack<NodeType, SizeType>]
    (Engine/Utilities/RectPack.h, included at line 24) is not among the
    sources.  The spec describes a binary-tree free-space packer over the
    atlas grid: [Insert] walks the tree first-fit, splits the chosen free
    rectangle into the tile and at most two remaining free children and
    never merges; [Free] returns the tile's rectangle to the free set; a
    failed insertion returns null.

    A node is either a slot (a rectangle that is free or holds a tile) or
    a rectangle that has been cut in two.  A tile is referred to by the
    path from the root to its slot. *)
Inductive t :=
| Slot (r : Rect) (IsUsed : bool)
| Split (r : Rect) (Left Right : t).

Definition region (n : t) : Rect :=
  match n with Slot r _ => r | Split r _ _ => r end.

Fixpoint tile_at (p : TilePtr) (n : t) : option (Rect * bool) :=
  match p, n with
  | [], Slot r u => Some (r, u)
  | GoLeft :: p', Split _ l _ => tile_at p' l
  | GoRight :: p', Split _ _ r => tile_at p' r
  | _, _ => None
  end.

(** Cuts a free rectangle [r] that is at least [w] by [h] into the tile
    (at the rectangle's origin) and the remaining free rectangles: the
    first cut runs along the side that leaves the larger remainder
    whole. *)
Definition place (r : Rect) (w h : Z) : TilePtr * t :=
  let tile := mkRect (X r) (Y r) w h in
  let dw := Width r - w in
  let dh := Height r - h in
  if (dw =? 0) && (dh =? 0) then ([], Slot r true)
  else if dh <? dw then
    let column := mkRect (X r) (Y r) w (Height r) in
    let rest := Slot (mkRect (X r + w) (Y r) dw (Height r)) false in
    if dh =? 0 then ([GoLeft], Split r (Slot column true) rest)
    else ([GoLeft; GoLeft],
          Split r (Split column (Slot tile true)
                         (Slot (mkRect (X r) (Y r + h) w dh) false)) rest)
  else
    let row := mkRect (X r) (Y r) (Width r) h in
    let rest := Slot (mkRect (X r) (Y r + h) (Width r) dh) false in
    if dw =? 0 then ([GoLeft], Split r (Slot row true) rest)
    else ([GoLeft; GoLeft],
          Split r (Split row (Slot tile true)
                         (Slot (mkRect (X r + w) (Y r) dw h) false)) rest).

(** [Insert(itemWidth, itemHeight, itemPadding)]: the first free slot, in
    left-to-right order, that is large enough takes the tile. *)
Fixpoint Insert (n : t) (itemWidth itemHeight itemPadding : Z)
  : option (TilePtr * t) :=
  let paddedWidth := itemWidth + itemPadding in
  let paddedHeight := itemHeight + itemPadding in
  match n with
  | Slot r used =>
      if used || (Width r <? paddedWidth) || (Height r <? paddedHeight)
      then None
      else Some (place r paddedWidth paddedHeight)
  | Split r l rr =>
      match Insert l itemWidth itemHeight itemPadding with
      | Some (p, l') => Some (GoLeft :: p, Split r l' rr)
      | None =>
          match Insert rr itemWidth itemHeight itemPadding with
          | Some (p, rr') => Some (GoRight :: p, Split r l rr')
          | None => None
          end
      end
  end.

(** [Free()]: the slot becomes free again; nothing is merged. *)
Fixpoint Free (p : TilePtr) (n : t) : t :=
  match p, n with
  | [], Slot r _ => Slot r false
  | GoLeft :: p', Split r l rr => Split r (Free p' l) rr
  | GoRight :: p', Split r l rr => Split r l (Free p' rr)
  | _, _ => n
  end.

(** Every cut keeps both parts inside the rectangle that was cut, and
    apart from each other. *)
Fixpoint wf (n : t) : Prop :=
  match n with
  | Slot _ _ => True
  | Split r l rr =>
      inside (region l) r /\ inside (region rr) r /\
      separated (region l) (region rr) /\ wf l /\ wf rr
  end.

End RectPack.

(** ** The object cache (lines 86-208) *)

(** What [RasterizeActor] reads from the actor: its address, the last word
    of its identifier ([GetID().D]) and [HasStaticFlag(StaticFlags::Lightmap)]. *)
Record Actor := mkActor {
  ActorPtr : Z;
  ID_D : Z;
  StaticLightmap : bool;
}.

(** [GlobalSurfaceAtlasObject]; [Radius] and [Bounds] are floating-point data
    and are left out. *)
Record GlobalSurfaceAtlasObject := mkObject {
  LastFrameUsed : Z;
  LastFrameDirty : Z;
  ObjectActor : option Actor;
  Tiles : list (option TilePtr);
}.

(** The default constructor clears the whole object. *)
Definition zeroed_object : GlobalSurfaceAtlasObject :=
  mkObject 0 0 None (replicate 6 None).

(** [GlobalSurfaceAtlasCustomBuffer]: the GPU textures are left out, a GPU
    buffer is represented by its size in bytes. *)
Record GlobalSurfaceAtlasCustomBuffer := mkBuffer {
  CustomBuffer_LastFrameUsed : Z;
  Resolution : Z;
  LastFrameAtlasInsertFail : Z;
  LastFrameAtlasDefragmentation : Z;
  ChunksBuffer : bool;
  CulledObjectsBuffer : option Z;
  CulledObjectsCounterIndex : Z;
  AtlasTiles : option RectPack.t;
  Objects : gmap Z GlobalSurfaceAtlasObject;
  CurrentFrame : Z;
}.

Definition set_Objects (f : gmap Z GlobalSurfaceAtlasObject -> gmap Z GlobalSurfaceAtlasObject)
    (d : GlobalSurfaceAtlasCustomBuffer) : GlobalSurfaceAtlasCustomBuffer :=
  mkBuffer (CustomBuffer_LastFrameUsed d) (Resolution d)
    (LastFrameAtlasInsertFail d) (LastFrameAtlasDefragmentation d)
    (ChunksBuffer d) (CulledObjectsBuffer d) (CulledObjectsCounterIndex d)
    (AtlasTiles d) (f (Objects d)) (CurrentFrame d).

Definition set_AtlasTiles (f : option RectPack.t -> option RectPack.t)
    (d : GlobalSurfaceAtlasCustomBuffer) : GlobalSurfaceAtlasCustomBuffer :=
  mkBuffer (CustomBuffer_LastFrameUsed d) (Resolution d)
    (LastFrameAtlasInsertFail d) (LastFrameAtlasDefragmentation d)
    (ChunksBuffer d) (CulledObjectsBuffer d) (CulledObjectsCounterIndex d)
    (f (AtlasTiles d)) (Objects d) (CurrentFrame d).

Definition set_LastFrameAtlasInsertFail (v : Z)
    (d : GlobalSurfaceAtlasCustomBuffer) : GlobalSurfaceAtlasCustomBuffer :=
  mkBuffer (CustomBuffer_LastFrameUsed d) (Resolution d)
    v (LastFrameAtlasDefragmentation d)
    (ChunksBuffer d) (CulledObjectsBuffer d) (CulledObjectsCounterIndex d)
    (AtlasTiles d) (Objects d) (CurrentFrame d).

Definition set_CurrentFrame (v : Z)
    (d : GlobalSurfaceAtlasCustomBuffer) : GlobalSurfaceAtlasCustomBuffer :=
  mkBuffer (CustomBuffer_LastFrameUsed d) (Resolution d)
    (LastFrameAtlasInsertFail d) (LastFrameAtlasDefragmentation d)
    (ChunksBuffer d) (CulledObjectsBuffer d) (CulledObjectsCounterIndex d)
    (AtlasTiles d) (Objects d) v.

Definition set_CustomBuffer_LastFrameUsed (v : Z)
    (d : GlobalSurfaceAtlasCustomBuffer) : GlobalSurfaceAtlasCustomBuffer :=
  mkBuffer v (Resolution d)
    (LastFrameAtlasInsertFail d) (LastFrameAtlasDefragmentation d)
    (ChunksBuffer d) (CulledObjectsBuffer d) (CulledObjectsCounterIndex d)
    (AtlasTiles d) (Objects d) (CurrentFrame d).

Definition set_Resolution (v : Z)
    (d : GlobalSurfaceAtlasCustomBuffer) : GlobalSurfaceAtlasCustomBuffer :=
  mkBuffer (CustomBuffer_LastFrameUsed d) v
    (LastFrameAtlasInsertFail d) (LastFrameAtlasDefragmentation d)
    (ChunksBuffer d) (CulledObjectsBuffer d) (CulledObjectsCounterIndex d)
    (AtlasTiles d) (Objects d) (CurrentFrame d).

Definition set_ChunksBuffer (v : bool)
    (d : GlobalSurfaceAtlasCustomBuffer) : GlobalSurfaceAtlasCustomBuffer :=
  mkBuffer (CustomBuffer_LastFrameUsed d) (Resolution d)
    (LastFrameAtlasInsertFail d) (LastFrameAtlasDefragmentation d)
    v (CulledObjectsBuffer d) (CulledObjectsCounterIndex d)
    (AtlasTiles d) (Objects d) (CurrentFrame d).

Definition set_CulledObjectsBuffer (v : option Z)
    (d : GlobalSurfaceAtlasCustomBuffer) : GlobalSurfaceAtlasCustomBuffer :=
  mkBuffer (CustomBuffer_LastFrameUsed d) (Resolution d)
    (LastFrameAtlasInsertFail d) (LastFrameAtlasDefragmentation d)
    (ChunksBuffer d) v (CulledObjectsCounterIndex d)
    (AtlasTiles d) (Objects d) (CurrentFrame d).

Definition set_CulledObjectsCounterIndex (v : Z)
    (d : GlobalSurfaceAtlasCustomBuffer) : GlobalSurfaceAtlasCustomBuffer :=
  mkBuffer (CustomBuffer_LastFrameUsed d) (Resolution d)
    (LastFrameAtlasInsertFail d) (LastFrameAtlasDefragmentation d)
    (ChunksBuffer d) (CulledObjectsBuffer d) v
    (AtlasTiles d) (Objects d) (CurrentFrame d).

(** [ClearObjects] (lines 151-157); [frame] is [Engine::FrameCount]. *)
Definition ClearObjects (frame : Z)
    (d : GlobalSurfaceAtlasCustomBuffer) : GlobalSurfaceAtlasCustomBuffer :=
  mkBuffer (CustomBuffer_LastFrameUsed d) (Resolution d)
    (LastFrameAtlasInsertFail d) frame
    (ChunksBuffer d) (CulledObjectsBuffer d) (-1)
    None ∅ (CurrentFrame d).

(** [Clear] (lines 159-168): releases the atlas textures, then
    [ClearObjects]. *)
Definition Clear (frame : Z)
    (d : GlobalSurfaceAtlasCustomBuffer) : GlobalSurfaceAtlasCustomBuffer :=
  ClearObjects frame d.

(** A buffer as constructed (lines 126-140). *)
Definition new_buffer : GlobalSurfaceAtlasCustomBuffer :=
  mkBuffer 0 0 0 0 false None (-1) None ∅ 0.

(** [object->Tiles[tileIndex]] of the entry of [key], null when there is no
    entry. *)
Definition object_tile (d : GlobalSurfaceAtlasCustomBuffer) (key : Z)
    (tileIndex : nat) : option TilePtr :=
  match Objects d !! key with
  | Some o => default None (Tiles o !! tileIndex)
  | None => None
  end.

Definition with_tile (tileIndex : nat) (v : option TilePtr)
    (o : GlobalSurfaceAtlasObject) : GlobalSurfaceAtlasObject :=
  mkObject (LastFrameUsed o) (LastFrameDirty o) (ObjectActor o)
    (<[tileIndex := v]> (Tiles o)).

(** [if (object) object->Tiles[tileIndex] = v]. *)
Definition set_tile (key : Z) (tileIndex : nat) (v : option TilePtr)
    (d : GlobalSurfaceAtlasCustomBuffer) : GlobalSurfaceAtlasCustomBuffer :=
  set_Objects (alter (with_tile tileIndex v) key) d.

(** [buffer->Objects[actorObject].Tiles[tileIndex] = tile] of [OnInsert]
    (lines 205-208), repeated at lines 1043-1045: the entry is created,
    cleared, when the dictionary has none. *)
Definition OnInsert (key : Z) (tileIndex : nat) (tile : TilePtr)
    (d : GlobalSurfaceAtlasCustomBuffer) : GlobalSurfaceAtlasCustomBuffer :=
  set_Objects (fun objs =>
    <[key := with_tile tileIndex (Some tile)
               (default zeroed_object (objs !! key))]> objs) d.

(** [tile->Free()]. *)
Definition free_tile (tile : TilePtr)
    (d : GlobalSurfaceAtlasCustomBuffer) : GlobalSurfaceAtlasCustomBuffer :=
  set_AtlasTiles (fmap (RectPack.Free tile)) d.

(** The rectangle of a tile, as read through the pointer. *)
Definition tile_rect (d : GlobalSurfaceAtlasCustomBuffer) (tile : TilePtr)
    : option Rect :=
  match AtlasTiles d with
  | Some root => fst <$> RectPack.tile_at tile root
  | None => None
  end.

(** [tile->Width]. *)
Definition tile_Width (d : GlobalSurfaceAtlasCustomBuffer) (tile : TilePtr) : Z :=
  match tile_rect d tile with Some r => Width r | None => 0 end.

(** ** The pass *)

(** The members of [GlobalSurfaceAtlasPass] that the frame update reads and
    writes, with the buffer [_surfaceAtlasData] points to. *)
Record GlobalSurfaceAtlasPass := mkPass {
  surfaceAtlasData : GlobalSurfaceAtlasCustomBuffer;
  dirtyObjectsBuffer : list Z;
  culledObjectsSizeBuffer : bool;
  culledObjectsSizeFrames : list Z;
}.

Definition with_data (d : GlobalSurfaceAtlasCustomBuffer)
    (pass : GlobalSurfaceAtlasPass) : GlobalSurfaceAtlasPass :=
  mkPass d (dirtyObjectsBuffer pass) (culledObjectsSizeBuffer pass)
    (culledObjectsSizeFrames pass).

(** A pass whose readback ring has [slots] entries, with a fresh buffer. *)
Definition new_pass (slots : nat) : GlobalSurfaceAtlasPass :=
  mkPass new_buffer [] false (replicate slots 0).

(** ** RasterizeActor (lines 991-1140) *)

(** The arguments of one call.  [tileResolutions (tileIndex / 2)] is the
    value [(uint16)(boundsSizeTile.GetAbsolute().MinValue() * tilesScale)]
    of line 1007: a floating-point product that only depends on the axis
    [tileIndex / 2] left out of the minimum. *)
Record RasterizeCall := mkCall {
  actor : Actor;
  actorObject : Z;
  tilesMask : Z;
  tileResolutions : nat -> Z;
}.

Definition tileRefitResolutionStep : Z := 32.

(** The variables the loop over the six faces carries: the buffer and the
    locals [anyTile] and [dirty].  The local [object] is the dictionary
    entry of [actorObject] when there is one. *)
Record FaceLoop := mkLoop {
  loop_data : GlobalSurfaceAtlasCustomBuffer;
  anyTile : bool;
  dirty : bool;
}.

(** Lines 1004-1007: the resolution wanted for the face. *)
Definition face_resolution (c : RasterizeCall) (tileIndex : nat) : Z :=
  tileResolutions c (tileIndex / 2)%nat.

(** Lines 1019-1024: clamp, then snap down. *)
Definition snap_resolution (tileResolution : Z) : Z :=
  Math.AlignDown
    (Math.Clamp tileResolution GLOBAL_SURFACE_ATLAS_TILE_SIZE_MIN
       GLOBAL_SURFACE_ATLAS_TILE_SIZE_MAX) 8.

(** Lines 1039-1054: insert the tile into the atlas.  A null [AtlasTiles]
    cannot be dereferenced; [Render] allocates the root before it draws. *)
Definition insert_face (c : RasterizeCall) (tileIndex : nat)
    (tileResolution : Z) (st : FaceLoop) : FaceLoop :=
  let d := loop_data st in
  match AtlasTiles d with
  | None => st
  | Some root =>
      match RectPack.Insert root tileResolution tileResolution 0 with
      | Some (tile, root') =>
          mkLoop (OnInsert (actorObject c) tileIndex tile
                    (set_AtlasTiles (fun _ => Some root') d))
                 true true
      | None =>
          mkLoop (set_LastFrameAtlasInsertFail (CurrentFrame d)
                    (set_tile (actorObject c) tileIndex None d))
                 (anyTile st) (dirty st)
      end
  end.

(** One iteration of the loop at lines 999-1055. *)
Definition RasterizeActor_face (c : RasterizeCall) (st : FaceLoop)
    (tileIndex : nat) : FaceLoop :=
  let d := loop_data st in
  if negb (Z.testbit (tilesMask c) (Z.of_nat tileIndex)) then st
  else
    let tileResolution := face_resolution c tileIndex in
    if tileResolution <? 4 then
      match object_tile d (actorObject c) tileIndex with
      | Some tile =>
          mkLoop (set_tile (actorObject c) tileIndex None (free_tile tile d))
                 (anyTile st) (dirty st)
      | None => st
      end
    else
      let tileResolution := snap_resolution tileResolution in
      match object_tile d (actorObject c) tileIndex with
      | Some tile =>
          let currentSize := tile_Width d tile in
          if Math.Abs (tileResolution - currentSize) <? tileRefitResolutionStep
          then mkLoop d true (dirty st)
          else insert_face c tileIndex tileResolution
                 (mkLoop (free_tile tile d) (anyTile st) (dirty st))
      | None => insert_face c tileIndex tileResolution st
      end.

Definition RasterizeActor_faces (c : RasterizeCall)
    (d : GlobalSurfaceAtlasCustomBuffer) : FaceLoop :=
  foldl (RasterizeActor_face c) (mkLoop d false false) (seq 0 6).

(** Line 1060. *)
Definition redrawFramesCount (a : Actor) : Z :=
  if StaticLightmap a then 120 else 4.

(** The right-hand side of the comparison at line 1061. *)
Definition redraw_period (a : Actor) : Z :=
  redrawFramesCount a + Z.land (ID_D a) (redrawFramesCount a).

(** Lines 1059-1074: the redraw decision and the marking of the object. *)
Definition mark_used (a : Actor) (frame : Z) (isDirty : bool)
    (o : GlobalSurfaceAtlasObject) : GlobalSurfaceAtlasObject :=
  mkObject frame (if isDirty then frame else LastFrameDirty o) (Some a)
    (Tiles o).

Definition redraw_due (a : Actor) (frame : Z)
    (o : GlobalSurfaceAtlasObject) : bool :=
  redraw_period a <=? sub64 frame (LastFrameDirty o).

(** Lines 1056-1074, after the loop: nothing more is done without a tile;
    otherwise the object is marked as used and, when dirty, queued. *)
Definition RasterizeActor_mark (c : RasterizeCall) (st : FaceLoop)
    (pass : GlobalSurfaceAtlasPass) : GlobalSurfaceAtlasPass :=
  let d := loop_data st in
  if negb (anyTile st) then with_data d pass
  else
    match Objects d !! actorObject c with
    | None => with_data d pass
    | Some object =>
        let isDirty :=
          dirty st || redraw_due (actor c) (CurrentFrame d) object
          || GLOBAL_SURFACE_ATLAS_DEBUG_FORCE_REDRAW_TILES in
        mkPass
          (set_Objects
             (<[actorObject c :=
                  mark_used (actor c) (CurrentFrame d) isDirty object]>) d)
          (if isDirty
           then dirtyObjectsBuffer pass ++ [actorObject c]
           else dirtyObjectsBuffer pass)
          (culledObjectsSizeBuffer pass) (culledObjectsSizeFrames pass)
    end.

Definition RasterizeActor (c : RasterizeCall)
    (pass : GlobalSurfaceAtlasPass) : GlobalSurfaceAtlasPass :=
  RasterizeActor_mark c (RasterizeActor_faces c (surfaceAtlasData pass)) pass.

(** [OnSceneRenderingUpdateActor] (lines 182-194). *)
Definition OnSceneRenderingUpdateActor (a : Actor)
    (d : GlobalSurfaceAtlasCustomBuffer) : GlobalSurfaceAtlasCustomBuffer :=
  if StaticLightmap a
  then set_Objects
         (alter (fun o => mkObject (LastFrameUsed o) 0 (ObjectActor o) (Tiles o))
            (ActorPtr a)) d
  else d.

(** ** Render (lines 323-892) *)

(** What one call of [Render] takes from the engine, the scene and the GPU
    device. *)
Record RenderInput := mkInput {
  (** [Engine::FrameCount] *)
  FrameCount : Z;
  (** one of the early exits of lines 326-335 is taken *)
  passSkipped : bool;
  (** [Graphics::GlobalSurfaceAtlasResolution] *)
  GlobalSurfaceAtlasResolution : Z;
  (** [RenderTargetPool::Get] returned null for an atlas texture *)
  atlasTexturesFailed : bool;
  (** [ChunksBuffer->Init] failed *)
  chunksBufferInitFailed : bool;
  (** the [RasterizeActor] calls made by the actors drawn at lines 448-457 *)
  drawn : list RasterizeCall;
  (** [(uint32)((float)_objectsBuffer->Data.Count() * 1.3f)] of line 613 *)
  estimatedCapacity : Z;
  (** [_culledObjectsSizeBuffer->Init] failed *)
  sizeBufferInitFailed : bool;
  (** what [_culledObjectsSizeBuffer->Map] returns: the counters read back
      so far, or null *)
  mappedCounters : option (list Z);
  (** [CulledObjectsBuffer->Init] failed *)
  culledObjectsInitFailed : bool;
}.

(** [sizeof(Float4)] *)
Definition sizeof_Float4 : Z := 16.

(** Line 394: the root of the packer covers the atlas; the constructor
    takes [uint16]. *)
Definition new_atlas (resolution : Z) : RectPack.t :=
  RectPack.Slot (mkRect 0 0 (wrap16 resolution) (wrap16 resolution)) false.

(** The tiles an object holds. *)
Definition object_tiles (o : GlobalSurfaceAtlasObject) : list TilePtr :=
  omap id (Tiles o).

(** The tiles of the objects that were not used in the current frame. *)
Definition unused_tiles (currentFrame : Z)
    (d : GlobalSurfaceAtlasCustomBuffer) : list TilePtr :=
  map_to_list (filter (fun kv => LastFrameUsed kv.2 ≠ currentFrame) (Objects d))
  ≫= (fun kv => object_tiles kv.2).

(** Lines 460-472: remove the objects that were not used this frame; each
    of their tiles is freed. *)
Definition remove_unused (currentFrame : Z)
    (d : GlobalSurfaceAtlasCustomBuffer) : GlobalSurfaceAtlasCustomBuffer :=
  let freed := unused_tiles currentFrame d in
  set_Objects (filter (fun kv => LastFrameUsed kv.2 = currentFrame))
    (set_AtlasTiles (fmap (fun root => foldr RectPack.Free root freed)) d).

(** Lines 385-386. *)
Definition defragmentation_needed (currentFrame : Z)
    (d : GlobalSurfaceAtlasCustomBuffer) : bool :=
  (sub64 currentFrame (LastFrameAtlasInsertFail d) <? 10) &&
  (60 <? sub64 currentFrame (LastFrameAtlasDefragmentation d)).

(** Lines 663-664. *)
Definition aligned_capacity (objectsBufferCapacity : Z) : Z :=
  Math.Min (Math.AlignUp objectsBufferCapacity 4096) MAX_int32.

(** Lines 626-641: the last counter value, when a slot is assigned.  The
    result is the capacity and [notReady]. *)
Definition read_counter (inp : RenderInput) (index : Z)
    (objectsBufferCapacity : Z) : Z * bool :=
  if index =? -1 then (objectsBufferCapacity, false)
  else
    match mappedCounters inp with
    | Some data =>
        let counter := default 0 (data !! Z.to_nat index) in
        if 0 <? counter
        then (wrap32 (counter * sizeof_Float4), false)
        else (objectsBufferCapacity, true)
    | None => (objectsBufferCapacity, true)
    end.

(** The result of the culling phase: the pass, whether [Render] returned
    early with [true], the local [notReady] and the capacity the
    culled-objects buffer was sized for. *)
Record Culled := mkCulled {
  culled_pass : GlobalSurfaceAtlasPass;
  culled_failed : bool;
  notReady : bool;
  objectsBufferCapacity : Z;
}.

Section Render.

(** Constants of the engine that are not among the sources. *)
Variable GPU_MAX_TEXTURE_SIZE : Z.
Variable GPU_ASYNC_LATENCY : Z.

(** Line 348. *)
Definition atlas_resolution (inp : RenderInput) : Z :=
  Math.Clamp (GlobalSurfaceAtlasResolution inp) 256 GPU_MAX_TEXTURE_SIZE.

(** Lines 354-390: the flag tells that [Render] returns [true] early. *)
Definition init_buffers (inp : RenderInput)
    (d : GlobalSurfaceAtlasCustomBuffer)
    : GlobalSurfaceAtlasCustomBuffer * bool :=
  let currentFrame := FrameCount inp in
  let resolution := atlas_resolution inp in
  if negb (Resolution d =? resolution) then
    let d := Clear currentFrame d in
    if atlasTexturesFailed inp then (d, true)
    else
      let d := set_Resolution resolution d in
      if ChunksBuffer d then (d, false)
      else (set_ChunksBuffer true d, chunksBufferInitFailed inp)
  else
    (if defragmentation_needed currentFrame d
     then ClearObjects currentFrame d else d, false).

(** Lines 393-394. *)
Definition ensure_atlas (resolution : Z)
    (d : GlobalSurfaceAtlasCustomBuffer) : GlobalSurfaceAtlasCustomBuffer :=
  match AtlasTiles d with
  | Some _ => d
  | None => set_AtlasTiles (fun _ => Some (new_atlas resolution)) d
  end.

(** Lines 430-458: the objects are added into the atlas. *)
Definition draw_objects (inp : RenderInput)
    (pass : GlobalSurfaceAtlasPass) : GlobalSurfaceAtlasPass :=
  let d := set_CurrentFrame (FrameCount inp) (surfaceAtlasData pass) in
  foldl (fun p c => RasterizeActor c p)
    (mkPass d [] (culledObjectsSizeBuffer pass) (culledObjectsSizeFrames pass))
    (drawn inp).

(** Lines 644-653: the first slot whose last copy is old enough. *)
Definition find_free_slot (currentFrame : Z) (frames : list Z) : Z :=
  match list_find (fun f => GPU_ASYNC_LATENCY < sub64 currentFrame f) frames with
  | Some (i, _) => Z.of_nat i
  | None => -1
  end.

(** Lines 616-661: the counter readback. *)
Definition readback (inp : RenderInput) (capacity : Z)
    (pass : GlobalSurfaceAtlasPass) : Culled :=
  let d := surfaceAtlasData pass in
  let currentFrame := FrameCount inp in
  let created := negb (culledObjectsSizeBuffer pass) in
  let frames :=
    if created then replicate (length (culledObjectsSizeFrames pass)) 0
    else culledObjectsSizeFrames pass in
  if created && sizeBufferInitFailed inp
  then mkCulled (mkPass d (dirtyObjectsBuffer pass) true frames) true false capacity
  else
    let '(capacity, stale) :=
      read_counter inp (CulledObjectsCounterIndex d) capacity in
    let index :=
      if CulledObjectsCounterIndex d =? -1
      then find_free_slot currentFrame frames
      else CulledObjectsCounterIndex d in
    let stale := if CulledObjectsCounterIndex d =? -1 then true else stale in
    let frames :=
      if index =? -1 then frames
      else <[Z.to_nat index := currentFrame]> frames in
    mkCulled
      (mkPass (set_CulledObjectsCounterIndex index d) (dirtyObjectsBuffer pass)
         true frames)
      false stale capacity.

(** Lines 663-672: the culled-objects buffer is created on first use and
    initialised again when it is smaller than the capacity asked for.  The
    buffer class is not among the sources: a created buffer has size zero
    until [Init] gives it the size asked for, and a failed [Init] is taken
    to leave it without storage. *)
Definition allocate_culled (inp : RenderInput) (capacity : Z)
    (d : GlobalSurfaceAtlasCustomBuffer)
    : GlobalSurfaceAtlasCustomBuffer * bool :=
  let size := default 0 (CulledObjectsBuffer d) in
  if size <? capacity then
    if culledObjectsInitFailed inp
    then (set_CulledObjectsBuffer (Some 0) d, true)
    else (set_CulledObjectsBuffer (Some capacity) d, false)
  else (set_CulledObjectsBuffer (Some size) d, false).

(** Lines 601-672. *)
Definition cull_objects (inp : RenderInput)
    (pass : GlobalSurfaceAtlasPass) : Culled :=
  let d := surfaceAtlasData pass in
  if decide (Objects d = ∅) then mkCulled pass false false 0
  else
    let r :=
      if ChunksBuffer d then readback inp (estimatedCapacity inp) pass
      else mkCulled pass false false (estimatedCapacity inp) in
    if culled_failed r then r
    else
      let capacity := aligned_capacity (objectsBufferCapacity r) in
      let '(d', failed) :=
        allocate_culled inp capacity (surfaceAtlasData (culled_pass r)) in
      mkCulled (with_data d' (culled_pass r)) failed (notReady r) capacity.

(** Lines 344-458: the frame update up to the removal of unused objects;
    the flag tells that [Render] returns [true] early. *)
Definition draw_atlas (inp : RenderInput)
    (pass : GlobalSurfaceAtlasPass) : GlobalSurfaceAtlasPass * bool :=
  let currentFrame := FrameCount inp in
  let d := set_CustomBuffer_LastFrameUsed currentFrame (surfaceAtlasData pass) in
  let '(d, failed) := init_buffers inp d in
  if failed then (with_data d pass, true)
  else
    (draw_objects inp
       (with_data (ensure_atlas (atlas_resolution inp) d) pass), false).

(** Lines 344-472: the frame update up to and including the removal of
    unused objects. *)
Definition update_atlas (inp : RenderInput)
    (pass : GlobalSurfaceAtlasPass) : GlobalSurfaceAtlasPass * bool :=
  let '(pass, failed) := draw_atlas inp pass in
  if failed then (pass, true)
  else
    (with_data (remove_unused (FrameCount inp) (surfaceAtlasData pass)) pass,
     false).

(** [Render]: the pass after the call and the value returned. *)
Definition Render (inp : RenderInput)
    (pass : GlobalSurfaceAtlasPass) : GlobalSurfaceAtlasPass * bool :=
  if passSkipped inp then (pass, true)
  else if CustomBuffer_LastFrameUsed (surfaceAtlasData pass) =? FrameCount inp
  then (pass, false)
  else
    let '(pass, failed) := update_atlas inp pass in
    if failed then (pass, true)
    else
      let r := cull_objects inp pass in
      (culled_pass r, if culled_failed r then true else notReady r).

(** The pass after a sequence of frames. *)
Definition run (inputs : list RenderInput)
    (pass : GlobalSurfaceAtlasPass) : GlobalSurfaceAtlasPass :=
  foldl (fun p inp => (Render inp p).1) pass inputs.

End Render.

(** ** Consistency of the cache with the packer *)

(** What holds of the tiles the cache refers to, for every slot other than
    those singled out by [skip]: the pointer leads to a used slot of the
    packer, and no other slot holds the same pointer. *)
Definition tiles_owned (skip : Z * nat -> Prop)
    (d : GlobalSurfaceAtlasCustomBuffer) : Prop :=
  forall key i p, ~ skip (key, i) -> object_tile d key i = Some p ->
    (exists root s, AtlasTiles d = Some root /\
                    RectPack.tile_at p root = Some (s, true)) /\
    (forall key' i', ~ skip (key', i') -> object_tile d key' i' = Some p ->
                     key' = key /\ i' = i).

Record atlas_consistent (skip : Z * nat -> Prop)
    (d : GlobalSurfaceAtlasCustomBuffer) : Prop := mkConsistent {
  atlas_wf : forall root, AtlasTiles d = Some root ->
    RectPack.wf root /\
    RectPack.region root
    = mkRect 0 0 (wrap16 (Resolution d)) (wrap16 (Resolution d));
  atlas_owned : tiles_owned skip d;
  atlas_slots : forall key o, Objects d !! key = Some o ->
    length (Tiles o) = 6%nat;
  atlas_resolution_pos : 0 <= Resolution d;
}.

Definition no_slot : Z * nat -> Prop := fun _ => False.

(** The invariant of the cache between two operations. *)
Definition atlas_inv (d : GlobalSurfaceAtlasCustomBuffer) : Prop :=
  atlas_consistent no_slot d.

(** ** Packing validity *)

(** The tiles the cache holds have a rectangle in the packer; each lies
    within the atlas, and tiles of two different slots do not overlap. *)
Definition packing_valid (d : GlobalSurfaceAtlasCustomBuffer) : Prop :=
  forall k1 i1 p1 k2 i2 p2,
    object_tile d k1 i1 = Some p1 -> object_tile d k2 i2 = Some p2 ->
    exists r1 r2,
      tile_rect d p1 = Some r1 /\ tile_rect d p2 = Some r2 /\
      in_atlas (Resolution d) r1 /\ in_atlas (Resolution d) r2 /\
      ((k1, i1) <> (k2, i2) -> overlaps r1 r2 = false).

(** ** A small scene *)

(** A dynamic object whose six faces ask for 64 texels and a static one
    that asks for more than the largest tile on its first face. *)
Definition crate : RasterizeCall :=
  mkCall (mkActor 100 5 false) 100 63 (fun _ => 64).

Definition wall : RasterizeCall :=
  mkCall (mkActor 200 8 true) 200 1 (fun _ => 200).

Definition frame (n : Z) (calls : list RasterizeCall) : RenderInput :=
  mkInput n false 256 false false calls 100 false None false.

(** An object whose faces ask for the largest tile: a 256 atlas holds one
    of them. *)
Definition hall : RasterizeCall :=
  mkCall (mkActor 300 0 false) 300 63 (fun _ => 192).

(** ** Tiles across a frame *)

(** The entry of [key] holds [tile] in slot [tileIndex], and the tile's
    rectangle is [r]. *)
Definition holds_tile (d : GlobalSurfaceAtlasCustomBuffer) (key : Z)
    (tileIndex : nat) (tile : TilePtr) (r : Rect) : Prop :=
  object_tile d key tileIndex = Some tile /\ tile_rect d tile = Some r.

(** The resolution computed for the face lies within the refit step of the
    size [currentSize] of the face's tile (line 1031). *)
Definition within_refit_step (c : RasterizeCall) (tileIndex : nat)
    (currentSize : Z) : Prop :=
  4 <= face_resolution c tileIndex /\
  Math.Abs (snap_resolution (face_resolution c tileIndex) - currentSize)
  < tileRefitResolutionStep.

(** The call leaves the face alone: the face is not in the mask, or its
    resolution is within the refit step of its tile. *)
Definition keeps_face (c : RasterizeCall) (tileIndex : nat)
    (currentSize : Z) : Prop :=
  Z.testbit (tilesMask c) (Z.of_nat tileIndex) = false \/
  within_refit_step c tileIndex currentSize.

(** The frame with other [RasterizeActor] calls. *)
Definition with_drawn (calls : list RasterizeCall)
    (inp : RenderInput) : RenderInput :=
  mkInput (FrameCount inp) (passSkipped inp) (GlobalSurfaceAtlasResolution inp)
    (atlasTexturesFailed inp) (chunksBufferInitFailed inp) calls
    (estimatedCapacity inp) (sizeBufferInitFailed inp) (mappedCounters inp)
    (culledObjectsInitFailed inp).

(** The crate seen from so far away that no face is worth a tile. *)
Definition speck : RasterizeCall :=
  mkCall (mkActor 100 5 false) 100 63 (fun _ => 3).

(** The crate a little closer: its faces now ask for 80 texels. *)
Definition crate_near : RasterizeCall :=
  mkCall (mkActor 100 5 false) 100 63 (fun _ => 80).

(** The crate much closer: its faces now ask for 128 texels. *)
Definition crate_close : RasterizeCall :=
  mkCall (mkActor 100 5 false) 100 63 (fun _ => 128).

(** The entry of [key] was marked as used in frame [F]. *)
Definition used_in_frame (d : GlobalSurfaceAtlasCustomBuffer) (key : Z)
    (F : Z) : Prop :=
  exists o, Objects d !! key = Some o /\ LastFrameUsed o = F.

(** ** Entries and their tiles *)

(** At least one of the six tile slots of the object is not null. *)
Definition has_tile (o : GlobalSurfaceAtlasObject) : Prop :=
  exists i p, (i < 6)%nat /\ Tiles o !! i = Some (Some p).

(** No object is rasterized twice in the frame. *)
Definition drawn_once (inp : RenderInput) : Prop :=
  NoDup (actorObject <$> drawn inp).

(** While the objects of frame [F] are drawn: an entry marked as used in
    the frame has a tile, and the objects still to be drawn are not
    marked. *)
Definition drawing (F : Z) (rest : list RasterizeCall)
    (d : GlobalSurfaceAtlasCustomBuffer) : Prop :=
  atlas_inv d /\ is_Some (AtlasTiles d) /\ CurrentFrame d = F /\
  (forall k o, Objects d !! k = Some o -> LastFrameUsed o = F -> has_tile o) /\
  (forall c o, c ∈ rest -> Objects d !! actorObject c = Some o ->
               LastFrameUsed o <> F).

(** Between two frames: every entry was used in the last frame that was
    updated, and has a tile. *)
Definition cache_tidy (d : GlobalSurfaceAtlasCustomBuffer) : Prop :=
  forall k o, Objects d !! k = Some o ->
    LastFrameUsed o = CustomBuffer_LastFrameUsed d /\ has_tile o.

(** ** The culled-objects buffer *)

(** [CulledObjectsBuffer->GetSize()], zero while there is no buffer. *)
Definition culled_size (d : GlobalSurfaceAtlasCustomBuffer) : Z :=
  default 0 (CulledObjectsBuffer d).

(** A frame in which the counters read back so far are [data]. *)
Definition frame_read (n : Z) (calls : list RasterizeCall)
    (data : list Z) : RenderInput :=
  mkInput n false 256 false false calls 100 false (Some data) false.

(** ** What a call leaves alone *)

(** The members of the buffer that [RasterizeActor] never writes, and
    whether the packer exists. *)
Definition same_settings (d d' : GlobalSurfaceAtlasCustomBuffer) : Prop :=
  CustomBuffer_LastFrameUsed d' = CustomBuffer_LastFrameUsed d /\
  Resolution d' = Resolution d /\
  LastFrameAtlasDefragmentation d' = LastFrameAtlasDefragmentation d /\
  ChunksBuffer d' = ChunksBuffer d /\
  CulledObjectsBuffer d' = CulledObjectsBuffer d /\
  CulledObjectsCounterIndex d' = CulledObjectsCounterIndex d /\
  CurrentFrame d' = CurrentFrame d /\
  (is_Some (AtlasTiles d') <-> is_Some (AtlasTiles d)).

(** The counter slot of the buffer is unassigned or one of the [slots]
    entries of the readback ring. *)
Definition slot_in_range (slots : nat) (pass : GlobalSurfaceAtlasPass) : Prop :=
  length (culledObjectsSizeFrames pass) = slots /\
  (CulledObjectsCounterIndex (surfaceAtlasData pass) = -1 \/
   0 <= CulledObjectsCounterIndex (surfaceAtlasData pass) < Z.of_nat slots).

(** While a packer exists, the resolution of the buffer is one that
    [Render] computed. *)
Definition resolution_set (MAX : Z) (d : GlobalSurfaceAtlasCustomBuffer) : Prop :=
  is_Some (AtlasTiles d) -> 256 <= Resolution d <= MAX.

(** A frame whose atlas textures cannot be allocated. *)
Definition frame_without_textures (n : Z) (calls : list RasterizeCall)
    : RenderInput :=
  mkInput n false 256 true false calls 100 false None false.

(** A frame in which the chunks buffer cannot be initialised. *)
Definition frame_without_chunks (n : Z) (calls : list RasterizeCall)
    : RenderInput :=
  mkInput n false 256 false true calls 100 false None false.

(** ** Objects used and queued in a frame *)

(** The call asks for a tile on at least one face: a face of its mask whose
    resolution is not below 4. *)
Definition wants_tile (c : RasterizeCall) : Prop :=
  exists i, (i < 6)%nat /\ Z.testbit (tilesMask c) (Z.of_nat i) = true /\
            4 <= face_resolution c i.

(** The entry of [key] was used and made dirty in frame [F], and has its
    actor. *)
Definition marked (d : GlobalSurfaceAtlasCustomBuffer) (key F : Z) : Prop :=
  exists o a, Objects d !! key = Some o /\ LastFrameUsed o = F /\
              LastFrameDirty o = F /\ ObjectActor o = Some a.

(** Every entry was used in the last frame the buffer was updated in. *)
Definition cache_fresh (d : GlobalSurfaceAtlasCustomBuffer) : Prop :=
  forall k o, Objects d !! k = Some o ->
    LastFrameUsed o = CustomBuffer_LastFrameUsed d.

(** The frame stamps and the actor of an entry: what the loop over the
    faces never writes. *)
Definition same_marks (o o' : GlobalSurfaceAtlasObject) : Prop :=
  LastFrameUsed o' = LastFrameUsed o /\
  LastFrameDirty o' = LastFrameDirty o /\
  ObjectActor o' = ObjectActor o.

(** The buffer has an entry for [key] with the stamps and the actor of
    [o]. *)
Definition has_marks (d : GlobalSurfaceAtlasCustomBuffer) (key : Z)
    (o : GlobalSurfaceAtlasObject) : Prop :=
  exists o', Objects d !! key = Some o' /\ same_marks o o'.

(** ** Sizes of the tiles *)

(** A square whose side is a multiple of 8 within the tile size limits. *)
Definition snapped (r : Rect) : Prop :=
  Width r = Height r /\
  GLOBAL_SURFACE_ATLAS_TILE_SIZE_MIN <= Width r
    <= GLOBAL_SURFACE_ATLAS_TILE_SIZE_MAX /\
  Width r mod 8 = 0.

(** Every used slot of the packer is such a square. *)
Definition tiles_snapped (d : GlobalSurfaceAtlasCustomBuffer) : Prop :=
  forall root p r, AtlasTiles d = Some root ->
    RectPack.tile_at p root = Some (r, true) -> snapped r.

(** ** Resources of the pass (lines 215-321) *)

(** The members that [Init], [setupResources], [OnShaderReloading] and
    [Dispose] set: [_supported], and for each pointer whether it is set. *)
Record PassResources := mkResources {
  supported : bool;
  shader : bool;
  cb0 : bool;
  csCullObjects : bool;
  psDebug : bool;
  psClear : bool;
  psDirectLighting0 : bool;
  psDirectLighting1 : bool;
  psIndirectLighting : bool;
}.

(** What one call of [setupResources] gets from the content system, the
    shader and the GPU device. *)
Record ResourceEnv := mkEnv {
  (** [Content::LoadAsyncInternal] returned an asset *)
  shaderFound : bool;
  (** [_shader->IsLoaded()] *)
  shaderLoaded : bool;
  (** [shader->GetCB(0)] is not null *)
  shaderCB : bool;
  (** [shader->GetCS("CS_CullObjects")] is not null *)
  shaderCS : bool;
  (** [Init] of the pipeline state failed *)
  psDebugInitFailed : bool;
  psClearInitFailed : bool;
  psDirectLighting0InitFailed : bool;
  psDirectLighting1InitFailed : bool;
  psIndirectLightingInitFailed : bool;
}.

(** The pass as constructed, before [Init]. *)
Definition no_resources : PassResources :=
  mkResources false false false false false false false false false.

(** [Init] (lines 215-221) records whether the device has the features the
    pass needs and returns [false]. *)
Definition Init (deviceSupported : bool) (s : PassResources)
    : PassResources * bool :=
  (mkResources deviceSupported (shader s) (cb0 s) (csCullObjects s)
     (psDebug s) (psClear s) (psDirectLighting0 s) (psDirectLighting1 s)
     (psIndirectLighting s), false).

(** A part of [setupResources]: the members after it, and whether the
    function returns [true] there. *)
Definition SetupStep : Type := PassResources -> PassResources * bool.

Definition and_then (f g : SetupStep) : SetupStep :=
  fun s => let '(s', failed) := f s in if failed then (s', true) else g s'.

Infix ">>" := and_then (at level 60, right associativity).

(** Lines 225-226. *)
Definition check_supported : SetupStep :=
  fun s => (s, negb (supported s)).

(** Lines 229-239. *)
Definition load_shader (env : ResourceEnv) : SetupStep :=
  fun s =>
    let found := shader s || shaderFound env in
    (mkResources (supported s) found (cb0 s) (csCullObjects s)
       (psDebug s) (psClear s) (psDirectLighting0 s) (psDirectLighting1 s)
       (psIndirectLighting s),
     negb found || negb (shaderLoaded env)).

(** Lines 241-246. *)
Definition get_constants (env : ResourceEnv) : SetupStep :=
  fun s =>
    if shaderCB env
    then (mkResources (supported s) (shader s) true (shaderCS env)
            (psDebug s) (psClear s) (psDirectLighting0 s)
            (psDirectLighting1 s) (psIndirectLighting s), false)
    else (mkResources (supported s) (shader s) false (csCullObjects s)
            (psDebug s) (psClear s) (psDirectLighting0 s)
            (psDirectLighting1 s) (psIndirectLighting s), true).

(** Lines 250-256. *)
Definition setup_psDebug (env : ResourceEnv) : SetupStep :=
  fun s =>
    if psDebug s then (s, false)
    else (mkResources (supported s) (shader s) (cb0 s) (csCullObjects s)
            true (psClear s) (psDirectLighting0 s) (psDirectLighting1 s)
            (psIndirectLighting s), psDebugInitFailed env).

(** Lines 257-267. *)
Definition setup_psClear (env : ResourceEnv) : SetupStep :=
  fun s =>
    if psClear s then (s, false)
    else (mkResources (supported s) (shader s) (cb0 s) (csCullObjects s)
            (psDebug s) true (psDirectLighting0 s) (psDirectLighting1 s)
            (psIndirectLighting s), psClearInitFailed env).

(** Lines 268-287: the three lighting pipeline states are created together,
    when the first of them is missing. *)
Definition setup_lighting (env : ResourceEnv) : SetupStep :=
  fun s =>
    if psDirectLighting0 s then (s, false)
    else
      let created0 :=
        mkResources (supported s) (shader s) (cb0 s) (csCullObjects s)
          (psDebug s) (psClear s) true (psDirectLighting1 s)
          (psIndirectLighting s) in
      if psDirectLighting0InitFailed env then (created0, true)
      else
        let created1 :=
          mkResources (supported s) (shader s) (cb0 s) (csCullObjects s)
            (psDebug s) (psClear s) true true (psIndirectLighting s) in
        if psDirectLighting1InitFailed env then (created1, true)
        else
          (mkResources (supported s) (shader s) (cb0 s) (csCullObjects s)
             (psDebug s) (psClear s) true true true,
           psIndirectLightingInitFailed env).

(** [setupResources] (lines 223-290): the members after the call and the
    value returned. *)
Definition setupResources (env : ResourceEnv) : SetupStep :=
  check_supported >> load_shader env >> get_constants env >>
  setup_psDebug env >> setup_psClear env >> setup_lighting env.

(** [OnShaderReloading] (lines 294-302) deletes the pipeline states. *)
Definition OnShaderReloading (s : PassResources) : PassResources :=
  mkResources (supported s) (shader s) (cb0 s) (csCullObjects s)
    false false false false false.

(** [Dispose] (lines 306-321), on these members: the pipeline states are
    deleted, the constant buffer and the shader are reset. *)
Definition Dispose (s : PassResources) : PassResources :=
  mkResources (supported s) false false (csCullObjects s)
    false false false false false.

(** Everything can be had. *)
Definition all_available : ResourceEnv :=
  mkEnv true true true true false false false false false.

(** Everything can be had but the second lighting pipeline state. *)
Definition lighting1_unavailable : ResourceEnv :=
  mkEnv true true true true false false false true false.

(** ** The objects buffer (lines 1076-1139) *)

Definition GLOBAL_SURFACE_ATLAS_OBJECT_DATA_STRIDE : nat := 6.
Definition GLOBAL_SURFACE_ATLAS_TILE_DATA_STRIDE : nat := 5.

(** One [Float4] of [_objectsBuffer].  The floating-point contents are not
    modelled: a cell records what the code wrote there, the bounds of an
    object, one of its rows 2 to 5, or one of the five rows of a tile.  The
    second cell of an object holds integers: the offsets of its six tiles
    ([uint16], zero for a face without tile) and the size of the object
    with its tiles, in [Float4]s. *)
Inductive ObjectsBufferCell :=
| ObjectBounds (key : Z)
| ObjectLayout (offsets : list Z) (size : Z)
| ObjectRow (key : Z) (row : nat)
| TileRow (tile : TilePtr) (row : nat).

(** The members of a tile written at lines 1097-1098. *)
Record TileAddress := mkTileAddress {
  Address : Z;
  ObjectAddressOffset : Z;
}.

(** [_objectsBuffer->Data], counted in [Float4]s, and the addresses stored
    in the tiles. *)
Record ObjectsBuffer := mkObjectsBuffer {
  Data : list ObjectsBufferCell;
  tile_address : TilePtr -> TileAddress;
}.

(** The variables of the loop at lines 1092-1139: the buffer and the two
    integers kept in the object's second cell, [tileOffsets] and
    [*objectDataSize]. *)
Record ObjectDataLoop := mkObjectData {
  objects_buffer : ObjectsBuffer;
  tileOffsets : list Z;
  objectDataSize : Z;
}.

(** [objectData[0..5]] as reserved at lines 1082-1091. *)
Definition objectData (key : Z) : list ObjectsBufferCell :=
  [ObjectBounds key;
   ObjectLayout (replicate 6 0) (Z.of_nat GLOBAL_SURFACE_ATLAS_OBJECT_DATA_STRIDE);
   ObjectRow key 2; ObjectRow key 3; ObjectRow key 4; ObjectRow key 5].

(** [tileData[0..4]] of lines 1133-1138. *)
Definition tileData (tile : TilePtr) : list ObjectsBufferCell :=
  TileRow tile <$> seq 0 GLOBAL_SURFACE_ATLAS_TILE_DATA_STRIDE.

(** One iteration of the loop at lines 1092-1139, for the object whose data
    starts at cell [start] of the buffer.  The pointers into the buffer
    taken at lines 1082-1090 are taken to stay valid while the data of the
    tiles is appended. *)
Definition write_tile (start : nat) (tiles : list (option TilePtr))
    (st : ObjectDataLoop) (tileIndex : nat) : ObjectDataLoop :=
  match default None (tiles !! tileIndex) with
  | None => st
  | Some tile =>
      let objectAddress := wrap32 (Z.of_nat start) in
      let offset := objectDataSize st in
      let address := mkTileAddress (wrap32 (objectAddress + offset)) offset in
      let offsets := <[tileIndex := wrap16 offset]> (tileOffsets st) in
      let size :=
        wrap32 (offset + Z.of_nat GLOBAL_SURFACE_ATLAS_TILE_DATA_STRIDE) in
      let data :=
        <[S start := ObjectLayout offsets size]> (Data (objects_buffer st))
        ++ tileData tile in
      mkObjectData
        (mkObjectsBuffer data
           (fun q => if decide (q = tile) then address
                     else tile_address (objects_buffer st) q))
        offsets size
  end.

(** Lines 1076-1139: the data of an object and of its tiles is appended to
    the buffer. *)
Definition write_object_data (key : Z) (tiles : list (option TilePtr))
    (w : ObjectsBuffer) : ObjectsBuffer :=
  let start := length (Data w) in
  objects_buffer
    (foldl (write_tile start tiles)
       (mkObjectData (mkObjectsBuffer (Data w ++ objectData key) (tile_address w))
          (replicate 6 0) (Z.of_nat GLOBAL_SURFACE_ATLAS_OBJECT_DATA_STRIDE))
       (seq 0 6)).

(** Lines 1056-1139, after the loop over the faces, on the objects buffer:
    nothing is written for an object without tile, otherwise the data of
    the object as the loop left it. *)
Definition RasterizeActor_write (c : RasterizeCall) (st : FaceLoop)
    (w : ObjectsBuffer) : ObjectsBuffer :=
  if negb (anyTile st) then w
  else
    match Objects (loop_data st) !! actorObject c with
    | None => w
    | Some object => write_object_data (actorObject c) (Tiles object) w
    end.

(** What [RasterizeActor] does to the objects buffer. *)
Definition RasterizeActor_objects (c : RasterizeCall)
    (pass : GlobalSurfaceAtlasPass) (w : ObjectsBuffer) : ObjectsBuffer :=
  RasterizeActor_write c (RasterizeActor_faces c (surfaceAtlasData pass)) w.

(** The number of tiles in the slots before [n]. *)
Definition tiles_before (tiles : list (option TilePtr)) (n : nat) : nat :=
  length (omap id (take n tiles)).

(** The offset of the data of the tile of slot [i] from the start of its
    object. *)
Definition tile_offset (tiles : list (option TilePtr)) (i : nat) : nat :=
  GLOBAL_SURFACE_ATLAS_OBJECT_DATA_STRIDE
  + GLOBAL_SURFACE_ATLAS_TILE_DATA_STRIDE * tiles_before tiles i.

(** What holds of the loop's variables when the slots before [n] have been
    written, for an object whose data starts at cell [start] of the buffer
    [w]. *)
Record object_data_inv (start : nat) (key : Z) (w : ObjectsBuffer)
    (tiles : list (option TilePtr)) (n : nat) (st : ObjectDataLoop)
    : Prop := mkObjectDataInv {
  inv_size : objectDataSize st = Z.of_nat (tile_offset tiles n);
  inv_length :
    length (Data (objects_buffer st)) = (start + tile_offset tiles n)%nat;
  inv_before : forall j, (j < start)%nat ->
    Data (objects_buffer st) !! j = Data w !! j;
  inv_bounds : Data (objects_buffer st) !! start = Some (ObjectBounds key);
  inv_layout :
    Data (objects_buffer st) !! S start
    = Some (ObjectLayout (tileOffsets st) (objectDataSize st));
  inv_rows : forall row, (2 <= row < 6)%nat ->
    Data (objects_buffer st) !! (start + row)%nat = Some (ObjectRow key row);
  inv_offsets_length : length (tileOffsets st) = 6%nat;
  inv_tile : forall i t, (i < n)%nat -> tiles !! i = Some (Some t) ->
    tileOffsets st !! i = Some (Z.of_nat (tile_offset tiles i)) /\
    forall row, (row < 5)%nat ->
      Data (objects_buffer st) !! (start + tile_offset tiles i + row)%nat
      = Some (TileRow t row);
  inv_no_tile : forall i, (i < 6)%nat ->
    (n <= i)%nat \/ tiles !! i = Some None -> tileOffsets st !! i = Some 0;
  inv_other : forall t, (forall i, (i < n)%nat -> tiles !! i <> Some (Some t)) ->
    tile_address (objects_buffer st) t = tile_address w t;
  inv_address : forall i t, (i < n)%nat -> tiles !! i = Some (Some t) ->
    (forall j, (i < j < n)%nat -> tiles !! j <> Some (Some t)) ->
    tile_address (objects_buffer st) t
    = mkTileAddress (Z.of_nat (start + tile_offset tiles i))
        (Z.of_nat (tile_offset tiles i));
}.

(** ** An atlas without room *)

(** The face is in the mask of the call and its resolution is not below
    4: the loop asks for a tile for it. *)
Definition face_wanted (c : RasterizeCall) (tileIndex : nat) : bool :=
  Z.testbit (tilesMask c) (Z.of_nat tileIndex) &&
  (4 <=? face_resolution c tileIndex).

(** An object whose only face in the mask asks for the largest tile. *)
Definition pillar : RasterizeCall :=
  mkCall (mkActor 400 1 false) 400 1 (fun _ => 192).

(** ** Frames that stress the culled-objects buffer *)

(** A frame in which the counters read back so far are [data] and the
    initialisation of the culled-objects buffer fails. *)
Definition frame_read_failing (n : Z) (calls : list RasterizeCall)
    (data : list Z) : RenderInput :=
  mkInput n false 256 false false calls 100 false (Some data) true.

(** Line 664 in unbounded integers: the next multiple of 4096. *)
Definition next_multiple_4096 (capacity : Z) : Z :=
  (capacity + 4095) / 4096 * 4096.

(** The capacity line 664 starts from: the estimate of line 613, or what
    the counter readback made of it. *)
Definition requested_capacity (GPU_ASYNC_LATENCY : Z) (inp : RenderInput)
    (pass : GlobalSurfaceAtlasPass) : Z :=
  if ChunksBuffer (surfaceAtlasData pass)
  then objectsBufferCapacity
         (readback GPU_ASYNC_LATENCY inp (estimatedCapacity inp) pass)
  else estimatedCapacity inp.

(** * Properties *)

(** ** Arithmetic helpers *)

Ltac zbool :=
  repeat match goal with
  | H : (_ && _) = true |- _ => apply andb_true_iff in H; destruct H
  | H : (_ || _) = false |- _ => apply orb_false_iff in H; destruct H
  | H : negb _ = true |- _ => apply negb_true_iff in H
  | H : negb _ = false |- _ => apply negb_false_iff in H
  | H : (_ <? _) = true |- _ => apply Z.ltb_lt in H
  | H : (_ <? _) = false |- _ => apply Z.ltb_ge in H
  | H : (_ <=? _) = true |- _ => apply Z.leb_le in H
  | H : (_ <=? _) = false |- _ => apply Z.leb_gt in H
  | H : (_ =? _) = true |- _ => apply Z.eqb_eq in H
  | H : (_ =? _) = false |- _ => apply Z.eqb_neq in H
  end.

Lemma separated_no_overlap a b : separated a b -> overlaps a b = false.
Proof.
  unfold separated, overlaps. intros Hs.
  destruct (X a <? X b + Width b) eqn:E1; [|done].
  destruct (X b <? X a + Width a) eqn:E2; [|done].
  destruct (Y a <? Y b + Height b) eqn:E3; [|done].
  destruct (Y b <? Y a + Height a) eqn:E4; [|done].
  zbool. lia.
Qed.

Lemma inside_refl a : inside a a.
Proof. unfold inside. lia. Qed.

Lemma inside_trans a b c : inside a b -> inside b c -> inside a c.
Proof. unfold inside. lia. Qed.

Lemma separated_inside a b a' b' :
  separated a b -> inside a' a -> inside b' b -> separated a' b'.
Proof. unfold separated, inside. lia. Qed.

(** ** The packer *)

Lemma place_region r w h : RectPack.region (RectPack.place r w h).2 = r.
Proof. unfold RectPack.place. repeat case_match; done. Qed.

Lemma place_wf r w h :
  0 <= w <= Width r -> 0 <= h <= Height r ->
  RectPack.wf (RectPack.place r w h).2.
Proof.
  intros Hw Hh. unfold RectPack.place.
  repeat case_match; zbool; simpl;
    unfold inside, separated; simpl; try done; repeat split; lia.
Qed.

Lemma place_tile r w h :
  RectPack.tile_at (RectPack.place r w h).1 (RectPack.place r w h).2
  = Some (mkRect (X r) (Y r) w h, true).
Proof.
  unfold RectPack.place. destruct r as [x y W H]; simpl.
  repeat case_match; zbool; simpl; repeat f_equal; lia.
Qed.

Lemma place_used r w h q s :
  RectPack.tile_at q (RectPack.place r w h).2 = Some (s, true) ->
  q = (RectPack.place r w h).1.
Proof.
  unfold RectPack.place.
  repeat case_match; simpl; intros Hq;
    repeat (destruct q as [|[] q]; simpl in Hq; try done).
Qed.

Lemma Insert_region n w h pad q n' :
  RectPack.Insert n w h pad = Some (q, n') ->
  RectPack.region n' = RectPack.region n.
Proof.
  destruct n as [r u|r l rr]; simpl.
  - case_match; [done|]. intros [= Hpl].
    pose proof (place_region r (w + pad) (h + pad)) as Hplace.
    by rewrite Hpl in Hplace.
  - repeat case_match; intros [= <- <-]; done.
Qed.

Lemma Insert_wf n w h pad q n' :
  0 <= w + pad -> 0 <= h + pad -> RectPack.wf n ->
  RectPack.Insert n w h pad = Some (q, n') -> RectPack.wf n'.
Proof.
  intros Hw Hh. revert q n'.
  induction n as [r u|r l IHl rr IHr]; simpl; intros q n' Hwf.
  - case_match eqn:E; [done|]. intros [= Hpl]. zbool.
    pose proof (place_wf r (w + pad) (h + pad)) as Hplace.
    rewrite Hpl in Hplace. apply Hplace; lia.
  - destruct Hwf as (Hil & Hir & Hsep & Hwl & Hwr).
    destruct (RectPack.Insert l w h pad) as [[p l']|] eqn:El.
    + intros [= <- <-]. simpl. rewrite (Insert_region _ _ _ _ _ _ El).
      eauto 10.
    + destruct (RectPack.Insert rr w h pad) as [[p rr']|] eqn:Er; [|done].
      intros [= <- <-]. simpl. rewrite (Insert_region _ _ _ _ _ _ Er).
      eauto 10.
Qed.

(** The tile handed out is a used slot of the padded size. *)
Lemma Insert_tile n w h pad q n' :
  RectPack.Insert n w h pad = Some (q, n') ->
  exists x y,
    RectPack.tile_at q n' = Some (mkRect x y (w + pad) (h + pad), true).
Proof.
  revert q n'. induction n as [r u|r l IHl rr IHr]; simpl; intros q n'.
  - case_match; [done|]. intros [= Hpl].
    pose proof (place_tile r (w + pad) (h + pad)) as Hplace.
    rewrite Hpl in Hplace. eauto.
  - destruct (RectPack.Insert l w h pad) as [[p l']|] eqn:El.
    + intros [= <- <-]. simpl. eauto.
    + destruct (RectPack.Insert rr w h pad) as [[p rr']|] eqn:Er; [|done].
      intros [= <- <-]. simpl. eauto.
Qed.

(** Tiles that are in use stay where they are, and the tile handed out is
    none of them. *)
Lemma Insert_keeps_used n w h pad q n' p s :
  RectPack.Insert n w h pad = Some (q, n') ->
  RectPack.tile_at p n = Some (s, true) ->
  RectPack.tile_at p n' = Some (s, true) /\ p <> q.
Proof.
  revert q n' p. induction n as [r u|r l IHl rr IHr]; simpl; intros q n' p.
  - case_match eqn:E; [done|]. intros _ Hp.
    destruct p as [|[] p]; simpl in Hp; [|done|done]. by simplify_eq.
  - destruct (RectPack.Insert l w h pad) as [[ql l']|] eqn:El.
    + intros [= <- <-] Hp. destruct p as [|[] p]; simpl in *; [done| |].
      * destruct (IHl _ _ _ eq_refl Hp). split; [done|congruence].
      * split; [done|congruence].
    + destruct (RectPack.Insert rr w h pad) as [[qr rr']|] eqn:Er; [|done].
      intros [= <- <-] Hp. destruct p as [|[] p]; simpl in *; [done| |].
      * split; [done|congruence].
      * destruct (IHr _ _ _ eq_refl Hp). split; [done|congruence].
Qed.

(** The only slot an insertion turns into a used one is the tile handed
    out. *)
Lemma Insert_new_used n w h pad q n' p s :
  RectPack.Insert n w h pad = Some (q, n') ->
  RectPack.tile_at p n' = Some (s, true) ->
  p = q \/ RectPack.tile_at p n = Some (s, true).
Proof.
  revert q n' p. induction n as [r u|r l IHl rr IHr]; simpl; intros q n' p.
  - case_match eqn:E; [done|]. intros [= Hpl] Hp.
    pose proof (place_used r (w + pad) (h + pad) p s) as Hplace.
    rewrite Hpl in Hplace. auto.
  - destruct (RectPack.Insert l w h pad) as [[ql l']|] eqn:El.
    + intros [= <- <-] Hp. destruct p as [|[] p]; simpl in *; [done| |].
      * destruct (IHl _ _ _ eq_refl Hp); [left; congruence|by right].
      * by right.
    + destruct (RectPack.Insert rr w h pad) as [[qr rr']|] eqn:Er; [|done].
      intros [= <- <-] Hp. destruct p as [|[] p]; simpl in *; [done| |].
      * by right.
      * destruct (IHr _ _ _ eq_refl Hp); [left; congruence|by right].
Qed.

(** An insertion succeeds as soon as some free slot is large enough. *)
Lemma Insert_succeeds n w h pad p s :
  RectPack.tile_at p n = Some (s, false) ->
  w + pad <= Width s -> h + pad <= Height s ->
  is_Some (RectPack.Insert n w h pad).
Proof.
  revert p. induction n as [r u|r l IHl rr IHr]; simpl; intros p Hp Hw Hh.
  - destruct p as [|[] p]; simpl in Hp; [|done|done]. simplify_eq. simpl.
    destruct (Width s <? w + pad) eqn:E1; [zbool; lia|].
    destruct (Height s <? h + pad) eqn:E2; [zbool; lia|]. simpl. eauto.
  - destruct p as [|[] p]; [done| |].
    + destruct (IHl _ Hp Hw Hh) as [[? ?] ->]. eauto.
    + destruct (RectPack.Insert l w h pad) as [[? ?]|]; [eauto|].
      destruct (IHr _ Hp Hw Hh) as [[? ?] ->]. eauto.
Qed.

Lemma Free_region p n : RectPack.region (RectPack.Free p n) = RectPack.region n.
Proof. destruct p as [|[] p], n; done. Qed.

Lemma Free_wf p n : RectPack.wf n -> RectPack.wf (RectPack.Free p n).
Proof.
  revert p. induction n as [r u|r l IHl rr IHr]; intros p Hwf.
  - destruct p as [|[] p]; done.
  - destruct Hwf as (Hil & Hir & Hsep & Hwl & Hwr).
    destruct p as [|[] p]; simpl; rewrite ?Free_region; eauto 10.
Qed.

Lemma Free_tile p n s u :
  RectPack.tile_at p n = Some (s, u) ->
  RectPack.tile_at p (RectPack.Free p n) = Some (s, false).
Proof.
  revert p. induction n as [r u'|r l IHl rr IHr]; intros p Hp.
  - destruct p as [|[] p]; simpl in *; [|done|done]. by simplify_eq.
  - destruct p as [|[] p]; simpl in *; [done|eauto..].
Qed.

Lemma Free_other p q n :
  p <> q -> RectPack.tile_at q (RectPack.Free p n) = RectPack.tile_at q n.
Proof.
  revert p q. induction n as [r u|r l IHl rr IHr]; intros p q Hne.
  - destruct p as [|[] p]; simpl; [|done|done]. by destruct q as [|[] q].
  - destruct p as [|[] p], q as [|[] q]; simpl; try done.
    + apply IHl. congruence.
    + apply IHr. congruence.
Qed.

Lemma Free_used p q n s :
  RectPack.tile_at q (RectPack.Free p n) = Some (s, true) ->
  RectPack.tile_at q n = Some (s, true) /\ q <> p.
Proof.
  intros Hq. destruct (decide (p = q)) as [->|Hne].
  - destruct (RectPack.tile_at q n) as [[s' u]|] eqn:E.
    + rewrite (Free_tile _ _ _ _ E) in Hq. done.
    + exfalso. revert q E Hq. clear.
      induction n as [r u|r l IHl rr IHr]; intros q E Hq.
      * destruct q as [|[] q]; simpl in *; congruence.
      * destruct q as [|[] q]; simpl in *; [done|eauto..].
  - rewrite Free_other in Hq by done. split; [done|congruence].
Qed.

Lemma tile_inside n p s u :
  RectPack.wf n -> RectPack.tile_at p n = Some (s, u) ->
  inside s (RectPack.region n).
Proof.
  revert p. induction n as [r u'|r l IHl rr IHr]; intros p Hwf Hp.
  - destruct p as [|[] p]; simpl in *; [|done|done]. simplify_eq.
    apply inside_refl.
  - destruct Hwf as (Hil & Hir & Hsep & Hwl & Hwr).
    destruct p as [|[] p]; simpl in *; [done| |];
      eauto using inside_trans.
Qed.

Lemma tiles_separated n p q s1 u1 s2 u2 :
  RectPack.wf n -> p <> q ->
  RectPack.tile_at p n = Some (s1, u1) ->
  RectPack.tile_at q n = Some (s2, u2) ->
  separated s1 s2.
Proof.
  revert p q. induction n as [r u'|r l IHl rr IHr]; intros p q Hwf Hne Hp Hq.
  - destruct p as [|[] p], q as [|[] q]; simpl in *; done.
  - destruct Hwf as (Hil & Hir & Hsep & Hwl & Hwr).
    destruct p as [|[] p], q as [|[] q]; simpl in *; try done.
    + apply (IHl p q); [done|congruence|done|done].
    + eapply separated_inside; eauto using tile_inside.
    + assert (separated s2 s1) as Hs
        by (eapply separated_inside; eauto using tile_inside).
      unfold separated in *. lia.
    + apply (IHr p q); [done|congruence|done|done].
Qed.

Lemma Free_list_region ps n :
  RectPack.region (foldr RectPack.Free n ps) = RectPack.region n.
Proof. induction ps as [|p ps IH]; simpl; [done|]. by rewrite Free_region. Qed.

Lemma Free_list_wf ps n :
  RectPack.wf n -> RectPack.wf (foldr RectPack.Free n ps).
Proof. induction ps; simpl; auto using Free_wf. Qed.

Lemma Free_list_other ps q n :
  q ∉ ps ->
  RectPack.tile_at q (foldr RectPack.Free n ps) = RectPack.tile_at q n.
Proof.
  induction ps as [|p ps IH]; simpl; [done|].
  intros Hq. apply not_elem_of_cons in Hq as [? ?].
  rewrite Free_other by done. auto.
Qed.

Lemma Free_list_tile ps q n s u :
  q ∈ ps -> RectPack.tile_at q n = Some (s, u) ->
  RectPack.tile_at q (foldr RectPack.Free n ps) = Some (s, false).
Proof.
  induction ps as [|p ps IH]; simpl; [by intros ?%elem_of_nil|].
  intros Hq Hn. destruct (decide (p = q)) as [->|Hne].
  - destruct (decide (q ∈ ps)).
    + eapply Free_tile. eauto.
    + eapply Free_tile. rewrite Free_list_other; eauto.
  - rewrite Free_other by done. apply elem_of_cons in Hq as [?|?]; [done|].
    auto.
Qed.

(** ** Reading and writing tile slots *)

Lemma object_tile_Some d key i p :
  object_tile d key i = Some p <->
  exists o, Objects d !! key = Some o /\ Tiles o !! i = Some (Some p).
Proof.
  unfold object_tile. split.
  - destruct (Objects d !! key) as [o|]; [|done].
    destruct (Tiles o !! i) as [[q|]|] eqn:E; simpl; try done.
    intros [= ->]. eauto.
  - intros (o & -> & ->). done.
Qed.

Lemma object_tile_set_tile_ne d key i v k j :
  (k, j) <> (key, i) ->
  object_tile (set_tile key i v d) k j = object_tile d k j.
Proof.
  intros Hne. unfold object_tile, set_tile. simpl.
  destruct (decide (k = key)) as [->|Hk].
  - rewrite lookup_alter_eq. destruct (Objects d !! key) as [o|]; simpl; [|done].
    rewrite list_lookup_insert_ne; [done|congruence].
  - by rewrite lookup_alter_ne.
Qed.

Lemma object_tile_set_tile_None d key i :
  object_tile (set_tile key i None d) key i = None.
Proof.
  unfold object_tile, set_tile. simpl. rewrite lookup_alter_eq.
  destruct (Objects d !! key) as [o|]; simpl; [|done].
  destruct (decide (i < length (Tiles o))%nat).
  - by rewrite list_lookup_insert_eq.
  - rewrite list_insert_ge by lia. by rewrite lookup_ge_None_2 by lia.
Qed.

Lemma object_tile_OnInsert_ne d key i q k j :
  (k, j) <> (key, i) ->
  object_tile (OnInsert key i q d) k j = object_tile d k j.
Proof.
  intros Hne. unfold object_tile, OnInsert. simpl.
  destruct (decide (k = key)) as [->|Hk].
  - rewrite lookup_insert_eq. simpl.
    rewrite list_lookup_insert_ne by congruence.
    destruct (Objects d !! key) as [o|]; simpl; [done|].
    by do 7 (destruct j as [|j]; simpl; [done|]).
  - by rewrite lookup_insert_ne.
Qed.

Lemma object_tile_OnInsert_eq d key i q :
  (forall o, Objects d !! key = Some o -> length (Tiles o) = 6%nat) ->
  (i < 6)%nat ->
  object_tile (OnInsert key i q d) key i = Some q.
Proof.
  intros Hlen Hi. unfold object_tile, OnInsert. simpl.
  rewrite lookup_insert_eq. simpl. rewrite list_lookup_insert_eq; [done|].
  destruct (Objects d !! key) as [o|] eqn:E; simpl.
  - rewrite (Hlen _ eq_refl). done.
  - done.
Qed.

(** ** Tile resolution *)

Lemma Clamp_bounds v lo hi : lo <= hi -> lo <= Math.Clamp v lo hi <= hi.
Proof. intros. unfold Math.Clamp. repeat case_match; zbool; lia. Qed.

Lemma AlignDown_spec v a :
  0 < a ->
  Math.AlignDown v a mod a = 0 /\
  Math.AlignDown v a <= v < Math.AlignDown v a + a.
Proof.
  intros Ha. unfold Math.AlignDown. split.
  - apply Z.mod_mul. lia.
  - pose proof (Z.div_mod v a ltac:(lia)).
    pose proof (Z.mod_pos_bound v a Ha). lia.
Qed.

Lemma snap_resolution_bounds t :
  8 <= snap_resolution t <= 192 /\ snap_resolution t mod 8 = 0.
Proof.
  unfold snap_resolution, GLOBAL_SURFACE_ATLAS_TILE_SIZE_MIN,
    GLOBAL_SURFACE_ATLAS_TILE_SIZE_MAX.
  pose proof (Clamp_bounds t 8 192 ltac:(lia)) as Hc.
  set (v := Math.Clamp t 8 192) in *.
  destruct (AlignDown_spec v 8 ltac:(lia)) as [Hm Hb].
  split; [|done]. split; [|lia].
  unfold Math.AlignDown in *.
  assert (1 <= v / 8) by (apply Z.div_le_lower_bound; lia). lia.
Qed.

(** ** The cache stays consistent with the packer *)

Definition only_slot (key : Z) (i : nat) : Z * nat -> Prop :=
  fun s => s = (key, i).

Lemma consistent_weaken skip d :
  atlas_inv d -> atlas_consistent skip d.
Proof.
  intros [Hwf Hown Hlen Hres]. split; try done.
  intros key i p _ Hp. destruct (Hown key i p) as [Hu Hd]; [by intros []|done|].
  split; [done|]. intros key' i' _ Hp'. apply Hd; [by intros []|done].
Qed.

Lemma free_tile_consistent d key i tile :
  atlas_inv d -> object_tile d key i = Some tile ->
  atlas_consistent (only_slot key i) (free_tile tile d).
Proof.
  intros [Hwf Hown Hlen Hres] Htile. split; simpl; try done.
  - intros root Hroot. destruct (AtlasTiles d) as [root0|] eqn:E; [|done].
    simpl in Hroot. injection Hroot as <-.
    destruct (Hwf _ eq_refl) as [? ?].
    rewrite Free_region. auto using Free_wf.
  - intros k j p Hskip Hp. change (object_tile d k j = Some p) in Hp.
    destruct (Hown k j p) as [(root & s & Hroot & Hs) Hd]; [by intros []|done|].
    split.
    + exists (RectPack.Free tile root), s. simpl. rewrite Hroot. split; [done|].
      rewrite Free_other; [done|]. intros ->.
      destruct (Hd key i) as [-> ->]; [by intros []|done|]. by apply Hskip.
    + intros k' j' _ Hp'. apply Hd; [by intros []|done].
Qed.

Lemma set_tile_None_inv d key i :
  atlas_consistent (only_slot key i) d ->
  atlas_inv (set_tile key i None d).
Proof.
  intros [Hwf Hown Hlen Hres]. split; simpl; try done.
  - intros k j p _ Hp.
    assert ((k, j) <> (key, i)) as Hne.
    { intros [= -> ->]. by rewrite object_tile_set_tile_None in Hp. }
    rewrite object_tile_set_tile_ne in Hp by done.
    destruct (Hown k j p Hne Hp) as [Hu Hd]. split; [done|].
    intros k' j' _ Hp'.
    assert ((k', j') <> (key, i)) as Hne'.
    { intros [= -> ->]. by rewrite object_tile_set_tile_None in Hp'. }
    rewrite object_tile_set_tile_ne in Hp' by done. by apply Hd.
  - intros k o. destruct (decide (k = key)) as [->|Hk].
    + rewrite lookup_alter_eq. destruct (Objects d !! key) as [o'|] eqn:E; [|done].
      intros [= <-]. simpl. rewrite length_insert. eauto.
    + rewrite lookup_alter_ne by done. eauto.
Qed.

Lemma insert_face_inv c i res d a b :
  atlas_consistent (only_slot (actorObject c) i) d ->
  is_Some (AtlasTiles d) -> (i < 6)%nat -> 0 <= res ->
  atlas_inv (loop_data (insert_face c i res (mkLoop d a b))) /\
  is_Some (AtlasTiles (loop_data (insert_face c i res (mkLoop d a b)))).
Proof.
  intros Hc [root Hroot] Hi Hres. unfold insert_face. simpl. rewrite Hroot.
  destruct (RectPack.Insert root res res 0) as [[q root']|] eqn:Eins; simpl.
  - split; [|eauto]. destruct Hc as [Hwf Hown Hlen Hrpos].
    split; simpl; try done.
    + intros ? [= <-]. destruct (Hwf _ Hroot) as [? ?].
      rewrite (Insert_region _ _ _ _ _ _ Eins).
      split; [|done]. eapply Insert_wf; eauto; lia.
    + assert (forall k j p, (k, j) <> (actorObject c, i) ->
                object_tile d k j = Some p ->
                RectPack.tile_at p root' = Some
                  (default (mkRect 0 0 0 0)
                     (fst <$> RectPack.tile_at p root), true) /\ p <> q) as Hold.
      { intros k j p Hne Hp.
        destruct (Hown k j p Hne Hp) as [(root0 & s & Hr0 & Hs) _].
        rewrite Hroot in Hr0. injection Hr0 as <-. rewrite Hs. simpl.
        eapply Insert_keeps_used; eauto. }
      intros k j p _ Hp. destruct (decide ((k, j) = (actorObject c, i))) as [[= -> ->]|Hne].
      * rewrite object_tile_OnInsert_eq in Hp by (simpl; eauto).
        injection Hp as <-.
        split.
        { destruct (Insert_tile _ _ _ _ _ _ Eins) as (x & y & Hq). eauto. }
        intros k' j' _ Hp'.
        destruct (decide ((k', j') = (actorObject c, i))) as [[= -> ->]|Hne']; [done|].
        rewrite object_tile_OnInsert_ne in Hp' by done.
        destruct (Hold _ _ _ Hne' Hp') as [_ ?]. done.
      * rewrite object_tile_OnInsert_ne in Hp by done.
        change (object_tile d k j = Some p) in Hp.
        destruct (Hold _ _ _ Hne Hp) as [Hu Hq]. split; [eauto|].
        intros k' j' _ Hp'.
        destruct (decide ((k', j') = (actorObject c, i))) as [[= -> ->]|Hne'].
        { rewrite object_tile_OnInsert_eq in Hp' by (simpl; eauto).
          congruence. }
        rewrite object_tile_OnInsert_ne in Hp' by done.
        destruct (Hown k j p Hne Hp) as [_ Hd]. by apply Hd.
    + intros k o. destruct (decide (k = actorObject c)) as [->|Hk].
      * rewrite lookup_insert_eq. intros [= <-]. simpl. rewrite length_insert.
        destruct (Objects d !! actorObject c) as [o'|] eqn:E; simpl; eauto.
      * rewrite lookup_insert_ne by done. eauto.
  - split; [|by rewrite Hroot].
    apply (set_tile_None_inv d (actorObject c) i) in Hc.
    destruct Hc as [Hwf Hown Hlen Hrpos]. split; done.
Qed.

Lemma atlas_inv_ext d d' :
  AtlasTiles d' = AtlasTiles d -> Resolution d' = Resolution d ->
  (forall k j, object_tile d' k j = object_tile d k j) ->
  (forall k o, Objects d' !! k = Some o -> length (Tiles o) = 6%nat) ->
  atlas_inv d -> atlas_inv d'.
Proof.
  intros Ht Hr Ho Hl [Hwf Hown Hlen Hres]. split; try done.
  - rewrite Ht, Hr. done.
  - intros k j p _ Hp. rewrite Ho in Hp.
    destruct (Hown k j p) as [Hu Hd]; [by intros []|done|].
    rewrite Ht. split; [done|]. intros k' j' _ Hp'. rewrite Ho in Hp'.
    apply Hd; [by intros []|done].
  - by rewrite Hr.
Qed.

Lemma atlas_inv_same d d' :
  AtlasTiles d' = AtlasTiles d -> Resolution d' = Resolution d ->
  Objects d' = Objects d -> atlas_inv d -> atlas_inv d'.
Proof.
  intros Ht Hr Ho Hinv. apply (atlas_inv_ext d); try done.
  - intros k j. unfold object_tile. by rewrite Ho.
  - rewrite Ho. apply Hinv.
Qed.

Lemma RasterizeActor_face_inv c st i :
  atlas_inv (loop_data st) -> is_Some (AtlasTiles (loop_data st)) ->
  (i < 6)%nat ->
  atlas_inv (loop_data (RasterizeActor_face c st i)) /\
  is_Some (AtlasTiles (loop_data (RasterizeActor_face c st i))).
Proof.
  intros Hinv Hroot Hi. destruct st as [d a b]. simpl in *.
  unfold RasterizeActor_face. simpl.
  destruct (negb (Z.testbit (tilesMask c) (Z.of_nat i))); [done|].
  destruct (face_resolution c i <? 4).
  - destruct (object_tile d (actorObject c) i) as [tile|] eqn:Etile; [|done].
    simpl. split.
    + eapply set_tile_None_inv, free_tile_consistent; eauto.
    + destruct Hroot as [root Hr]. simpl. rewrite Hr. simpl. eauto.
  - pose proof (snap_resolution_bounds (face_resolution c i)) as [Hb _].
    destruct (object_tile d (actorObject c) i) as [tile|] eqn:Etile.
    + case_match; [done|].
      apply insert_face_inv;
        [|destruct Hroot as [root Hr]; simpl; rewrite Hr; simpl; eauto
         |done|lia].
      eapply free_tile_consistent; eauto.
    + apply insert_face_inv; [|done|done|lia].
      by apply consistent_weaken.
Qed.

Lemma foldl_faces_inv c (P : FaceLoop -> Prop) faces st :
  Forall (fun i => (i < 6)%nat) faces ->
  (forall st i, (i < 6)%nat -> P st -> P (RasterizeActor_face c st i)) ->
  P st -> P (foldl (RasterizeActor_face c) st faces).
Proof.
  intros Hf Hstep. revert st.
  induction Hf as [|i faces Hi Hf IH]; simpl; intros st Hst; [done|].
  apply IH. by apply Hstep.
Qed.

Lemma faces_in_range : Forall (fun i => (i < 6)%nat) (seq 0 6).
Proof. repeat constructor. Qed.

Lemma RasterizeActor_faces_inv c d :
  atlas_inv d -> is_Some (AtlasTiles d) ->
  atlas_inv (loop_data (RasterizeActor_faces c d)) /\
  is_Some (AtlasTiles (loop_data (RasterizeActor_faces c d))).
Proof.
  intros Hinv Hroot. unfold RasterizeActor_faces.
  apply (foldl_faces_inv c (fun st =>
    atlas_inv (loop_data st) /\ is_Some (AtlasTiles (loop_data st))));
    [apply faces_in_range| |done].
  intros st i Hi [? ?]. by apply RasterizeActor_face_inv.
Qed.

Lemma object_tile_mark d key o o' k j :
  Objects d !! key = Some o -> Tiles o' = Tiles o ->
  object_tile (set_Objects (<[key := o']>) d) k j = object_tile d k j.
Proof.
  intros Ho Ht. unfold object_tile. simpl.
  destruct (decide (k = key)) as [->|Hk].
  - rewrite lookup_insert_eq, Ho, Ht. done.
  - by rewrite lookup_insert_ne.
Qed.

Lemma RasterizeActor_mark_inv c st pass :
  atlas_inv (loop_data st) ->
  atlas_inv (surfaceAtlasData (RasterizeActor_mark c st pass)) /\
  AtlasTiles (surfaceAtlasData (RasterizeActor_mark c st pass))
  = AtlasTiles (loop_data st).
Proof.
  intros Hinv. unfold RasterizeActor_mark.
  destruct (negb (anyTile st)); [done|].
  destruct (Objects (loop_data st) !! actorObject c) as [o|] eqn:Eo; [|done].
  simpl. split; [|done].
  apply (atlas_inv_ext (loop_data st)); [done|done| | |exact Hinv].
  - intros k j. by eapply object_tile_mark.
  - intros k o'. simpl. destruct (decide (k = actorObject c)) as [->|Hk].
    + rewrite lookup_insert_eq. intros [= <-]. simpl.
      by eapply atlas_slots.
    + rewrite lookup_insert_ne by done. by eapply atlas_slots.
Qed.

Lemma RasterizeActor_inv c pass :
  atlas_inv (surfaceAtlasData pass) ->
  is_Some (AtlasTiles (surfaceAtlasData pass)) ->
  atlas_inv (surfaceAtlasData (RasterizeActor c pass)) /\
  is_Some (AtlasTiles (surfaceAtlasData (RasterizeActor c pass))).
Proof.
  intros Hinv Hroot.
  destruct (RasterizeActor_faces_inv c _ Hinv Hroot) as [Hinv' Hroot'].
  unfold RasterizeActor.
  destruct (RasterizeActor_mark_inv c _ pass Hinv') as [? ->]. done.
Qed.

Lemma draw_calls_inv calls pass :
  atlas_inv (surfaceAtlasData pass) ->
  is_Some (AtlasTiles (surfaceAtlasData pass)) ->
  atlas_inv (surfaceAtlasData (foldl (fun p c => RasterizeActor c p) pass calls)) /\
  is_Some (AtlasTiles
    (surfaceAtlasData (foldl (fun p c => RasterizeActor c p) pass calls))).
Proof.
  revert pass. induction calls as [|c calls IH]; simpl; intros pass Hinv Hroot;
    [done|].
  destruct (RasterizeActor_inv c pass Hinv Hroot). by apply IH.
Qed.

(** ** The removal pass *)

Lemma elem_of_unused_tiles F d p :
  p ∈ unused_tiles F d <->
  exists k o i, Objects d !! k = Some o /\ LastFrameUsed o <> F /\
                Tiles o !! i = Some (Some p).
Proof.
  unfold unused_tiles, object_tiles. rewrite list_elem_of_bind. split.
  - intros ([k o] & Hp & Hko). apply elem_of_map_to_list in Hko.
    apply map_lookup_filter_Some in Hko as [Ho Hf]. simpl in *.
    apply list_elem_of_omap in Hp as (x & Hx & Hxp). simpl in Hxp. subst x.
    apply list_elem_of_lookup in Hx as [i Hi]. eauto 10.
  - intros (k & o & i & Ho & Hf & Hi). exists (k, o). split.
    + apply list_elem_of_omap. exists (Some p). split; [|done].
      apply list_elem_of_lookup. eauto.
    + apply elem_of_map_to_list, map_lookup_filter_Some. done.
Qed.

Lemma object_tile_remove_unused F d k j p :
  object_tile (remove_unused F d) k j = Some p <->
  exists o, Objects d !! k = Some o /\ LastFrameUsed o = F /\
            Tiles o !! j = Some (Some p).
Proof.
  rewrite object_tile_Some. unfold remove_unused. simpl. split.
  - intros (o & Ho & Hj). apply map_lookup_filter_Some in Ho as [Ho Hf]. eauto.
  - intros (o & Ho & Hf & Hj). exists o. split; [|done].
    by apply map_lookup_filter_Some.
Qed.

Lemma remove_unused_inv F d : atlas_inv d -> atlas_inv (remove_unused F d).
Proof.
  intros [Hwf Hown Hlen Hres]. split; simpl; try done.
  - intros root Hroot. destruct (AtlasTiles d) as [root0|] eqn:E; [|done].
    simpl in Hroot. injection Hroot as <-. destruct (Hwf _ eq_refl).
    rewrite Free_list_region. auto using Free_list_wf.
  - intros k j p _ Hp. apply object_tile_remove_unused in Hp as (o & Ho & Hf & Hj).
    assert (object_tile d k j = Some p) as Hp by (apply object_tile_Some; eauto).
    destruct (Hown k j p) as [(root & s & Hroot & Hs) Hd]; [by intros []|done|].
    split.
    + exists (foldr RectPack.Free root (unused_tiles F d)), s.
      simpl. rewrite Hroot. split; [done|].
      rewrite Free_list_other; [done|].
      intros (k' & o' & i' & Ho' & Hf' & Hi')%elem_of_unused_tiles.
      destruct (Hd k' i') as [-> ->]; [by intros []| |congruence].
      apply object_tile_Some. eauto.
    + intros k' j' _ Hp'.
      apply object_tile_remove_unused in Hp' as (o' & Ho' & Hf' & Hj').
      apply Hd; [by intros []|]. apply object_tile_Some. eauto.
  - intros k o Ho. apply map_lookup_filter_Some in Ho as [Ho _]. eauto.
Qed.

(** ** The frame update keeps the cache consistent *)

Lemma ClearObjects_inv F d : 0 <= Resolution d -> atlas_inv (ClearObjects F d).
Proof.
  intros Hres. split; simpl; done.
Qed.

Lemma new_pass_inv slots : atlas_inv (surfaceAtlasData (new_pass slots)).
Proof.
  split; simpl; done.
Qed.

Lemma ensure_atlas_inv res d :
  atlas_inv d -> Resolution d = res ->
  atlas_inv (ensure_atlas res d) /\ is_Some (AtlasTiles (ensure_atlas res d)).
Proof.
  intros Hinv Hres. unfold ensure_atlas.
  destruct (AtlasTiles d) as [root|] eqn:E.
  - rewrite E. eauto.
  - simpl. split; [|eauto]. destruct Hinv as [Hwf Hown Hlen Hrpos].
    split; simpl; try done.
    + intros ? [= <-]. by rewrite Hres.
    + intros k j p Hs Hp. destruct (Hown k j p Hs Hp) as [(? & ? & ? & _) _].
      congruence.
Qed.

Section RenderFacts.

Variable GPU_MAX_TEXTURE_SIZE : Z.
Variable GPU_ASYNC_LATENCY : Z.
Hypothesis max_texture_size : 256 <= GPU_MAX_TEXTURE_SIZE.

Lemma atlas_resolution_min inp :
  256 <= atlas_resolution GPU_MAX_TEXTURE_SIZE inp.
Proof. apply Clamp_bounds. done. Qed.

Lemma init_buffers_inv inp d :
  atlas_inv d ->
  atlas_inv (init_buffers GPU_MAX_TEXTURE_SIZE inp d).1 /\
  ((init_buffers GPU_MAX_TEXTURE_SIZE inp d).2 = false ->
   Resolution (init_buffers GPU_MAX_TEXTURE_SIZE inp d).1
   = atlas_resolution GPU_MAX_TEXTURE_SIZE inp).
Proof.
  intros Hinv. pose proof (atlas_resolution_min inp) as Hmin.
  assert (0 <= Resolution d) as Hres by apply Hinv.
  unfold init_buffers.
  destruct (Resolution d =? _) eqn:Eres; simpl.
  - zbool. split; [|by intros _; case_match].
    case_match; [|done]. by apply ClearObjects_inv.
  - assert (atlas_inv (set_Resolution (atlas_resolution GPU_MAX_TEXTURE_SIZE inp)
                         (Clear (FrameCount inp) d))) as Hnew.
    { split; simpl; try done. lia. }
    destruct (atlasTexturesFailed inp); simpl.
    + split; [|done]. by apply ClearObjects_inv.
    + destruct (ChunksBuffer d); simpl; [done|]. split; [|done].
      revert Hnew. apply atlas_inv_same; done.
Qed.

Lemma draw_atlas_inv inp pass :
  atlas_inv (surfaceAtlasData pass) ->
  atlas_inv (surfaceAtlasData (draw_atlas GPU_MAX_TEXTURE_SIZE inp pass).1) /\
  ((draw_atlas GPU_MAX_TEXTURE_SIZE inp pass).2 = false ->
   is_Some (AtlasTiles
     (surfaceAtlasData (draw_atlas GPU_MAX_TEXTURE_SIZE inp pass).1))).
Proof.
  intros Hinv. unfold draw_atlas.
  set (d0 := set_CustomBuffer_LastFrameUsed (FrameCount inp) (surfaceAtlasData pass)).
  assert (atlas_inv d0) as Hinv0 by (revert Hinv; apply atlas_inv_same; done).
  destruct (init_buffers_inv inp d0 Hinv0) as [Hinv1 Hres1].
  destruct (init_buffers GPU_MAX_TEXTURE_SIZE inp d0) as [d1 failed]. simpl in *.
  destruct failed; simpl; [done|].
  destruct (ensure_atlas_inv _ d1 Hinv1 (Hres1 eq_refl)) as [Hinv2 Hroot2].
  unfold draw_objects. simpl.
  set (d3 := set_CurrentFrame (FrameCount inp)
               (ensure_atlas (atlas_resolution GPU_MAX_TEXTURE_SIZE inp) d1)).
  assert (atlas_inv d3) as Hinv3 by (revert Hinv2; apply atlas_inv_same; done).
  destruct (draw_calls_inv (drawn inp)
              (mkPass d3 [] (culledObjectsSizeBuffer pass)
                 (culledObjectsSizeFrames pass)) Hinv3 Hroot2).
  done.
Qed.

Lemma update_atlas_inv inp pass :
  atlas_inv (surfaceAtlasData pass) ->
  atlas_inv (surfaceAtlasData (update_atlas GPU_MAX_TEXTURE_SIZE inp pass).1).
Proof.
  intros Hinv. unfold update_atlas.
  destruct (draw_atlas_inv inp pass Hinv) as [Hinv1 _].
  destruct (draw_atlas GPU_MAX_TEXTURE_SIZE inp pass) as [pass1 failed].
  destruct failed; simpl in *; [done|]. by apply remove_unused_inv.
Qed.

Lemma readback_cache inp capacity pass :
  let d' := surfaceAtlasData
              (culled_pass (readback GPU_ASYNC_LATENCY inp capacity pass)) in
  AtlasTiles d' = AtlasTiles (surfaceAtlasData pass) /\
  Resolution d' = Resolution (surfaceAtlasData pass) /\
  Objects d' = Objects (surfaceAtlasData pass) /\
  CulledObjectsBuffer d' = CulledObjectsBuffer (surfaceAtlasData pass).
Proof.
  unfold readback. repeat case_match; simpl; done.
Qed.

Lemma cull_objects_cache inp pass :
  let d' := surfaceAtlasData (culled_pass (cull_objects GPU_ASYNC_LATENCY inp pass)) in
  AtlasTiles d' = AtlasTiles (surfaceAtlasData pass) /\
  Resolution d' = Resolution (surfaceAtlasData pass) /\
  Objects d' = Objects (surfaceAtlasData pass).
Proof.
  unfold cull_objects. case_match; [done|].
  set (r := if ChunksBuffer (surfaceAtlasData pass) then _ else _).
  assert (AtlasTiles (surfaceAtlasData (culled_pass r))
            = AtlasTiles (surfaceAtlasData pass) /\
          Resolution (surfaceAtlasData (culled_pass r))
            = Resolution (surfaceAtlasData pass) /\
          Objects (surfaceAtlasData (culled_pass r))
            = Objects (surfaceAtlasData pass)) as Hr.
  { subst r. destruct (ChunksBuffer (surfaceAtlasData pass)); [|done].
    pose proof (readback_cache inp (estimatedCapacity inp) pass). simpl in *.
    tauto. }
  destruct (culled_failed r); [done|].
  unfold allocate_culled. repeat case_match; simplify_eq; simpl; done.
Qed.

Lemma Render_inv inp pass :
  atlas_inv (surfaceAtlasData pass) ->
  atlas_inv (surfaceAtlasData
    (Render GPU_MAX_TEXTURE_SIZE GPU_ASYNC_LATENCY inp pass).1).
Proof.
  intros Hinv. unfold Render.
  destruct (passSkipped inp); [done|].
  destruct (_ =? _); [done|].
  pose proof (update_atlas_inv inp pass Hinv) as Hinv1.
  destruct (update_atlas GPU_MAX_TEXTURE_SIZE inp pass) as [pass1 failed].
  destruct failed; simpl in *; [done|].
  destruct (cull_objects_cache inp pass1) as (Ht & Hr & Ho).
  revert Hinv1. by apply atlas_inv_same.
Qed.

Lemma run_inv inputs pass :
  atlas_inv (surfaceAtlasData pass) ->
  atlas_inv (surfaceAtlasData
    (run GPU_MAX_TEXTURE_SIZE GPU_ASYNC_LATENCY inputs pass)).
Proof.
  revert pass. induction inputs as [|inp inputs IH]; simpl; intros pass Hinv;
    [done|].
  apply IH. by apply Render_inv.
Qed.

End RenderFacts.

(** ** Claims *)

Lemma atlas_inv_packing_valid d : atlas_inv d -> packing_valid d.
Proof.
  intros [Hwf Hown Hlen Hres] k1 i1 p1 k2 i2 p2 H1 H2.
  destruct (Hown k1 i1 p1) as [(root & r1 & Hroot & Hr1) Hd];
    [by intros []|done|].
  destruct (Hown k2 i2 p2) as [(root' & r2 & Hroot' & Hr2) _];
    [by intros []|done|].
  rewrite Hroot in Hroot'. injection Hroot' as <-.
  destruct (Hwf _ Hroot) as [Hw Hreg].
  assert (forall p r u, RectPack.tile_at p root = Some (r, u) ->
            in_atlas (Resolution d) r) as Hin.
  { intros p r u Hp. pose proof (tile_inside _ _ _ _ Hw Hp) as Hi.
    rewrite Hreg in Hi. unfold inside, in_atlas in *. simpl in *.
    pose proof (Z.mod_le (Resolution d) (2 ^ 16) Hres ltac:(lia)).
    unfold wrap16 in *. lia. }
  exists r1, r2. unfold tile_rect. rewrite Hroot, Hr1, Hr2. simpl.
  split; [done|]. split; [done|].
  split; [by eapply Hin|]. split; [by eapply Hin|].
  intros Hne. apply separated_no_overlap.
  eapply (tiles_separated root p1 p2); eauto.
  intros ->. destruct (Hd k2 i2) as [-> ->]; [by intros []|done|done].
Qed.

(** C1: after any sequence of frames, and at any point while the objects
    of a further frame are being added, every tile held by the cache lies
    within the atlas [[0, Resolution]] on both axes and the tiles of two
    different slots do not overlap. *)
Theorem packing_validity GPU_MAX_TEXTURE_SIZE GPU_ASYNC_LATENCY slots
    (inputs : list RenderInput) (inp : RenderInput) :
  256 <= GPU_MAX_TEXTURE_SIZE ->
  let pass :=
    run GPU_MAX_TEXTURE_SIZE GPU_ASYNC_LATENCY inputs (new_pass slots) in
  packing_valid (surfaceAtlasData pass) /\
  packing_valid
    (surfaceAtlasData (draw_atlas GPU_MAX_TEXTURE_SIZE inp pass).1).
Proof.
  intros Hmax pass.
  assert (atlas_inv (surfaceAtlasData pass)) as Hinv
    by (apply run_inv; [done|apply new_pass_inv]).
  split; apply atlas_inv_packing_valid; [done|].
  by apply draw_atlas_inv.
Qed.

Lemma packing_validity_witness :
  let d := surfaceAtlasData (run 8192 2 [frame 1 [crate; wall]] (new_pass 4)) in
  object_tile d 100 0 = Some [GoLeft; GoLeft] /\
  object_tile d 200 0 = Some [GoRight; GoRight] /\
  overlaps (mkRect 0 0 64 64) (mkRect 64 64 192 192) = false /\
  in_atlas 256 (mkRect 64 64 192 192).
Proof.
  intros d.
  assert (object_tile d 100 0 = Some [GoLeft; GoLeft]) as H1
    by (vm_compute; reflexivity).
  assert (object_tile d 200 0 = Some [GoRight; GoRight]) as H2
    by (vm_compute; reflexivity).
  destruct (packing_validity 8192 2 4 [frame 1 [crate; wall]] (frame 2 [])
              ltac:(lia)) as [Hvalid _].
  destruct (Hvalid 100 0%nat _ 200 0%nat _ H1 H2)
    as (r1 & r2 & Hr1 & Hr2 & _ & Hin & Hsep).
  vm_compute in Hr1. injection Hr1 as <-.
  vm_compute in Hr2. injection Hr2 as <-.
  split; [exact H1|]. split; [exact H2|].
  split; [apply Hsep; congruence|exact Hin].
Defined.

(** *** Defragmentation *)

Lemma RasterizeActor_keeps_defragmentation c pass :
  LastFrameAtlasDefragmentation (surfaceAtlasData (RasterizeActor c pass))
  = LastFrameAtlasDefragmentation (surfaceAtlasData pass).
Proof.
  unfold RasterizeActor.
  assert (LastFrameAtlasDefragmentation
            (loop_data (RasterizeActor_faces c (surfaceAtlasData pass)))
          = LastFrameAtlasDefragmentation (surfaceAtlasData pass)) as Hf.
  { unfold RasterizeActor_faces.
    apply (foldl_faces_inv c (fun st =>
      LastFrameAtlasDefragmentation (loop_data st)
      = LastFrameAtlasDefragmentation (surfaceAtlasData pass)));
      [apply faces_in_range| |done].
    intros [d a b] i _ Hst. simpl in *.
    unfold RasterizeActor_face, insert_face. simpl.
    repeat case_match; simpl; done. }
  revert Hf. generalize (RasterizeActor_faces c (surfaceAtlasData pass)).
  intros st Hst. unfold RasterizeActor_mark. repeat case_match; simpl; done.
Qed.

Lemma draw_calls_keep_defragmentation calls pass :
  LastFrameAtlasDefragmentation
    (surfaceAtlasData (foldl (fun p c => RasterizeActor c p) pass calls))
  = LastFrameAtlasDefragmentation (surfaceAtlasData pass).
Proof.
  revert pass. induction calls as [|c calls IH]; simpl; intros pass; [done|].
  by rewrite IH, RasterizeActor_keeps_defragmentation.
Qed.

Lemma cull_objects_keeps_defragmentation LAT inp pass :
  LastFrameAtlasDefragmentation
    (surfaceAtlasData (culled_pass (cull_objects LAT inp pass)))
  = LastFrameAtlasDefragmentation (surfaceAtlasData pass).
Proof.
  unfold cull_objects, allocate_culled, readback.
  repeat (case_match; simpl; simplify_eq; try done).
Qed.

Lemma Render_defragmentation_frame MAX LAT inp pass v :
  passSkipped inp = false ->
  CustomBuffer_LastFrameUsed (surfaceAtlasData pass) <> FrameCount inp ->
  LastFrameAtlasDefragmentation
    (init_buffers MAX inp
       (set_CustomBuffer_LastFrameUsed (FrameCount inp)
          (surfaceAtlasData pass))).1 = v ->
  LastFrameAtlasDefragmentation (surfaceAtlasData (Render MAX LAT inp pass).1)
  = v.
Proof.
  intros Hskip Hframe Hv. unfold Render. rewrite Hskip.
  destruct (_ =? _) eqn:E; [zbool; done|].
  unfold update_atlas, draw_atlas.
  destruct (init_buffers MAX inp _) as [d1 failed]. simpl in Hv.
  destruct failed; simpl; [done|].
  rewrite cull_objects_keeps_defragmentation. simpl.
  unfold draw_objects. rewrite draw_calls_keep_defragmentation. simpl.
  unfold ensure_atlas. by case_match.
Qed.

(** C2: when [Render] runs at frame [F] with the atlas resolution unchanged,
    an insertion failure recorded less than 10 frames ago
    ([F - LastFrameAtlasInsertFail < 10]) and the last defragmentation more
    than 60 frames ago, the whole cache and the packer are cleared and [F]
    becomes the frame of the most recent defragmentation: the frame then
    proceeds exactly as from an empty cache.  The same holds when a failure
    was recorded at a frame [F0] with no defragmentation in [[F0 - 60, F0]]
    and [Render] runs at a frame [F] with [F0 < F < F0 + 10]. *)
Theorem defragmentation_trigger GPU_MAX_TEXTURE_SIZE GPU_ASYNC_LATENCY
    (inp : RenderInput) (pass : GlobalSurfaceAtlasPass) :
  let d := surfaceAtlasData pass in
  let F := FrameCount inp in
  let d1 :=
    (init_buffers GPU_MAX_TEXTURE_SIZE inp
       (set_CustomBuffer_LastFrameUsed F d)).1 in
  passSkipped inp = false ->
  CustomBuffer_LastFrameUsed d <> F ->
  (Resolution d = atlas_resolution GPU_MAX_TEXTURE_SIZE inp /\
   sub64 F (LastFrameAtlasInsertFail d) < 10 /\
   60 < sub64 F (LastFrameAtlasDefragmentation d)) \/
  (0 <= LastFrameAtlasDefragmentation d /\
   LastFrameAtlasDefragmentation d + 60 < LastFrameAtlasInsertFail d /\
   LastFrameAtlasInsertFail d < F < LastFrameAtlasInsertFail d + 10 /\
   F < 2 ^ 64) ->
  Objects d1 = ∅ /\ AtlasTiles d1 = None /\
  LastFrameAtlasDefragmentation d1 = F /\
  Render GPU_MAX_TEXTURE_SIZE GPU_ASYNC_LATENCY inp pass
  = Render GPU_MAX_TEXTURE_SIZE GPU_ASYNC_LATENCY inp
      (with_data (ClearObjects F d) pass) /\
  LastFrameAtlasDefragmentation
    (surfaceAtlasData
       (Render GPU_MAX_TEXTURE_SIZE GPU_ASYNC_LATENCY inp pass).1) = F.
Proof.
  intros d F d1 Hskip Hframe Hcond.
  assert (defragmentation_needed F (set_CustomBuffer_LastFrameUsed F d) = true
          \/ Resolution d <> atlas_resolution GPU_MAX_TEXTURE_SIZE inp) as Hwhy.
  { destruct Hcond as [(Hres & Hfail & Hdefrag)|(Hd0 & Hgap & Hnear & Hmax)].
    - left. unfold defragmentation_needed. simpl.
      apply andb_true_iff. split; [by apply Z.ltb_lt|by apply Z.ltb_lt].
    - destruct (decide (Resolution d = atlas_resolution GPU_MAX_TEXTURE_SIZE inp));
        [left|by right].
      unfold defragmentation_needed, sub64, wrap64. simpl.
      rewrite !Z.mod_small by lia.
      apply andb_true_iff. split; apply Z.ltb_lt; lia. }
  assert (init_buffers GPU_MAX_TEXTURE_SIZE inp
            (set_CustomBuffer_LastFrameUsed F d)
          = init_buffers GPU_MAX_TEXTURE_SIZE inp
              (set_CustomBuffer_LastFrameUsed F (ClearObjects F d))
          /\ Objects d1 = ∅ /\ AtlasTiles d1 = None /\
             LastFrameAtlasDefragmentation d1 = F) as (Hinit & Ho & Ht & Hl).
  { subst d1. unfold init_buffers. simpl.
    fold F. destruct (Resolution d =? _) eqn:Eres; simpl.
    - destruct Hwhy as [Hwhy|Hwhy]; [|zbool; done].
      rewrite Hwhy. unfold defragmentation_needed, sub64, wrap64. simpl.
      rewrite Z.sub_diag. simpl. rewrite andb_false_r. done.
    - repeat case_match; repeat split; reflexivity. }
  split; [done|]. split; [done|]. split; [done|]. split.
  - unfold Render. simpl. rewrite Hskip. fold F.
    destruct (_ =? F) eqn:E; [zbool; done|].
    unfold update_atlas, draw_atlas. simpl. fold F.
    rewrite <- Hinit. done.
  - by apply Render_defragmentation_frame.
Qed.

Lemma defragmentation_trigger_witness :
  let pass := run 8192 2 [frame 1 []; frame 100 [hall]] (new_pass 4) in
  LastFrameAtlasInsertFail (surfaceAtlasData pass) = 100 /\
  LastFrameAtlasDefragmentation (surfaceAtlasData pass) = 1 /\
  LastFrameAtlasDefragmentation
    (surfaceAtlasData (Render 8192 2 (frame 101 [hall]) pass).1) = 101.
Proof.
  intros pass.
  split; [vm_compute; reflexivity|]. split; [vm_compute; reflexivity|].
  assert (passSkipped (frame 101 [hall]) = false) as Hskip by reflexivity.
  assert (CustomBuffer_LastFrameUsed (surfaceAtlasData pass)
          <> FrameCount (frame 101 [hall])) as Hframe
    by (vm_compute; discriminate).
  assert (Resolution (surfaceAtlasData pass)
          = atlas_resolution 8192 (frame 101 [hall]) /\
          sub64 101 (LastFrameAtlasInsertFail (surfaceAtlasData pass)) < 10 /\
          60 < sub64 101 (LastFrameAtlasDefragmentation (surfaceAtlasData pass)))
    as Hcond by (vm_compute; repeat split; reflexivity).
  exact (proj2 (proj2 (proj2 (proj2
    (defragmentation_trigger 8192 2 (frame 101 [hall]) pass
       Hskip Hframe (or_introl Hcond)))))).
Defined.

(** *** The removal pass *)

(** C3: at the start of the removal pass of any frame, an entry whose
    [LastFrameUsed] is not the current frame is removed by the pass, each
    of its tiles is a free slot of the packer afterwards, and an insertion
    of any size up to that of the freed rectangle succeeds; an entry whose
    [LastFrameUsed] is the current frame is kept as it is, with its tiles
    still in use. *)
Theorem removal_pass GPU_MAX_TEXTURE_SIZE GPU_ASYNC_LATENCY slots
    (inputs : list RenderInput) (inp : RenderInput) key o :
  256 <= GPU_MAX_TEXTURE_SIZE ->
  let pass :=
    (draw_atlas GPU_MAX_TEXTURE_SIZE inp
       (run GPU_MAX_TEXTURE_SIZE GPU_ASYNC_LATENCY inputs (new_pass slots))).1 in
  let d := surfaceAtlasData pass in
  let F := FrameCount inp in
  let d' := remove_unused F d in
  Objects d !! key = Some o ->
  (LastFrameUsed o <> F ->
   Objects d' !! key = None /\
   forall i p, Tiles o !! i = Some (Some p) ->
     exists r root',
       tile_rect d p = Some r /\ AtlasTiles d' = Some root' /\
       RectPack.tile_at p root' = Some (r, false) /\
       forall w h, 0 < w <= Width r -> 0 < h <= Height r ->
         is_Some (RectPack.Insert root' w h 0)) /\
  (LastFrameUsed o = F ->
   Objects d' !! key = Some o /\
   forall i p, Tiles o !! i = Some (Some p) ->
     exists r root',
       tile_rect d p = Some r /\ AtlasTiles d' = Some root' /\
       RectPack.tile_at p root' = Some (r, true)).
Proof.
  intros Hmax pass d F d' Ho.
  assert (atlas_inv d) as [Hwf Hown Hlen Hres].
  { apply draw_atlas_inv; [done|]. apply run_inv; [done|apply new_pass_inv]. }
  subst d'. clearbody d F. clear pass.
  assert (forall i p, Tiles o !! i = Some (Some p) ->
            exists root r, AtlasTiles d = Some root /\
              RectPack.tile_at p root = Some (r, true) /\
              (p ∈ unused_tiles F d -> LastFrameUsed o <> F)) as Htile.
  { intros i p Hp.
    assert (object_tile d key i = Some p) as Hk
      by (apply object_tile_Some; eauto).
    destruct (Hown key i p) as [(root & r & Hroot & Hr) Hd];
      [by intros []|done|].
    exists root, r. split; [done|]. split; [done|].
    intros (k' & o' & i' & Ho' & Hf' & Hi')%elem_of_unused_tiles.
    destruct (Hd k' i') as [-> ->]; [by intros []| |congruence].
    apply object_tile_Some. eauto. }
  split.
  - intros Hstale. split.
    + apply map_lookup_filter_None. right. intros o' Ho'. simpl in *.
      congruence.
    + intros i p Hp. destruct (Htile i p Hp) as (root & r & Hroot & Hr & _).
      exists r, (foldr RectPack.Free root (unused_tiles F d)).
      assert (p ∈ unused_tiles F d) as Hin
        by (apply elem_of_unused_tiles; eauto 10).
      pose proof (Free_list_tile _ _ _ _ _ Hin Hr) as Hfree.
      unfold tile_rect. simpl. rewrite Hroot, Hr. simpl.
      split; [done|]. split; [done|]. split; [done|].
      intros w h Hw Hh. eapply Insert_succeeds; [exact Hfree|lia|lia].
  - intros Hused. split.
    + by apply map_lookup_filter_Some.
    + intros i p Hp. destruct (Htile i p Hp) as (root & r & Hroot & Hr & Hin).
      exists r, (foldr RectPack.Free root (unused_tiles F d)).
      unfold tile_rect. simpl. rewrite Hroot, Hr. simpl.
      split; [done|]. split; [done|].
      rewrite Free_list_other; [done|]. intros ?. by apply Hin.
Qed.

Lemma removal_pass_witness :
  let d := surfaceAtlasData
    (draw_atlas 8192 (frame 2 [crate])
       (run 8192 2 [frame 1 [crate; wall]] (new_pass 4))).1 in
  exists o,
    Objects d !! 200 = Some o /\ LastFrameUsed o <> 2 /\
    Objects (remove_unused 2 d) !! 200 = None.
Proof.
  intros d. eexists. split; [vm_compute; reflexivity|].
  split; [vm_compute; discriminate|].
  refine (proj1 (proj1 (removal_pass 8192 2 4 [frame 1 [crate; wall]]
    (frame 2 [crate]) 200 _ ltac:(lia) _) _)).
  - vm_compute. reflexivity.
  - vm_compute. discriminate.
Defined.

(** *** Tile resolution *)

(** C4: for a face that [RasterizeActor] processes with a wanted resolution
    of at least 4, the resolution is clamped into
    [[GLOBAL_SURFACE_ATLAS_TILE_SIZE_MIN, GLOBAL_SURFACE_ATLAS_TILE_SIZE_MAX]]
    and then snapped down to a multiple of 8; the result is a multiple of 8
    within [[8, 192]], the face either keeps its tile or calls the insertion
    with this resolution, and the tile an insertion hands out has this
    width and height. *)
Theorem tile_resolution_aligned (c : RasterizeCall) (st : FaceLoop)
    (tileIndex : nat) :
  Z.testbit (tilesMask c) (Z.of_nat tileIndex) = true ->
  4 <= face_resolution c tileIndex ->
  exists tileResolution,
    tileResolution
    = Math.AlignDown
        (Math.Clamp (face_resolution c tileIndex)
           GLOBAL_SURFACE_ATLAS_TILE_SIZE_MIN
           GLOBAL_SURFACE_ATLAS_TILE_SIZE_MAX) 8 /\
    GLOBAL_SURFACE_ATLAS_TILE_SIZE_MIN <= tileResolution
      <= GLOBAL_SURFACE_ATLAS_TILE_SIZE_MAX /\
    tileResolution mod 8 = 0 /\
    (RasterizeActor_face c st tileIndex = mkLoop (loop_data st) true (dirty st)
     \/ exists d,
          RasterizeActor_face c st tileIndex
          = insert_face c tileIndex tileResolution
              (mkLoop d (anyTile st) (dirty st))) /\
    (forall root tile root',
       RectPack.Insert root tileResolution tileResolution 0
       = Some (tile, root') ->
       exists x y,
         RectPack.tile_at tile root'
         = Some (mkRect x y tileResolution tileResolution, true)).
Proof.
  intros Hmask Hres. exists (snap_resolution (face_resolution c tileIndex)).
  pose proof (snap_resolution_bounds (face_resolution c tileIndex)) as [Hb Hm].
  split; [done|]. split; [done|]. split; [done|]. split.
  - unfold RasterizeActor_face. rewrite Hmask. simpl.
    destruct (face_resolution c tileIndex <? 4) eqn:E; [zbool; lia|].
    destruct (object_tile (loop_data st) (actorObject c) tileIndex) as [tile|].
    + case_match; [by left|right; eauto].
    + right. exists (loop_data st). by destruct st.
  - intros root tile root' Hins.
    destruct (Insert_tile _ _ _ _ _ _ Hins) as (x & y & Ht).
    rewrite !Z.add_0_r in Ht. eauto.
Qed.

Lemma tile_resolution_aligned_witness :
  exists tileResolution,
    tileResolution = 64 /\
    RasterizeActor_face crate (mkLoop (ensure_atlas 256 new_buffer) false false) 0
    = insert_face crate 0 tileResolution
        (mkLoop (ensure_atlas 256 new_buffer) false false).
Proof.
  destruct (tile_resolution_aligned crate
              (mkLoop (ensure_atlas 256 new_buffer) false false) 0
              eq_refl ltac:(vm_compute; discriminate))
    as (res & Hres & _ & _ & Hstep & _).
  exists res. split; [rewrite Hres; reflexivity|].
  destruct Hstep as [Hkeep|[d Hins]].
  - vm_compute in Hkeep. discriminate Hkeep.
  - rewrite Hres. reflexivity.
Defined.

(** *** Faces that are too small *)



(** *** Tiles of other slots are left alone *)

Lemma holds_tile_used d key i tile r :
  atlas_inv d -> holds_tile d key i tile r ->
  exists root, AtlasTiles d = Some root /\
               RectPack.tile_at tile root = Some (r, true).
Proof.
  intros Hinv [Ho Hr].
  destruct (atlas_owned _ _ Hinv key i tile) as [(root & s & Hroot & Hs) _];
    [by intros []|done|].
  exists root. split; [done|]. unfold tile_rect in Hr.
  rewrite Hroot, Hs in Hr. simpl in Hr. by injection Hr as ->.
Qed.

Lemma holds_tile_intro d key i tile r root :
  object_tile d key i = Some tile -> AtlasTiles d = Some root ->
  RectPack.tile_at tile root = Some (r, true) ->
  holds_tile d key i tile r.
Proof.
  intros Ho Hroot Hr. split; [done|]. unfold tile_rect. by rewrite Hroot, Hr.
Qed.

Lemma free_tile_other d k j tile' key i tile r :
  atlas_inv d -> object_tile d k j = Some tile' -> (k, j) <> (key, i) ->
  holds_tile d key i tile r ->
  holds_tile (free_tile tile' d) key i tile r.
Proof.
  intros Hinv Hk Hne Hh.
  destruct (holds_tile_used _ _ _ _ _ Hinv Hh) as (root & Hroot & Hr).
  destruct Hh as [Ho _].
  apply (holds_tile_intro _ _ _ _ _ (RectPack.Free tile' root)); [done| |].
  - simpl. by rewrite Hroot.
  - rewrite Free_other; [done|]. intros ->.
    destruct (atlas_owned _ _ Hinv k j tile) as [_ Hd]; [by intros []|done|].
    destruct (Hd key i) as [-> ->]; [by intros []|done|done].
Qed.

Lemma set_tile_other d k j v key i tile r :
  (k, j) <> (key, i) -> holds_tile d key i tile r ->
  holds_tile (set_tile k j v d) key i tile r.
Proof.
  intros Hne [Ho Hr]. split; [|done].
  rewrite object_tile_set_tile_ne; [done|congruence].
Qed.

Lemma insert_face_other c j res d a b key i tile r :
  (actorObject c, j) <> (key, i) ->
  (exists root, AtlasTiles d = Some root /\
                RectPack.tile_at tile root = Some (r, true)) ->
  object_tile d key i = Some tile ->
  holds_tile (loop_data (insert_face c j res (mkLoop d a b))) key i tile r.
Proof.
  intros Hne (root & Hroot & Hr) Ho. unfold insert_face. simpl. rewrite Hroot.
  destruct (RectPack.Insert root res res 0) as [[q root']|] eqn:Eins; simpl.
  - apply (holds_tile_intro _ _ _ _ _ root'); [|done|].
    + rewrite object_tile_OnInsert_ne; [done|congruence].
    + by eapply Insert_keeps_used.
  - apply (holds_tile_intro _ _ _ _ _ root); [|done|done].
    change (object_tile (set_tile (actorObject c) j None d) key i = Some tile).
    rewrite object_tile_set_tile_ne; [done|congruence].
Qed.

Lemma tile_Width_holds d key i tile r :
  holds_tile d key i tile r -> tile_Width d tile = Width r.
Proof. intros [_ Hr]. unfold tile_Width. by rewrite Hr. Qed.

(** A step of the loop leaves the tile of a slot alone, except when it is
    the step of that very face and the face is resized or dropped. *)
Lemma RasterizeActor_face_holds c st j key i tile r :
  atlas_inv (loop_data st) -> is_Some (AtlasTiles (loop_data st)) ->
  holds_tile (loop_data st) key i tile r ->
  ((actorObject c, j) = (key, i) -> keeps_face c i (Width r)) ->
  holds_tile (loop_data (RasterizeActor_face c st j)) key i tile r.
Proof.
  intros Hinv Hroot Hh Hsame. destruct st as [d a b]. simpl in *.
  unfold RasterizeActor_face. simpl.
  destruct (negb (Z.testbit (tilesMask c) (Z.of_nat j))) eqn:Emask; [done|].
  assert ((actorObject c, j) = (key, i) ->
          within_refit_step c i (Width r)) as Hband.
  { intros Heq. destruct (Hsame Heq) as [Hoff|?]; [|done].
    injection Heq as _ ->. zbool. congruence. }
  destruct (decide ((actorObject c, j) = (key, i))) as [Heq|Hne].
  - destruct (Hband Heq) as [Hres Hstep]. injection Heq as Hk ->.
    destruct (face_resolution c i <? 4) eqn:E; [zbool; lia|].
    destruct Hh as [Ho Hr]. rewrite Hk, Ho. unfold tile_Width. rewrite Hr.
    apply Z.ltb_lt in Hstep. rewrite Hstep. done.
  - destruct (face_resolution c j <? 4).
    + destruct (object_tile d (actorObject c) j) as [tile'|] eqn:Et; [|done].
      simpl. apply set_tile_other; [done|].
      by eapply free_tile_other.
    + destruct (object_tile d (actorObject c) j) as [tile'|] eqn:Et.
      * case_match; [done|].
        pose proof (free_tile_other _ _ _ _ _ _ _ _ Hinv Et Hne Hh) as Hh'.
        destruct (holds_tile_used _ _ _ _ _ Hinv Hh) as (root & Hr0 & Hu).
        apply insert_face_other; [done| |apply Hh'].
        exists (RectPack.Free tile' root). simpl. rewrite Hr0. split; [done|].
        destruct Hh' as [_ Hr']. unfold tile_rect in Hr'. simpl in Hr'.
        rewrite Hr0 in Hr'. simpl in Hr'.
        rewrite Free_other; [done|]. intros ->.
        destruct (atlas_owned _ _ Hinv (actorObject c) j tile) as [_ Hd];
          [by intros []|done|].
        destruct Hh as [Ho _].
        destruct (Hd key i) as [? ?]; [by intros []|done|congruence].
      * destruct (holds_tile_used _ _ _ _ _ Hinv Hh) as (root & Hr0 & Hu).
        apply insert_face_other; [done|eauto|apply Hh].
Qed.

Lemma anyTile_mono c st j :
  anyTile st = true -> anyTile (RasterizeActor_face c st j) = true.
Proof.
  intros Ha. unfold RasterizeActor_face, insert_face.
  repeat case_match; simpl; done.
Qed.

Lemma RasterizeActor_face_frame c st j :
  CurrentFrame (loop_data (RasterizeActor_face c st j))
  = CurrentFrame (loop_data st).
Proof.
  unfold RasterizeActor_face, insert_face. repeat case_match; simpl; done.
Qed.

Lemma used_in_frame_alter d key F k f :
  (forall o, LastFrameUsed (f o) = LastFrameUsed o) ->
  used_in_frame d key F -> used_in_frame (set_Objects (alter f k) d) key F.
Proof.
  intros Hf (o & Ho & HF). unfold used_in_frame. simpl.
  destruct (decide (k = key)) as [->|Hk].
  - exists (f o). rewrite lookup_alter_eq, Ho. simpl. by rewrite Hf.
  - exists o. by rewrite lookup_alter_ne.
Qed.

Lemma used_in_frame_OnInsert d key F k j q :
  used_in_frame d key F -> used_in_frame (OnInsert k j q d) key F.
Proof.
  intros (o & Ho & HF). unfold used_in_frame, OnInsert. simpl.
  destruct (decide (k = key)) as [->|Hk].
  - rewrite lookup_insert_eq, Ho. simpl. eauto.
  - rewrite lookup_insert_ne by done. eauto.
Qed.

Lemma RasterizeActor_face_used c st j key F :
  used_in_frame (loop_data st) key F ->
  used_in_frame (loop_data (RasterizeActor_face c st j)) key F.
Proof.
  intros Hu. destruct st as [d a b]. simpl in *.
  unfold RasterizeActor_face, insert_face. simpl.
  repeat case_match; simpl; try done;
    try (apply used_in_frame_OnInsert; done);
    try (apply (used_in_frame_alter _ _ _ _ (with_tile j None)); done).
Qed.

Lemma RasterizeActor_faces_frame c d :
  CurrentFrame (loop_data (RasterizeActor_faces c d)) = CurrentFrame d.
Proof.
  unfold RasterizeActor_faces.
  apply (foldl_faces_inv c (fun st => CurrentFrame (loop_data st) = CurrentFrame d));
    [apply faces_in_range| |done].
  intros st i _ Hst. by rewrite RasterizeActor_face_frame.
Qed.

Lemma RasterizeActor_faces_used c d key F :
  used_in_frame d key F ->
  used_in_frame (loop_data (RasterizeActor_faces c d)) key F.
Proof.
  intros Hu. unfold RasterizeActor_faces.
  apply (foldl_faces_inv c (fun st => used_in_frame (loop_data st) key F));
    [apply faces_in_range| |done].
  intros st i _ Hst. by apply RasterizeActor_face_used.
Qed.

(** The faces of a call leave the tile of a slot alone when the call is for
    another object or keeps that face; in the latter case the call finds a
    tile. *)
Lemma faces_hold c faces st key i tile r :
  Forall (fun j => (j < 6)%nat) faces ->
  (actorObject c = key -> keeps_face c i (Width r)) ->
  atlas_inv (loop_data st) -> is_Some (AtlasTiles (loop_data st)) ->
  holds_tile (loop_data st) key i tile r ->
  let st' := foldl (RasterizeActor_face c) st faces in
  atlas_inv (loop_data st') /\ is_Some (AtlasTiles (loop_data st')) /\
  holds_tile (loop_data st') key i tile r /\
  (actorObject c = key -> Z.testbit (tilesMask c) (Z.of_nat i) = true ->
   i ∈ faces \/ anyTile st = true -> anyTile st' = true).
Proof.
  intros Hf Hkeep. revert st.
  induction Hf as [|j faces Hj Hf IH]; simpl; intros st Hinv Hroot Hh.
  - split; [done|]. split; [done|]. split; [done|].
    intros _ _ [Hin|?]; [|done]. by apply elem_of_nil in Hin.
  - destruct (RasterizeActor_face_inv c st j Hinv Hroot Hj) as [Hinv' Hroot'].
    assert (holds_tile (loop_data (RasterizeActor_face c st j)) key i tile r)
      as Hh'.
    { apply RasterizeActor_face_holds; try done.
      intros [= Hk _]. auto. }
    destruct (IH _ Hinv' Hroot' Hh') as (? & ? & ? & Hany).
    split; [done|]. split; [done|]. split; [done|].
    intros Hk Hmask Hin. apply Hany; [done|done|].
    destruct Hin as [Hin|Ha]; [|right; by apply anyTile_mono].
    apply elem_of_cons in Hin as [->|Hin]; [|by left]. right.
    destruct (Hkeep Hk) as [Hoff|[Hres Hstep]]; [congruence|].
    destruct st as [d a b]. simpl in *. destruct Hh as [Ho Hr].
    unfold RasterizeActor_face. simpl. rewrite Hmask. simpl.
    destruct (face_resolution c j <? 4) eqn:E; [zbool; lia|].
    rewrite Hk, Ho. unfold tile_Width. rewrite Hr.
    apply Z.ltb_lt in Hstep. by rewrite Hstep.
Qed.

Lemma RasterizeActor_faces_hold c d key i tile r :
  (actorObject c = key -> keeps_face c i (Width r)) ->
  atlas_inv d -> is_Some (AtlasTiles d) -> holds_tile d key i tile r ->
  let st := RasterizeActor_faces c d in
  atlas_inv (loop_data st) /\ is_Some (AtlasTiles (loop_data st)) /\
  holds_tile (loop_data st) key i tile r /\
  (actorObject c = key -> Z.testbit (tilesMask c) (Z.of_nat i) = true ->
   (i < 6)%nat -> anyTile st = true).
Proof.
  intros Hkeep Hinv Hroot Hh. unfold RasterizeActor_faces.
  destruct (faces_hold c (seq 0 6) (mkLoop d false false)
              key i tile r faces_in_range Hkeep Hinv Hroot Hh)
    as (Hinv' & Hroot' & Hh' & Hany).
  split; [done|]. split; [done|]. split; [done|].
  intros Hk Hmask Hi. apply Hany; [done|done|]. left. apply elem_of_seq. lia.
Qed.

Lemma RasterizeActor_mark_holds c st pass key i tile r :
  holds_tile (loop_data st) key i tile r ->
  holds_tile (surfaceAtlasData (RasterizeActor_mark c st pass)) key i tile r.
Proof.
  intros Hh. unfold RasterizeActor_mark.
  destruct (negb (anyTile st)); [done|].
  destruct (Objects (loop_data st) !! actorObject c) as [o|] eqn:Eo; [|done].
  destruct Hh as [Ho Hr]. split; [|done]. simpl.
  by erewrite object_tile_mark.
Qed.

Lemma RasterizeActor_mark_used c st pass k F :
  used_in_frame (loop_data st) k F -> CurrentFrame (loop_data st) = F ->
  used_in_frame (surfaceAtlasData (RasterizeActor_mark c st pass)) k F.
Proof.
  intros (o & Ho & HoF) Hcur. unfold RasterizeActor_mark.
  destruct (negb (anyTile st)); [by exists o|].
  destruct (Objects (loop_data st) !! actorObject c) as [o'|] eqn:Eo;
    [|by exists o].
  unfold used_in_frame. simpl.
  destruct (decide (k = actorObject c)) as [->|Hk].
  - rewrite lookup_insert_eq. eauto.
  - rewrite lookup_insert_ne by done. eauto.
Qed.

Lemma RasterizeActor_mark_marks c st pass o :
  anyTile st = true -> Objects (loop_data st) !! actorObject c = Some o ->
  used_in_frame (surfaceAtlasData (RasterizeActor_mark c st pass))
    (actorObject c) (CurrentFrame (loop_data st)).
Proof.
  intros Ha Ho. unfold RasterizeActor_mark. rewrite Ha. simpl. rewrite Ho.
  unfold used_in_frame. simpl. rewrite lookup_insert_eq. eauto.
Qed.

Lemma RasterizeActor_holds c pass key i tile r F :
  (actorObject c = key -> keeps_face c i (Width r)) ->
  atlas_inv (surfaceAtlasData pass) ->
  is_Some (AtlasTiles (surfaceAtlasData pass)) ->
  CurrentFrame (surfaceAtlasData pass) = F ->
  holds_tile (surfaceAtlasData pass) key i tile r ->
  let d' := surfaceAtlasData (RasterizeActor c pass) in
  holds_tile d' key i tile r /\
  (used_in_frame (surfaceAtlasData pass) key F -> used_in_frame d' key F) /\
  (actorObject c = key -> Z.testbit (tilesMask c) (Z.of_nat i) = true ->
   (i < 6)%nat -> used_in_frame d' key F).
Proof.
  intros Hkeep Hinv Hroot HF Hh. unfold RasterizeActor.
  destruct (RasterizeActor_faces_hold c _ key i tile r Hkeep Hinv Hroot Hh)
    as (Hinv' & Hroot' & Hh' & Hany).
  pose proof (RasterizeActor_faces_frame c (surfaceAtlasData pass)) as Hcur.
  pose proof (RasterizeActor_faces_used c (surfaceAtlasData pass) key F) as Hused.
  rewrite HF in Hcur.
  revert Hinv' Hroot' Hh' Hany Hcur Hused.
  generalize (RasterizeActor_faces c (surfaceAtlasData pass)).
  intros st Hinv' Hroot' Hh' Hany Hcur Hused.
  split; [by apply RasterizeActor_mark_holds|].
  split; [intros Hu; apply RasterizeActor_mark_used; auto|].
  intros Hk Hmask Hi.
  destruct Hh' as [Ho Hr]. apply object_tile_Some in Ho as (o & Ho & _).
  rewrite <- Hk in Ho. rewrite <- Hcur, <- Hk.
  eapply RasterizeActor_mark_marks; eauto.
Qed.

Lemma RasterizeActor_frame c pass :
  CurrentFrame (surfaceAtlasData (RasterizeActor c pass))
  = CurrentFrame (surfaceAtlasData pass).
Proof.
  unfold RasterizeActor.
  pose proof (RasterizeActor_faces_frame c (surfaceAtlasData pass)) as Hcur.
  revert Hcur. generalize (RasterizeActor_faces c (surfaceAtlasData pass)).
  intros st Hcur. unfold RasterizeActor_mark. repeat case_match; simpl; done.
Qed.

Lemma draw_calls_hold calls pass key i tile r F :
  (forall c, c ∈ calls -> actorObject c = key -> keeps_face c i (Width r)) ->
  atlas_inv (surfaceAtlasData pass) ->
  is_Some (AtlasTiles (surfaceAtlasData pass)) ->
  CurrentFrame (surfaceAtlasData pass) = F ->
  holds_tile (surfaceAtlasData pass) key i tile r ->
  let d' := surfaceAtlasData (foldl (fun p c => RasterizeActor c p) pass calls) in
  atlas_inv d' /\ holds_tile d' key i tile r /\
  (used_in_frame (surfaceAtlasData pass) key F -> used_in_frame d' key F).
Proof.
  revert pass. induction calls as [|c calls IH]; simpl;
    intros pass Hkeep Hinv Hroot HF Hh; [done|].
  destruct (RasterizeActor_inv c pass Hinv Hroot) as [Hinv' Hroot'].
  destruct (RasterizeActor_holds c pass key i tile r F) as (Hh' & Hu' & _);
    try done.
  { apply Hkeep. apply elem_of_cons. by left. }
  destruct (IH (RasterizeActor c pass)) as (? & ? & Hu''); try done.
  { intros c' Hc'. apply Hkeep. apply elem_of_cons. by right. }
  { by rewrite RasterizeActor_frame. }
  auto.
Qed.

Lemma remove_unused_holds F d key i tile r :
  atlas_inv d -> holds_tile d key i tile r -> used_in_frame d key F ->
  holds_tile (remove_unused F d) key i tile r.
Proof.
  intros Hinv Hh (o & Ho & HoF).
  destruct (holds_tile_used _ _ _ _ _ Hinv Hh) as (root & Hroot & Hr).
  destruct Hh as [Hk _].
  pose proof Hk as Hk'. apply object_tile_Some in Hk' as (o' & Ho' & Hi).
  rewrite Ho in Ho'. injection Ho' as <-.
  apply (holds_tile_intro _ _ _ _ _
           (foldr RectPack.Free root (unused_tiles F d))).
  - apply object_tile_remove_unused. eauto.
  - simpl. by rewrite Hroot.
  - rewrite Free_list_other; [done|].
    intros (k' & o' & i' & Ho' & Hf' & Hi')%elem_of_unused_tiles.
    destruct (atlas_owned _ _ Hinv key i tile) as [_ Hd]; [by intros []|done|].
    destruct (Hd k' i') as [-> ->]; [by intros []| |congruence].
    apply object_tile_Some. eauto.
Qed.

Lemma draw_atlas_app MAX inp pass calls rest :
  drawn inp = calls ++ rest ->
  draw_atlas MAX inp pass
  = if (draw_atlas MAX (with_drawn calls inp) pass).2
    then draw_atlas MAX (with_drawn calls inp) pass
    else (foldl (fun p c => RasterizeActor c p)
            (draw_atlas MAX (with_drawn calls inp) pass).1 rest, false).
Proof.
  intros Hd. unfold draw_atlas.
  change (init_buffers MAX (with_drawn calls inp)) with (init_buffers MAX inp).
  simpl.
  destruct (init_buffers MAX inp _) as [d1 failed].
  destruct failed; simpl; [done|].
  unfold draw_objects. rewrite Hd. simpl. by rewrite foldl_app.
Qed.

Lemma draw_calls_frame calls pass :
  CurrentFrame (surfaceAtlasData (foldl (fun p c => RasterizeActor c p) pass calls))
  = CurrentFrame (surfaceAtlasData pass).
Proof.
  revert pass. induction calls as [|c calls IH]; simpl; intros pass; [done|].
  by rewrite IH, RasterizeActor_frame.
Qed.

Lemma draw_atlas_frame MAX inp pass :
  (draw_atlas MAX inp pass).2 = false ->
  CurrentFrame (surfaceAtlasData (draw_atlas MAX inp pass).1) = FrameCount inp.
Proof.
  unfold draw_atlas. destruct (init_buffers MAX inp _) as [d1 failed].
  destruct failed; simpl; [done|]. intros _.
  unfold draw_objects. by rewrite draw_calls_frame.
Qed.

Lemma cull_objects_holds LAT inp pass key i tile r :
  holds_tile (surfaceAtlasData pass) key i tile r ->
  holds_tile (surfaceAtlasData (culled_pass (cull_objects LAT inp pass)))
    key i tile r.
Proof.
  destruct (cull_objects_cache LAT inp pass) as (Ht & _ & Ho).
  unfold holds_tile, object_tile, tile_rect. by rewrite Ht, Ho.
Qed.

(** *** Reuse of tiles *)

Lemma object_tile_OnInsert_held d key i q tile :
  object_tile d key i = Some tile ->
  object_tile (OnInsert key i q d) key i = Some q.
Proof.
  intros (o & Ho & Hi)%object_tile_Some. unfold object_tile, OnInsert. simpl.
  rewrite lookup_insert_eq, Ho. simpl.
  rewrite list_lookup_insert_eq; [done|]. by eapply lookup_lt_Some.
Qed.

(** C5: a face that already has a tile keeps it when the resolution
    computed for the face differs from the tile's width by less than 32:
    the loop step changes nothing in the buffer (no tile is freed, none is
    inserted) and leaves the [dirty] flag as it was; at the end of a frame
    in which the object is not rasterized again after this call, the slot
    still holds the same tile with the same rectangle.  Otherwise the step
    frees the tile and then inserts: on success the slot holds the new tile
    and the object is dirty, on failure the slot is null and the failure is
    recorded. *)
Theorem tile_reuse :
  (forall (c : RasterizeCall) (st : FaceLoop) (tileIndex : nat)
          (tile : TilePtr) (r : Rect),
     let d := loop_data st in
     let tileResolution := snap_resolution (face_resolution c tileIndex) in
     let st' := RasterizeActor_face c st tileIndex in
     Z.testbit (tilesMask c) (Z.of_nat tileIndex) = true ->
     4 <= face_resolution c tileIndex ->
     holds_tile d (actorObject c) tileIndex tile r ->
     (Math.Abs (tileResolution - Width r) < tileRefitResolutionStep ->
      st' = mkLoop d true (dirty st)) /\
     (tileRefitResolutionStep <= Math.Abs (tileResolution - Width r) ->
      st' = insert_face c tileIndex tileResolution
              (mkLoop (free_tile tile d) (anyTile st) (dirty st)) /\
      forall root, AtlasTiles d = Some root ->
        match RectPack.Insert (RectPack.Free tile root)
                tileResolution tileResolution 0 with
        | Some (tile', root') =>
            AtlasTiles (loop_data st') = Some root' /\
            object_tile (loop_data st') (actorObject c) tileIndex = Some tile' /\
            anyTile st' = true /\ dirty st' = true
        | None =>
            AtlasTiles (loop_data st') = Some (RectPack.Free tile root) /\
            object_tile (loop_data st') (actorObject c) tileIndex = None /\
            LastFrameAtlasInsertFail (loop_data st') = CurrentFrame d
        end)) /\
  (forall GPU_MAX_TEXTURE_SIZE GPU_ASYNC_LATENCY slots
          (inputs : list RenderInput) (inp : RenderInput)
          (before : list RasterizeCall) (c : RasterizeCall)
          (after : list RasterizeCall) (tileIndex : nat)
          (tile : TilePtr) (r : Rect),
     let pass :=
       run GPU_MAX_TEXTURE_SIZE GPU_ASYNC_LATENCY inputs (new_pass slots) in
     let reached :=
       draw_atlas GPU_MAX_TEXTURE_SIZE (with_drawn before inp) pass in
     256 <= GPU_MAX_TEXTURE_SIZE ->
     drawn inp = before ++ c :: after ->
     (forall c', c' ∈ after -> actorObject c' <> actorObject c) ->
     passSkipped inp = false ->
     CustomBuffer_LastFrameUsed (surfaceAtlasData pass) <> FrameCount inp ->
     reached.2 = false ->
     (tileIndex < 6)%nat ->
     Z.testbit (tilesMask c) (Z.of_nat tileIndex) = true ->
     holds_tile (surfaceAtlasData reached.1) (actorObject c) tileIndex tile r ->
     within_refit_step c tileIndex (Width r) ->
     holds_tile
       (surfaceAtlasData
          (Render GPU_MAX_TEXTURE_SIZE GPU_ASYNC_LATENCY inp pass).1)
       (actorObject c) tileIndex tile r).
Proof.
  split.
  - intros c st i tile r d res st' Hmask Hres [Ho Hr]. subst st' d.
    destruct st as [d a b]. simpl in *.
    unfold RasterizeActor_face. simpl. rewrite Hmask. simpl.
    destruct (face_resolution c i <? 4) eqn:E; [zbool; lia|].
    rewrite Ho. unfold tile_Width. rewrite Hr. fold res. split.
    + intros Hstep. apply Z.ltb_lt in Hstep. by rewrite Hstep.
    + intros Hstep. apply Z.ltb_ge in Hstep. rewrite Hstep.
      split; [done|]. intros root Hroot.
      unfold insert_face. simpl. rewrite Hroot. simpl.
      destruct (RectPack.Insert (RectPack.Free tile root) res res 0)
        as [[tile' root']|]; simpl; rewrite ?Hroot; simpl.
      * split; [done|]. split; [|done].
        by eapply (object_tile_OnInsert_held
                     (set_AtlasTiles (fun _ => Some root') (free_tile tile d))).
      * split; [done|]. split; [|done].
        apply (object_tile_set_tile_None (free_tile tile d)).
  - intros MAX LAT slots inputs inp before c after i tile r pass reached
      Hmax Hdrawn Hafter Hskip Hframe Hok Hi Hmask Hh Hband.
    assert (atlas_inv (surfaceAtlasData pass)) as Hinv0
      by (apply run_inv; [done|apply new_pass_inv]).
    destruct (draw_atlas_inv MAX Hmax (with_drawn before inp) pass Hinv0)
      as [Hinv1 Hroot1].
    pose proof (draw_atlas_frame MAX (with_drawn before inp) pass Hok) as Hcur.
    pose proof (draw_atlas_app MAX inp pass before (c :: after) Hdrawn) as Happ.
    fold reached in Hinv1, Hroot1, Hcur, Happ. rewrite Hok in Happ.
    specialize (Hroot1 Hok). simpl in Hcur.
    unfold Render. rewrite Hskip.
    destruct (_ =? _) eqn:E; [zbool; done|].
    unfold update_atlas. rewrite Happ. clear Happ.
    revert Hinv1 Hroot1 Hcur Hh. generalize (reached.1). clear reached Hok.
    intros mid Hinv1 Hroot1 Hcur Hh. simpl.
    destruct (RasterizeActor_inv c mid Hinv1 Hroot1) as [Hinv2 Hroot2].
    destruct (RasterizeActor_holds c mid (actorObject c) i tile r
                (FrameCount inp)) as (Hh2 & _ & Hu2); try done.
    { intros _. by right. }
    specialize (Hu2 eq_refl Hmask Hi).
    destruct (draw_calls_hold after (RasterizeActor c mid) (actorObject c)
                i tile r (FrameCount inp)) as (Hinv3 & Hh3 & Hu3); try done.
    { intros c' Hc' Hk. by destruct (Hafter c' Hc'). }
    { by rewrite RasterizeActor_frame. }
    apply cull_objects_holds. simpl.
    apply remove_unused_holds; auto.
Qed.

Lemma tile_reuse_witness :
  let pass := run 8192 2 [frame 1 [crate]] (new_pass 4) in
  holds_tile (surfaceAtlasData pass) 100 0 [GoLeft; GoLeft] (mkRect 0 0 64 64) /\
  holds_tile (surfaceAtlasData (Render 8192 2 (frame 2 [crate_near]) pass).1)
    100 0 [GoLeft; GoLeft] (mkRect 0 0 64 64) /\
  RasterizeActor_face crate_close (mkLoop (surfaceAtlasData pass) false false) 0
  = insert_face crate_close 0 128
      (mkLoop (free_tile [GoLeft; GoLeft] (surfaceAtlasData pass)) false false).
Proof.
  intros pass.
  assert (holds_tile (surfaceAtlasData pass) 100 0 [GoLeft; GoLeft]
            (mkRect 0 0 64 64)) as Hh
    by (split; vm_compute; reflexivity).
  split; [exact Hh|]. split.
  - refine (proj2 tile_reuse 8192 2 4%nat [frame 1 [crate]] (frame 2 [crate_near])
              [] crate_near [] 0%nat [GoLeft; GoLeft] (mkRect 0 0 64 64)
              ltac:(lia) eq_refl _ eq_refl _ _ ltac:(lia) eq_refl _ _).
    + intros c' Hc'. by apply elem_of_nil in Hc'.
    + vm_compute. discriminate.
    + vm_compute. reflexivity.
    + split; vm_compute; reflexivity.
    + split; vm_compute; [discriminate|reflexivity].
  - refine (proj1 (proj2 (proj1 tile_reuse crate_close
              (mkLoop (surfaceAtlasData pass) false false) 0%nat
              [GoLeft; GoLeft] (mkRect 0 0 64 64) eq_refl _ Hh) _)).
    + vm_compute. discriminate.
    + vm_compute. discriminate.
Defined.

(** Without the proviso the end-of-frame statement fails: the crate is
    rasterized twice in frame 2.  For the first call the resolution of
    face 0 (80) is within the step of its 64 texel tile; the second call
    asks for 128, frees the tile and inserts another one, so after the
    frame the face holds a tile with another rectangle and the object is
    queued for a redraw. *)
Lemma tile_replaced_in_frame :
  let pass := run 8192 2 [frame 1 [crate]] (new_pass 4) in
  let inp := frame 2 [crate_near; crate_close] in
  let reached := draw_atlas 8192 (with_drawn [] inp) pass in
  let after := (Render 8192 2 inp pass).1 in
  (drawn inp = [] ++ crate_near :: [crate_close] /\
   passSkipped inp = false /\
   CustomBuffer_LastFrameUsed (surfaceAtlasData pass) <> FrameCount inp /\
   reached.2 = false /\
   Z.testbit (tilesMask crate_near) 0 = true /\
   holds_tile (surfaceAtlasData reached.1) 100 0 [GoLeft; GoLeft]
     (mkRect 0 0 64 64) /\
   within_refit_step crate_near 0 64) /\
  ~ holds_tile (surfaceAtlasData after) 100 0 [GoLeft; GoLeft]
      (mkRect 0 0 64 64) /\
  holds_tile (surfaceAtlasData after) 100 0
    [GoRight; GoRight; GoLeft; GoLeft] (mkRect 64 64 128 128) /\
  100 ∈ dirtyObjectsBuffer after.
Proof.
  intros pass inp reached after. split; [|split; [|split]].
  - split; [reflexivity|]. split; [reflexivity|].
    split; [vm_compute; discriminate|]. split; [vm_compute; reflexivity|].
    split; [reflexivity|]. split.
    + split; vm_compute; reflexivity.
    + split; vm_compute; [discriminate|reflexivity].
  - intros [Htile _]. vm_compute in Htile. discriminate Htile.
  - split; vm_compute; reflexivity.
  - assert (dirtyObjectsBuffer after = [100]) as ->
      by (vm_compute; reflexivity).
    apply elem_of_cons. by left.
Qed.

(** *** Entries and their tiles *)

Lemma insert_face_slot c j res st key i :
  (actorObject c, j) <> (key, i) ->
  object_tile (loop_data (insert_face c j res st)) key i
  = object_tile (loop_data st) key i.
Proof.
  intros Hne. destruct st as [d a b]. unfold insert_face. simpl.
  destruct (AtlasTiles d) as [root|]; [|done].
  destruct (RectPack.Insert root res res 0) as [[q root']|]; simpl.
  - by rewrite object_tile_OnInsert_ne by congruence.
  - change (object_tile (set_tile (actorObject c) j None d) key i
            = object_tile d key i).
    by rewrite object_tile_set_tile_ne by congruence.
Qed.

Lemma RasterizeActor_face_slot c st j key i :
  (actorObject c, j) <> (key, i) ->
  object_tile (loop_data (RasterizeActor_face c st j)) key i
  = object_tile (loop_data st) key i.
Proof.
  intros Hne. destruct st as [d a b]. simpl.
  unfold RasterizeActor_face. simpl.
  destruct (negb _); [done|]. destruct (_ <? 4).
  - destruct (object_tile d (actorObject c) j) as [tile|]; [|done]. simpl.
    by rewrite object_tile_set_tile_ne by congruence.
  - destruct (object_tile d (actorObject c) j) as [tile|].
    + case_match; [done|]. by rewrite insert_face_slot.
    + by rewrite insert_face_slot.
Qed.

Lemma insert_face_entry c j res st k :
  k <> actorObject c ->
  Objects (loop_data (insert_face c j res st)) !! k
  = Objects (loop_data st) !! k.
Proof.
  intros Hne. destruct st as [d a b]. unfold insert_face. simpl.
  destruct (AtlasTiles d) as [root|]; [|done].
  destruct (RectPack.Insert root res res 0) as [[q root']|]; simpl.
  - by rewrite lookup_insert_ne.
  - by rewrite lookup_alter_ne.
Qed.

Lemma RasterizeActor_face_entry c st j k :
  k <> actorObject c ->
  Objects (loop_data (RasterizeActor_face c st j)) !! k
  = Objects (loop_data st) !! k.
Proof.
  intros Hne. destruct st as [d a b]. simpl.
  unfold RasterizeActor_face. simpl.
  destruct (negb _); [done|]. destruct (_ <? 4).
  - destruct (object_tile d (actorObject c) j) as [tile|]; [|done]. simpl.
    by rewrite lookup_alter_ne.
  - destruct (object_tile d (actorObject c) j) as [tile|].
    + case_match; [done|]. by rewrite insert_face_entry.
    + by rewrite insert_face_entry.
Qed.

Lemma RasterizeActor_face_found c st j :
  atlas_inv (loop_data st) -> (j < 6)%nat ->
  anyTile st = false -> anyTile (RasterizeActor_face c st j) = true ->
  exists p,
    object_tile (loop_data (RasterizeActor_face c st j)) (actorObject c) j
    = Some p.
Proof.
  intros Hinv Hj Ha. destruct st as [d a b]. simpl in *. subst a.
  unfold RasterizeActor_face, insert_face. simpl.
  repeat case_match; simpl; try done; intros _; simplify_eq.
  - eauto.
  - eexists. apply object_tile_OnInsert_eq; [|done].
    simpl. apply Hinv.
  - eexists. apply object_tile_OnInsert_eq; [|done].
    simpl. apply Hinv.
Qed.

Lemma RasterizeActor_face_lfu c st j o' :
  Objects (loop_data (RasterizeActor_face c st j)) !! actorObject c = Some o' ->
  anyTile (RasterizeActor_face c st j) = true \/
  exists o, Objects (loop_data st) !! actorObject c = Some o /\
            LastFrameUsed o' = LastFrameUsed o.
Proof.
  destruct st as [d a b]. simpl.
  unfold RasterizeActor_face, insert_face. simpl.
  repeat case_match; simpl; try (by left); try (by right; eauto);
    rewrite lookup_alter_eq;
    destruct (Objects d !! actorObject c) as [o|]; simpl; try done;
    intros [= <-]; right; eauto.
Qed.

Lemma faces_found c faces st :
  Forall (fun j => (j < 6)%nat) faces -> NoDup faces ->
  atlas_inv (loop_data st) -> is_Some (AtlasTiles (loop_data st)) ->
  (anyTile st = true ->
   exists i p, (i ∉ faces) /\ (i < 6)%nat /\
               object_tile (loop_data st) (actorObject c) i = Some p) ->
  let st' := foldl (RasterizeActor_face c) st faces in
  anyTile st' = true ->
  exists i p, (i < 6)%nat /\
              object_tile (loop_data st') (actorObject c) i = Some p.
Proof.
  intros Hf. revert st.
  induction Hf as [|j faces Hj Hf IH]; simpl; intros st Hnd Hinv Hroot Hst.
  - intros Ha. destruct (Hst Ha) as (i & p & _ & ? & ?). eauto.
  - apply NoDup_cons in Hnd as [Hjn Hnd].
    destruct (RasterizeActor_face_inv c st j Hinv Hroot Hj) as [Hinv' Hroot'].
    apply IH; try done. intros Ha'.
    destruct (anyTile st) eqn:Ha.
    + destruct (Hst eq_refl) as (i & p & Hin & Hi & Hp).
      apply not_elem_of_cons in Hin as [Hij Hin].
      exists i, p. split; [done|]. split; [done|].
      rewrite RasterizeActor_face_slot; [done|congruence].
    + destruct (RasterizeActor_face_found c st j Hinv Hj Ha Ha') as [p Hp].
      eauto.
Qed.

Lemma faces_entry c faces st k :
  k <> actorObject c ->
  Objects (loop_data (foldl (RasterizeActor_face c) st faces)) !! k
  = Objects (loop_data st) !! k.
Proof.
  intros Hne. revert st. induction faces as [|j faces IH]; simpl; intros st;
    [done|].
  by rewrite IH, RasterizeActor_face_entry.
Qed.

Lemma faces_lfu c faces st o' :
  Objects (loop_data (foldl (RasterizeActor_face c) st faces)) !! actorObject c
  = Some o' ->
  anyTile (foldl (RasterizeActor_face c) st faces) = true \/
  exists o, Objects (loop_data st) !! actorObject c = Some o /\
            LastFrameUsed o' = LastFrameUsed o.
Proof.
  revert st. induction faces as [|j faces IH]; simpl; intros st Ho'.
  - right. eauto.
  - destruct (IH _ Ho') as [?|(o1 & Ho1 & Hl1)]; [by left|].
    destruct (RasterizeActor_face_lfu c st j o1 Ho1) as [Ha|(o & Ho & Hl)].
    + left. clear -Ha. revert Ha.
      generalize (RasterizeActor_face c st j). intros st1 Ha.
      revert st1 Ha. induction faces as [|j' faces IH']; simpl; intros st1 Ha;
        [done|].
      apply IH'. by apply anyTile_mono.
    + right. exists o. split; [done|congruence].
Qed.

Lemma RasterizeActor_faces_found c d :
  atlas_inv d -> is_Some (AtlasTiles d) ->
  anyTile (RasterizeActor_faces c d) = true ->
  exists i p, (i < 6)%nat /\
    object_tile (loop_data (RasterizeActor_faces c d)) (actorObject c) i
    = Some p.
Proof.
  intros Hinv Hroot. unfold RasterizeActor_faces.
  apply (faces_found c (seq 0 6) (mkLoop d false false));
    [apply faces_in_range|apply NoDup_seq|done|done|done].
Qed.

Lemma has_tile_object_tile d key :
  (exists i p, (i < 6)%nat /\ object_tile d key i = Some p) <->
  exists o, Objects d !! key = Some o /\ has_tile o.
Proof.
  split.
  - intros (i & p & Hi & (o & Ho & Hp)%object_tile_Some).
    exists o. split; [done|]. by exists i, p.
  - intros (o & Ho & i & p & Hi & Hp). exists i, p. split; [done|].
    apply object_tile_Some. eauto.
Qed.

Lemma RasterizeActor_faces_entry c d k :
  k <> actorObject c ->
  Objects (loop_data (RasterizeActor_faces c d)) !! k = Objects d !! k.
Proof. intros Hk. unfold RasterizeActor_faces. by rewrite faces_entry. Qed.

Lemma RasterizeActor_faces_lfu c d o' :
  Objects (loop_data (RasterizeActor_faces c d)) !! actorObject c = Some o' ->
  anyTile (RasterizeActor_faces c d) = true \/
  exists o, Objects d !! actorObject c = Some o /\
            LastFrameUsed o' = LastFrameUsed o.
Proof.
  unfold RasterizeActor_faces.
  apply (faces_lfu c (seq 0 6) (mkLoop d false false)).
Qed.

Lemma RasterizeActor_mark_entries c st pass d :
  (anyTile st = true ->
   exists i p, (i < 6)%nat /\
               object_tile (loop_data st) (actorObject c) i = Some p) ->
  (forall k, k <> actorObject c -> Objects (loop_data st) !! k = Objects d !! k) ->
  (forall o', Objects (loop_data st) !! actorObject c = Some o' ->
     anyTile st = true \/
     exists o, Objects d !! actorObject c = Some o /\
               LastFrameUsed o' = LastFrameUsed o) ->
  let d' := surfaceAtlasData (RasterizeActor_mark c st pass) in
  (forall k, k <> actorObject c -> Objects d' !! k = Objects d !! k) /\
  (forall o', Objects d' !! actorObject c = Some o' ->
     has_tile o' \/
     exists o, Objects d !! actorObject c = Some o /\
               LastFrameUsed o' = LastFrameUsed o).
Proof.
  intros Hfound Hother Hlfu. unfold RasterizeActor_mark.
  destruct (anyTile st) eqn:Ha; simpl.
  - destruct (Objects (loop_data st) !! actorObject c) as [o1|] eqn:Eo1; simpl.
    + split.
      * intros k Hk. rewrite lookup_insert_ne by done. auto.
      * intros o'. rewrite lookup_insert_eq. intros [= <-]. left.
        destruct (Hfound eq_refl) as (i & p & Hi & Hp).
        apply object_tile_Some in Hp as (o2 & Ho2 & Hp).
        rewrite Eo1 in Ho2. injection Ho2 as <-. by exists i, p.
    + split; [auto|]. intros o' Ho'. congruence.
  - split; [auto|]. intros o' Ho'.
    destruct (Hlfu o' Ho') as [?|?]; [done|by right].
Qed.

(** What a call does to the entries: those of other objects are left as
    they are; the entry of the object is marked as used, and then has a
    tile, or keeps the frame it was last used in. *)
Lemma RasterizeActor_entries c pass :
  atlas_inv (surfaceAtlasData pass) ->
  is_Some (AtlasTiles (surfaceAtlasData pass)) ->
  let d := surfaceAtlasData pass in
  let d' := surfaceAtlasData (RasterizeActor c pass) in
  (forall k, k <> actorObject c -> Objects d' !! k = Objects d !! k) /\
  (forall o', Objects d' !! actorObject c = Some o' ->
     has_tile o' \/
     exists o, Objects d !! actorObject c = Some o /\
               LastFrameUsed o' = LastFrameUsed o).
Proof.
  intros Hinv Hroot. unfold RasterizeActor.
  apply RasterizeActor_mark_entries.
  - by apply RasterizeActor_faces_found.
  - intros k Hk. by apply RasterizeActor_faces_entry.
  - apply RasterizeActor_faces_lfu.
Qed.

Lemma RasterizeActor_drawing F c rest pass :
  NoDup (actorObject <$> c :: rest) ->
  drawing F (c :: rest) (surfaceAtlasData pass) ->
  drawing F rest (surfaceAtlasData (RasterizeActor c pass)).
Proof.
  intros Hnd (Hinv & Hroot & Hcur & Hmarked & Hrest).
  destruct (RasterizeActor_inv c pass Hinv Hroot) as [Hinv' Hroot'].
  destruct (RasterizeActor_entries c pass Hinv Hroot) as [Hother Hself].
  simpl in Hnd. apply NoDup_cons in Hnd as [Hc Hnd].
  split; [done|]. split; [done|].
  split; [by rewrite RasterizeActor_frame|]. split.
  - intros k o Ho HoF. destruct (decide (k = actorObject c)) as [->|Hk].
    + destruct (Hself o Ho) as [?|(o0 & Ho0 & Hl)]; [done|].
      exfalso. apply (Hrest c o0); [by apply elem_of_cons; left|done|congruence].
    + rewrite Hother in Ho by done. eauto.
  - intros c' o Hc' Ho.
    assert (actorObject c' <> actorObject c) as Hne.
    { intros Heq. apply Hc. rewrite <- Heq. by apply list_elem_of_fmap_2. }
    rewrite Hother in Ho by done.
    apply (Hrest c' o); [by apply elem_of_cons; right|done].
Qed.

Lemma draw_calls_drawing F calls pass :
  NoDup (actorObject <$> calls) ->
  drawing F calls (surfaceAtlasData pass) ->
  drawing F [] (surfaceAtlasData (foldl (fun p c => RasterizeActor c p) pass calls)).
Proof.
  revert pass. induction calls as [|c calls IH]; simpl; intros pass Hnd Hd;
    [done|].
  apply IH.
  - by apply NoDup_cons in Hnd as [_ ?].
  - by apply RasterizeActor_drawing.
Qed.

Lemma RasterizeActor_keeps_buffer_frame c pass :
  CustomBuffer_LastFrameUsed (surfaceAtlasData (RasterizeActor c pass))
  = CustomBuffer_LastFrameUsed (surfaceAtlasData pass).
Proof.
  unfold RasterizeActor.
  assert (CustomBuffer_LastFrameUsed
            (loop_data (RasterizeActor_faces c (surfaceAtlasData pass)))
          = CustomBuffer_LastFrameUsed (surfaceAtlasData pass)) as Hf.
  { unfold RasterizeActor_faces.
    apply (foldl_faces_inv c (fun st =>
      CustomBuffer_LastFrameUsed (loop_data st)
      = CustomBuffer_LastFrameUsed (surfaceAtlasData pass)));
      [apply faces_in_range| |done].
    intros [d a b] i _ Hst. simpl in *.
    unfold RasterizeActor_face, insert_face. simpl.
    repeat case_match; simpl; done. }
  revert Hf. generalize (RasterizeActor_faces c (surfaceAtlasData pass)).
  intros st Hst. unfold RasterizeActor_mark. repeat case_match; simpl; done.
Qed.

Lemma draw_calls_keep_buffer_frame calls pass :
  CustomBuffer_LastFrameUsed
    (surfaceAtlasData (foldl (fun p c => RasterizeActor c p) pass calls))
  = CustomBuffer_LastFrameUsed (surfaceAtlasData pass).
Proof.
  revert pass. induction calls as [|c calls IH]; simpl; intros pass; [done|].
  by rewrite IH, RasterizeActor_keeps_buffer_frame.
Qed.

Lemma cull_objects_keeps_buffer_frame LAT inp pass :
  CustomBuffer_LastFrameUsed
    (surfaceAtlasData (culled_pass (cull_objects LAT inp pass)))
  = CustomBuffer_LastFrameUsed (surfaceAtlasData pass).
Proof.
  unfold cull_objects, allocate_culled, readback.
  repeat (case_match; simpl; simplify_eq; try done).
Qed.

Lemma init_buffers_entries MAX inp d :
  (Objects (init_buffers MAX inp d).1 = Objects d \/
   Objects (init_buffers MAX inp d).1 = ∅) /\
  ((init_buffers MAX inp d).2 = true -> Objects (init_buffers MAX inp d).1 = ∅) /\
  CustomBuffer_LastFrameUsed (init_buffers MAX inp d).1
  = CustomBuffer_LastFrameUsed d.
Proof.
  unfold init_buffers.
  repeat case_match; simpl; (split; [auto|]); (split; [|done]); done.
Qed.

Lemma cache_tidy_empty d : Objects d = ∅ -> cache_tidy d.
Proof. intros He k o Ho. by rewrite He in Ho. Qed.

Lemma Render_tidy MAX LAT inp pass :
  256 <= MAX -> drawn_once inp ->
  atlas_inv (surfaceAtlasData pass) -> cache_tidy (surfaceAtlasData pass) ->
  cache_tidy (surfaceAtlasData (Render MAX LAT inp pass).1).
Proof.
  intros Hmax Honce Hinv Htidy. unfold Render.
  destruct (passSkipped inp); [done|].
  destruct (_ =? _) eqn:Eframe; [done|]. zbool.
  unfold update_atlas, draw_atlas.
  set (d0 := set_CustomBuffer_LastFrameUsed (FrameCount inp) (surfaceAtlasData pass)).
  assert (atlas_inv d0) as Hinv0 by (revert Hinv; apply atlas_inv_same; done).
  destruct (init_buffers_inv MAX Hmax inp d0 Hinv0) as [Hinv1 Hres1].
  destruct (init_buffers_entries MAX inp d0) as (Hobj1 & Hfail1 & Hlfu1).
  destruct (init_buffers MAX inp d0) as [d1 failed]. simpl in *.
  destruct failed; simpl.
  { apply cache_tidy_empty. auto. }
  destruct (ensure_atlas_inv _ d1 Hinv1 (Hres1 eq_refl)) as [Hinv2 Hroot2].
  assert (Objects (ensure_atlas (atlas_resolution MAX inp) d1) = Objects d1
          /\ CustomBuffer_LastFrameUsed (ensure_atlas (atlas_resolution MAX inp) d1)
             = CustomBuffer_LastFrameUsed d1) as [Hobj2 Hlfu2]
    by (unfold ensure_atlas; by case_match).
  revert Hinv2 Hroot2 Hobj2 Hlfu2.
  generalize (ensure_atlas (atlas_resolution MAX inp) d1).
  intros d2 Hinv2 Hroot2 Hobj2 Hlfu2.
  unfold draw_objects. simpl.
  set (start := mkPass (set_CurrentFrame (FrameCount inp) d2) []
                  (culledObjectsSizeBuffer pass) (culledObjectsSizeFrames pass)).
  assert (drawing (FrameCount inp) (drawn inp) (surfaceAtlasData start)) as Hd.
  { assert (forall k o, Objects d2 !! k = Some o ->
              Objects (surfaceAtlasData pass) !! k = Some o) as Hsub.
    { intros k o. rewrite Hobj2. destruct Hobj1 as [->| ->]; [done|].
      by rewrite lookup_empty. }
    split; [revert Hinv2; by apply atlas_inv_same|].
    split; [done|]. split; [done|]. split.
    - intros k o Ho _. apply Hsub in Ho. by apply (Htidy k o).
    - intros c o _ Ho. apply Hsub in Ho.
      destruct (Htidy _ o Ho) as [-> _]. done. }
  pose proof (draw_calls_drawing _ _ start Honce Hd)
    as (Hinv3 & Hroot3 & Hcur3 & Hmarked3 & _).
  pose proof (draw_calls_keep_buffer_frame (drawn inp) start) as Hlfu3.
  revert Hinv3 Hroot3 Hcur3 Hmarked3 Hlfu3.
  generalize (foldl (fun p c => RasterizeActor c p) start (drawn inp)).
  intros pass3 Hinv3 Hroot3 Hcur3 Hmarked3 Hlfu3.
  intros k o.
  destruct (cull_objects_cache LAT inp
              (with_data (remove_unused (FrameCount inp) (surfaceAtlasData pass3))
                 pass3)) as (_ & _ & ->).
  rewrite cull_objects_keeps_buffer_frame. simpl.
  intros [Ho HoF]%map_lookup_filter_Some. simpl in HoF.
  split; [|eauto]. rewrite Hlfu3. subst start. simpl. congruence.
Qed.

Lemma run_tidy MAX LAT inputs pass :
  256 <= MAX -> Forall drawn_once inputs ->
  atlas_inv (surfaceAtlasData pass) -> cache_tidy (surfaceAtlasData pass) ->
  cache_tidy (surfaceAtlasData (run MAX LAT inputs pass)).
Proof.
  intros Hmax Honce. revert pass.
  induction Honce as [|inp inputs Hinp Honce IH]; simpl; intros pass Hinv Htidy;
    [done|].
  apply IH; [by apply Render_inv|by apply Render_tidy].
Qed.

(** *** Entries exist with their tiles *)

(** C7, as amended: when no object is rasterized twice within a frame,
    after any sequence of frames an entry exists in the cache if and only
    if one of its six tile slots is not null; and, whatever the calls, an
    entry that a call of [RasterizeActor] creates has a tile. *)
Theorem entries_have_tiles GPU_MAX_TEXTURE_SIZE GPU_ASYNC_LATENCY slots
    (inputs : list RenderInput) :
  256 <= GPU_MAX_TEXTURE_SIZE ->
  let pass :=
    run GPU_MAX_TEXTURE_SIZE GPU_ASYNC_LATENCY inputs (new_pass slots) in
  (Forall drawn_once inputs ->
   forall key,
     is_Some (Objects (surfaceAtlasData pass) !! key) <->
     exists i p, (i < 6)%nat /\
                 object_tile (surfaceAtlasData pass) key i = Some p) /\
  (forall (inp : RenderInput) (c : RasterizeCall) o,
     let reached := draw_atlas GPU_MAX_TEXTURE_SIZE inp pass in
     reached.2 = false ->
     Objects (surfaceAtlasData reached.1) !! actorObject c = None ->
     Objects (surfaceAtlasData (RasterizeActor c reached.1)) !! actorObject c
     = Some o ->
     has_tile o).
Proof.
  intros Hmax pass.
  assert (atlas_inv (surfaceAtlasData pass)) as Hinv
    by (apply run_inv; [done|apply new_pass_inv]).
  split.
  - intros Honce key.
    assert (cache_tidy (surfaceAtlasData pass)) as Htidy.
    { apply run_tidy; [done|done|apply new_pass_inv|].
      by apply cache_tidy_empty. }
    rewrite has_tile_object_tile. split.
    + intros [o Ho]. exists o. split; [done|]. by apply (Htidy key o).
    + intros (o & Ho & _). eauto.
  - intros inp c o reached Hok Hnone Ho.
    destruct (draw_atlas_inv GPU_MAX_TEXTURE_SIZE Hmax inp pass Hinv)
      as [Hinv1 Hroot1].
    fold reached in Hinv1, Hroot1. specialize (Hroot1 Hok).
    destruct (RasterizeActor_entries c reached.1 Hinv1 Hroot1) as [_ Hself].
    destruct (Hself o Ho) as [?|(o0 & Ho0 & _)]; [done|congruence].
Qed.

Lemma entries_have_tiles_witness :
  let d := surfaceAtlasData (run 8192 2 [frame 1 [crate]; frame 2 [speck]]
                               (new_pass 4)) in
  Forall drawn_once [frame 1 [crate]; frame 2 [speck]] /\
  (is_Some (Objects d !! 100) <->
   exists i p, (i < 6)%nat /\ object_tile d 100 i = Some p).
Proof.
  intros d.
  assert (Forall drawn_once [frame 1 [crate]; frame 2 [speck]]) as Honce.
  { repeat constructor; intros Hin; by apply elem_of_nil in Hin. }
  split; [exact Honce|].
  exact (proj1 (entries_have_tiles 8192 2 4 [frame 1 [crate]; frame 2 [speck]]
                  ltac:(lia)) Honce 100).
Defined.

(** The invariant fails when an object is rasterized twice in a frame:
    the first call marks the entry as used, the second one drops every
    tile, and the removal pass keeps the entry. *)
Lemma entry_without_tiles :
  let d := surfaceAtlasData (run 8192 2 [frame 1 [crate; speck]] (new_pass 4)) in
  ~ (is_Some (Objects d !! 100) <->
     exists i p, (i < 6)%nat /\ object_tile d 100 i = Some p).
Proof.
  intros d [Hex _].
  destruct Hex as (i & p & Hi & Hp).
  - eexists. vm_compute. reflexivity.
  - do 6 (destruct i as [|i]; [vm_compute in Hp; discriminate Hp|]). lia.
Qed.

(** *** The redraw schedule *)

Lemma land_bounds a b : 0 <= b -> 0 <= Z.land a b <= b.
Proof.
  intros Hb. apply Z.ldiff_le; [done|].
  apply Z.bits_inj'. intros n Hn.
  rewrite Z.ldiff_spec, Z.land_spec, Z.bits_0.
  by destruct (Z.testbit a n), (Z.testbit b n).
Qed.

Lemma redraw_period_bounds a :
  redrawFramesCount a <= redraw_period a <= 2 * redrawFramesCount a.
Proof.
  unfold redraw_period.
  assert (0 <= redrawFramesCount a)
    by (unfold redrawFramesCount; case_match; lia).
  pose proof (land_bounds (ID_D a) (redrawFramesCount a)). lia.
Qed.

Lemma insert_face_exists c j res st :
  (anyTile st = true -> is_Some (Objects (loop_data st) !! actorObject c)) ->
  anyTile (insert_face c j res st) = true ->
  is_Some (Objects (loop_data (insert_face c j res st)) !! actorObject c).
Proof.
  destruct st as [d a b]. unfold insert_face. simpl.
  destruct (AtlasTiles d) as [root|]; [|done].
  destruct (RectPack.Insert root res res 0) as [[q root']|]; simpl.
  - intros _ _. rewrite lookup_insert_eq. eauto.
  - intros Hst Ha. rewrite lookup_alter_eq. apply fmap_is_Some. auto.
Qed.

Lemma RasterizeActor_face_exists c st j :
  (anyTile st = true -> is_Some (Objects (loop_data st) !! actorObject c)) ->
  anyTile (RasterizeActor_face c st j) = true ->
  is_Some (Objects (loop_data (RasterizeActor_face c st j)) !! actorObject c).
Proof.
  intros Hst. unfold RasterizeActor_face.
  destruct (negb _); [done|]. destruct (_ <? 4).
  - destruct (object_tile (loop_data st) (actorObject c) j) as [tile|];
      [|done]. simpl. intros Ha. rewrite lookup_alter_eq.
    apply fmap_is_Some. auto.
  - destruct (object_tile (loop_data st) (actorObject c) j) as [tile|] eqn:Et.
    + case_match.
      * intros _. simpl. apply object_tile_Some in Et as (o & -> & _). eauto.
      * apply insert_face_exists. simpl. auto.
    + by apply insert_face_exists.
Qed.

Lemma RasterizeActor_faces_exists c d :
  anyTile (RasterizeActor_faces c d) = true ->
  is_Some (Objects (loop_data (RasterizeActor_faces c d)) !! actorObject c).
Proof.
  unfold RasterizeActor_faces.
  apply (foldl_faces_inv c (fun st =>
    anyTile st = true -> is_Some (Objects (loop_data st) !! actorObject c)));
    [apply faces_in_range| |done].
  intros st i _. apply RasterizeActor_face_exists.
Qed.

(** C8: an object that has a tile after its faces were processed is
    redrawn with a period of 120 frames when its actor has the static
    lightmap flag and of 4 frames otherwise, lengthened by the bits that
    the last word of the actor's identifier shares with the period, so by
    at most the period itself and differently for different actors.  Once
    the frames since [LastFrameDirty] reach this period, the object is
    queued as dirty and its [LastFrameDirty] becomes the current frame,
    whether or not a tile was inserted; below the period, and without an
    insertion, it is not queued. *)
Theorem redraw_schedule :
  (forall (c : RasterizeCall) (pass : GlobalSurfaceAtlasPass),
     let st := RasterizeActor_faces c (surfaceAtlasData pass) in
     let d := loop_data st in
     let pass' := RasterizeActor c pass in
     anyTile st = true ->
     exists o,
       Objects d !! actorObject c = Some o /\
       redrawFramesCount (actor c)
       = (if StaticLightmap (actor c) then 120 else 4) /\
       redraw_period (actor c)
       = redrawFramesCount (actor c)
         + Z.land (ID_D (actor c)) (redrawFramesCount (actor c)) /\
       redrawFramesCount (actor c) <= redraw_period (actor c)
         <= 2 * redrawFramesCount (actor c) /\
       (redraw_period (actor c) <= sub64 (CurrentFrame d) (LastFrameDirty o) ->
        Objects (surfaceAtlasData pass') !! actorObject c
        = Some (mkObject (CurrentFrame d) (CurrentFrame d)
                  (Some (actor c)) (Tiles o)) /\
        dirtyObjectsBuffer pass' = dirtyObjectsBuffer pass ++ [actorObject c]) /\
       (sub64 (CurrentFrame d) (LastFrameDirty o) < redraw_period (actor c) ->
        dirty st = false ->
        Objects (surfaceAtlasData pass') !! actorObject c
        = Some (mkObject (CurrentFrame d) (LastFrameDirty o)
                  (Some (actor c)) (Tiles o)) /\
        dirtyObjectsBuffer pass' = dirtyObjectsBuffer pass)) /\
  (forall ptr static,
     redraw_period (mkActor ptr 0 static)
     <> redraw_period (mkActor ptr 12 static)).
Proof.
  split.
  - intros c pass st d pass' Ha.
    pose proof (RasterizeActor_faces_exists c (surfaceAtlasData pass)) as Hex.
    subst pass' d. unfold RasterizeActor. fold st in Hex |- *.
    clearbody st. destruct (Hex Ha) as [o Ho].
    exists o. split; [done|]. split; [done|]. split; [done|].
    split; [apply redraw_period_bounds|].
    unfold RasterizeActor_mark. rewrite Ha, Ho. simpl.
    unfold redraw_due, mark_used, GLOBAL_SURFACE_ATLAS_DEBUG_FORCE_REDRAW_TILES.
    split.
    + intros Hdue. apply Z.leb_le in Hdue. rewrite Hdue.
      rewrite orb_true_r. simpl. by rewrite lookup_insert_eq.
    + intros Hdue Hd. apply Z.leb_gt in Hdue. rewrite Hdue, Hd. simpl.
      by rewrite lookup_insert_eq.
  - intros ptr static. unfold redraw_period, redrawFramesCount. simpl.
    by destruct static.
Qed.

Lemma redraw_schedule_witness :
  let pass := run 8192 2 [frame 1 [crate]; frame 2 [crate]; frame 3 [crate];
                          frame 4 [crate]] (new_pass 4) in
  let pass' := RasterizeActor crate
                 (with_data (set_CurrentFrame 9 (surfaceAtlasData pass)) pass) in
  redraw_period (actor crate) = 8 /\
  dirtyObjectsBuffer pass' = dirtyObjectsBuffer pass ++ [100].
Proof.
  intros pass pass'. split; [reflexivity|].
  destruct (proj1 redraw_schedule crate
              (with_data (set_CurrentFrame 9 (surfaceAtlasData pass)) pass))
    as (o & Ho & _ & _ & _ & Hdue & _).
  { vm_compute. reflexivity. }
  vm_compute in Ho. injection Ho as <-.
  apply Hdue. vm_compute. discriminate.
Defined.

(** *** The counter readback *)

Lemma Render_culls MAX LAT inp pass :
  passSkipped inp = false ->
  CustomBuffer_LastFrameUsed (surfaceAtlasData pass) <> FrameCount inp ->
  (update_atlas MAX inp pass).2 = false ->
  Render MAX LAT inp pass
  = (culled_pass (cull_objects LAT inp (update_atlas MAX inp pass).1),
     if culled_failed (cull_objects LAT inp (update_atlas MAX inp pass).1)
     then true
     else notReady (cull_objects LAT inp (update_atlas MAX inp pass).1)).
Proof.
  intros Hskip Hframe Hok. unfold Render. rewrite Hskip.
  destruct (_ =? _) eqn:E; [zbool; done|].
  destruct (update_atlas MAX inp pass) as [pass1 failed]. simpl in *.
  by rewrite Hok.
Qed.

Lemma read_counter_stale inp index capacity :
  (read_counter inp index capacity).2 = true ->
  mappedCounters inp = None \/
  exists data, mappedCounters inp = Some data /\
               default 0 (data !! Z.to_nat index) <= 0.
Proof.
  unfold read_counter. destruct (index =? -1); [done|].
  destruct (mappedCounters inp) as [data|]; [|by left].
  destruct (0 <? _) eqn:E; [done|]. zbool. right. eauto.
Qed.

Lemma read_counter_sample inp index capacity data :
  index <> -1 -> mappedCounters inp = Some data ->
  0 < default 0 (data !! Z.to_nat index) ->
  read_counter inp index capacity
  = (wrap32 (default 0 (data !! Z.to_nat index) * sizeof_Float4), false).
Proof.
  intros Hidx Hmap Hcnt. unfold read_counter.
  destruct (index =? -1) eqn:E; [zbool; done|]. rewrite Hmap.
  apply Z.ltb_lt in Hcnt. by rewrite Hcnt.
Qed.

Lemma allocate_culled_spec inp capacity d :
  ((allocate_culled inp capacity d).2 = true ->
   culledObjectsInitFailed inp = true) /\
  (culledObjectsInitFailed inp = false ->
   (allocate_culled inp capacity d).2 = false /\
   culled_size (allocate_culled inp capacity d).1
   = if culled_size d <? capacity then capacity else culled_size d).
Proof.
  unfold allocate_culled, culled_size.
  destruct (default 0 (CulledObjectsBuffer d) <? capacity);
    destruct (culledObjectsInitFailed inp); simpl; done.
Qed.

(** The culling phase when it runs and the readback buffer is there. *)
Lemma cull_objects_runs LAT inp pass :
  Objects (surfaceAtlasData pass) <> ∅ ->
  ChunksBuffer (surfaceAtlasData pass) = true ->
  negb (culledObjectsSizeBuffer pass) && sizeBufferInitFailed inp = false ->
  let d := surfaceAtlasData pass in
  let read := read_counter inp (CulledObjectsCounterIndex d)
                (estimatedCapacity inp) in
  let r := cull_objects LAT inp pass in
  exists d2,
    CulledObjectsBuffer d2 = CulledObjectsBuffer d /\
    culled_failed r = (allocate_culled inp (aligned_capacity read.1) d2).2 /\
    notReady r
    = (if CulledObjectsCounterIndex d =? -1 then true else read.2) /\
    objectsBufferCapacity r = aligned_capacity read.1 /\
    surfaceAtlasData (culled_pass r)
    = (allocate_culled inp (aligned_capacity read.1) d2).1.
Proof.
  intros Hobj Hchunks Hsize d read r. subst r. unfold cull_objects.
  destruct (decide (Objects (surfaceAtlasData pass) = ∅)); [done|].
  rewrite Hchunks. unfold readback. rewrite Hsize. fold d. fold read.
  destruct read as [capacity stale]. simpl.
  set (d2 := set_CulledObjectsCounterIndex _ d).
  exists d2. split; [done|].
  by destruct (allocate_culled inp (aligned_capacity capacity) d2).
Qed.

(** C9: on a frame on which [Render] culls the objects, the value returned
    is [notReady] unless a GPU buffer could not be initialised; a stale
    readback never makes [Render] fail.  [notReady] is true only when no
    counter slot is assigned, or the readback buffer cannot be mapped, or
    the counter read is zero; when a slot is assigned and a non-zero
    counter is read, [notReady] is false and the culled-objects buffer is
    sized for the counter times [sizeof(Float4)] (in [uint32]), aligned. *)
Theorem readback_status GPU_MAX_TEXTURE_SIZE GPU_ASYNC_LATENCY
    (inp : RenderInput) (pass : GlobalSurfaceAtlasPass) :
  let updated := update_atlas GPU_MAX_TEXTURE_SIZE inp pass in
  let d := surfaceAtlasData updated.1 in
  let index := CulledObjectsCounterIndex d in
  let r := cull_objects GPU_ASYNC_LATENCY inp updated.1 in
  let result := Render GPU_MAX_TEXTURE_SIZE GPU_ASYNC_LATENCY inp pass in
  passSkipped inp = false ->
  CustomBuffer_LastFrameUsed (surfaceAtlasData pass) <> FrameCount inp ->
  updated.2 = false ->
  Objects d <> ∅ ->
  ChunksBuffer d = true ->
  result.1 = culled_pass r /\
  (culled_failed r = true ->
   result.2 = true /\
   ((culledObjectsSizeBuffer updated.1 = false /\
     sizeBufferInitFailed inp = true) \/
    culledObjectsInitFailed inp = true)) /\
  (culled_failed r = false ->
   result.2 = notReady r /\
   (notReady r = true ->
    index = -1 \/ mappedCounters inp = None \/
    exists data, mappedCounters inp = Some data /\
                 default 0 (data !! Z.to_nat index) <= 0) /\
   (forall data counter,
      index <> -1 -> mappedCounters inp = Some data ->
      default 0 (data !! Z.to_nat index) = counter -> 0 < counter ->
      notReady r = false /\
      objectsBufferCapacity r
      = aligned_capacity (wrap32 (counter * sizeof_Float4)) /\
      (counter < 2 ^ 28 -> wrap32 (counter * sizeof_Float4) = counter * 16) /\
      (culledObjectsInitFailed inp = false ->
       objectsBufferCapacity r
       <= culled_size (surfaceAtlasData (culled_pass r))))).
Proof.
  intros updated d index r result Hskip Hframe Hok Hobj Hchunks.
  subst result. rewrite (Render_culls _ _ _ _ Hskip Hframe Hok).
  fold updated. fold r. simpl. split; [done|].
  subst r index d. generalize dependent (updated.1). clear updated Hok.
  intros pass1 Hobj Hchunks.
  destruct (negb (culledObjectsSizeBuffer pass1) && sizeBufferInitFailed inp)
    eqn:Esize.
  { assert (culled_failed (cull_objects GPU_ASYNC_LATENCY inp pass1) = true)
      as Hfailed.
    { unfold cull_objects.
      destruct (decide (Objects (surfaceAtlasData pass1) = ∅)); [done|].
      rewrite Hchunks. unfold readback. by rewrite Esize. }
    rewrite Hfailed. split; [|done]. intros _. split; [done|]. left.
    apply andb_true_iff in Esize as [Hs ?]. by apply negb_true_iff in Hs. }
  destruct (cull_objects_runs GPU_ASYNC_LATENCY inp pass1 Hobj Hchunks Esize)
    as (d2 & Hbuf & Hfailed & Hstale & Hcap & Hdata).
  revert Hfailed Hstale Hcap Hdata.
  generalize (cull_objects GPU_ASYNC_LATENCY inp pass1).
  intros r Hfailed Hstale Hcap Hdata.
  set (index := CulledObjectsCounterIndex (surfaceAtlasData pass1)) in *.
  set (read := read_counter inp index (estimatedCapacity inp)) in *.
  destruct (allocate_culled_spec inp (aligned_capacity read.1) d2)
    as [Hinit Halloc].
  split.
  - intros Hf. rewrite Hf. split; [done|]. right. apply Hinit. congruence.
  - intros Hf. rewrite Hf. split; [done|]. split.
    + rewrite Hstale. destruct (index =? -1) eqn:Eidx; [zbool; by left|].
      intros Hread. right. by apply read_counter_stale in Hread.
    + intros data counter Hidx Hmap Hcounter Hpos. subst counter.
      pose proof (read_counter_sample inp index (estimatedCapacity inp) data
                    Hidx Hmap Hpos) as Hread.
      fold read in Hread. rewrite Hread in *. simpl in *.
      split.
      { rewrite Hstale. destruct (index =? -1) eqn:Eidx; [zbool; done|done]. }
      split; [done|]. split.
      { intros Hsmall. unfold wrap32, sizeof_Float4.
        rewrite Z.mod_small; lia. }
      intros Hnofail. destruct (Halloc Hnofail) as [_ Hsz].
      rewrite Hcap, Hdata, Hsz. case_match; zbool; lia.
Qed.

Lemma readback_status_witness :
  let pass := run 8192 2 [frame 3 [crate]] (new_pass 4) in
  let result := Render 8192 2 (frame_read 4 [crate] [25; 0; 0; 0]) pass in
  CulledObjectsCounterIndex (surfaceAtlasData pass) = 0 /\
  result.2 = false /\
  culled_size (surfaceAtlasData result.1) = 4096.
Proof.
  intros pass result. split; [vm_compute; reflexivity|].
  destruct (readback_status 8192 2 (frame_read 4 [crate] [25; 0; 0; 0]) pass)
    as (Hpass & _ & Hready).
  - reflexivity.
  - vm_compute. discriminate.
  - vm_compute. reflexivity.
  - intros Hempty.
    assert (Objects (surfaceAtlasData
              (update_atlas 8192 (frame_read 4 [crate] [25; 0; 0; 0]) pass).1)
            !! 100 = None) as Hnone by (rewrite Hempty; apply lookup_empty).
    vm_compute in Hnone. discriminate Hnone.
  - vm_compute. reflexivity.
  - destruct Hready as (Hres & _ & Hsample); [vm_compute; reflexivity|].
    destruct (Hsample [25; 0; 0; 0] 25) as (Hnot & _ & _ & _).
    + vm_compute. discriminate.
    + reflexivity.
    + vm_compute. reflexivity.
    + lia.
    + fold result in Hres, Hpass. split; [congruence|].
      rewrite Hpass. vm_compute. reflexivity.
Defined.

(** *** The culled-objects buffer only grows *)

Lemma RasterizeActor_keeps_culled_buffer c pass :
  CulledObjectsBuffer (surfaceAtlasData (RasterizeActor c pass))
  = CulledObjectsBuffer (surfaceAtlasData pass).
Proof.
  unfold RasterizeActor.
  assert (CulledObjectsBuffer
            (loop_data (RasterizeActor_faces c (surfaceAtlasData pass)))
          = CulledObjectsBuffer (surfaceAtlasData pass)) as Hf.
  { unfold RasterizeActor_faces.
    apply (foldl_faces_inv c (fun st =>
      CulledObjectsBuffer (loop_data st)
      = CulledObjectsBuffer (surfaceAtlasData pass)));
      [apply faces_in_range| |done].
    intros [d a b] i _ Hst. simpl in *.
    unfold RasterizeActor_face, insert_face. simpl.
    repeat case_match; simpl; done. }
  revert Hf. generalize (RasterizeActor_faces c (surfaceAtlasData pass)).
  intros st Hst. unfold RasterizeActor_mark. repeat case_match; simpl; done.
Qed.

Lemma draw_calls_keep_culled_buffer calls pass :
  CulledObjectsBuffer
    (surfaceAtlasData (foldl (fun p c => RasterizeActor c p) pass calls))
  = CulledObjectsBuffer (surfaceAtlasData pass).
Proof.
  revert pass. induction calls as [|c calls IH]; simpl; intros pass; [done|].
  by rewrite IH, RasterizeActor_keeps_culled_buffer.
Qed.

Lemma update_atlas_keeps_culled_buffer MAX inp pass :
  CulledObjectsBuffer (surfaceAtlasData (update_atlas MAX inp pass).1)
  = CulledObjectsBuffer (surfaceAtlasData pass).
Proof.
  unfold update_atlas, draw_atlas.
  set (d0 := set_CustomBuffer_LastFrameUsed (FrameCount inp) (surfaceAtlasData pass)).
  assert (CulledObjectsBuffer (init_buffers MAX inp d0).1
          = CulledObjectsBuffer (surfaceAtlasData pass)) as Hinit
    by (unfold init_buffers; repeat case_match; simpl; done).
  destruct (init_buffers MAX inp d0) as [d1 failed]. simpl in Hinit.
  destruct failed; simpl; [done|].
  unfold draw_objects. rewrite draw_calls_keep_culled_buffer. simpl.
  unfold ensure_atlas. by case_match.
Qed.

Lemma cull_objects_grows LAT inp pass :
  culledObjectsInitFailed inp = false ->
  culled_size (surfaceAtlasData pass)
  <= culled_size (surfaceAtlasData (culled_pass (cull_objects LAT inp pass))).
Proof.
  intros Hinit. unfold cull_objects. case_match; [done|].
  set (r := if ChunksBuffer (surfaceAtlasData pass) then _ else _).
  assert (CulledObjectsBuffer (surfaceAtlasData (culled_pass r))
          = CulledObjectsBuffer (surfaceAtlasData pass)) as Hr.
  { subst r. destruct (ChunksBuffer (surfaceAtlasData pass)); [|done].
    apply readback_cache. }
  destruct (culled_failed r).
  { unfold culled_size. by rewrite Hr. }
  destruct (allocate_culled_spec inp
              (aligned_capacity (objectsBufferCapacity r))
              (surfaceAtlasData (culled_pass r))) as [_ Halloc].
  destruct (Halloc Hinit) as [_ Hsz].
  destruct (allocate_culled _ _ _) as [d' failed]. simpl in *.
  rewrite Hsz. unfold culled_size at 1. rewrite <- Hr.
  fold (culled_size (surfaceAtlasData (culled_pass r))).
  case_match; zbool; lia.
Qed.

Lemma Render_grows MAX LAT inp pass :
  culledObjectsInitFailed inp = false ->
  culled_size (surfaceAtlasData pass)
  <= culled_size (surfaceAtlasData (Render MAX LAT inp pass).1).
Proof.
  intros Hinit. unfold Render.
  destruct (passSkipped inp); [done|]. destruct (_ =? _); [done|].
  pose proof (update_atlas_keeps_culled_buffer MAX inp pass) as Hupd.
  destruct (update_atlas MAX inp pass) as [pass1 failed]. simpl in Hupd.
  destruct failed; simpl.
  - unfold culled_size. by rewrite Hupd.
  - pose proof (cull_objects_grows LAT inp pass1 Hinit) as Hcull.
    unfold culled_size in *. by rewrite Hupd in Hcull.
Qed.

Lemma aligned_capacity_spec capacity :
  0 <= aligned_capacity capacity <= MAX_int32 /\
  (aligned_capacity capacity mod 4096 = 0 \/
   aligned_capacity capacity = MAX_int32).
Proof.
  unfold aligned_capacity, Math.Min, Math.AlignUp, wrap32, MAX_int32.
  set (v := (capacity + (4096 - 1)) mod 2 ^ 32).
  assert (0 <= v < 2 ^ 32) by (apply Z.mod_pos_bound; lia).
  assert (0 <= v / 4096 * 4096).
  { pose proof (Z.div_pos v 4096 ltac:(lia) ltac:(lia)). lia. }
  case_match; zbool.
  - split; [lia|]. left. apply Z.mod_mul. lia.
  - split; [lia|]. by right.
Qed.

Lemma aligned_capacity_next capacity :
  0 <= capacity <= 2 ^ 32 - 4096 ->
  aligned_capacity capacity = Z.min (next_multiple_4096 capacity) MAX_int32 /\
  capacity <= next_multiple_4096 capacity < capacity + 4096 /\
  next_multiple_4096 capacity mod 4096 = 0.
Proof.
  intros Hc. unfold aligned_capacity, Math.Min, Math.AlignUp, wrap32,
    next_multiple_4096.
  replace (capacity + (4096 - 1)) with (capacity + 4095) by lia.
  rewrite Z.mod_small by lia.
  pose proof (Z.div_mod (capacity + 4095) 4096 ltac:(lia)) as Hdiv.
  pose proof (Z.mod_pos_bound (capacity + 4095) 4096 ltac:(lia)) as Hmod.
  split; [|split].
  - case_match; zbool; lia.
  - lia.
  - apply Z.mod_mul. lia.
Qed.

Lemma cull_objects_size LAT inp pass :
  let r := cull_objects LAT inp pass in
  let request := requested_capacity LAT inp pass in
  Objects (surfaceAtlasData pass) <> ∅ -> culled_failed r = false ->
  objectsBufferCapacity r = aligned_capacity request /\
  culled_size (surfaceAtlasData (culled_pass r))
  = Z.max (culled_size (surfaceAtlasData pass)) (aligned_capacity request).
Proof.
  intros r request Hobjs. subst r request.
  unfold cull_objects, requested_capacity. rewrite decide_False by done.
  set (r := if ChunksBuffer (surfaceAtlasData pass) then _ else _).
  assert (CulledObjectsBuffer (surfaceAtlasData (culled_pass r))
          = CulledObjectsBuffer (surfaceAtlasData pass)) as Hr.
  { subst r. destruct (ChunksBuffer (surfaceAtlasData pass)); [|done].
    apply readback_cache. }
  assert (objectsBufferCapacity r
          = (if ChunksBuffer (surfaceAtlasData pass)
             then objectsBufferCapacity
                    (readback LAT inp (estimatedCapacity inp) pass)
             else estimatedCapacity inp)) as Hreq
    by (subst r; by destruct (ChunksBuffer (surfaceAtlasData pass))).
  rewrite <- Hreq. clear Hreq.
  destruct (culled_failed r) eqn:Hfailed; [intros Hno; congruence|].
  unfold allocate_culled.
  change (default 0 (CulledObjectsBuffer (surfaceAtlasData (culled_pass r))))
    with (culled_size (surfaceAtlasData (culled_pass r))).
  assert (culled_size (surfaceAtlasData (culled_pass r))
          = culled_size (surfaceAtlasData pass)) as ->
    by (unfold culled_size; by rewrite Hr).
  destruct (culled_size (surfaceAtlasData pass) <? _) eqn:E; zbool.
  - destruct (culledObjectsInitFailed inp); simpl; [done|].
    intros _. split; [done|]. unfold culled_size at 1. simpl. lia.
  - simpl. intros _. split; [done|]. unfold culled_size at 1. simpl.
    fold (culled_size (surfaceAtlasData pass)). lia.
Qed.

(** C10: over any sequence of frames in which the initialisation of the
    culled-objects buffer does not fail, the size of the buffer never
    decreases.  The capacity asked for is capped at [MAX_int32] and, below
    the cap, a multiple of 4096; for a request of at most [2 ^ 32 - 4096]
    it is the next multiple of 4096 at or above the request, capped.  The
    buffer is initialised again, with that capacity, only when it is
    smaller: a frame that culls objects and does not fail leaves the buffer
    with the larger of its size and the aligned request.  Clearing the
    cache on a resolution change or a defragmentation leaves the buffer
    alone. *)
Theorem culled_buffer_grows GPU_MAX_TEXTURE_SIZE GPU_ASYNC_LATENCY
    (inputs : list RenderInput) (pass : GlobalSurfaceAtlasPass) :
  Forall (fun inp => culledObjectsInitFailed inp = false) inputs ->
  culled_size (surfaceAtlasData pass)
  <= culled_size
       (surfaceAtlasData
          (run GPU_MAX_TEXTURE_SIZE GPU_ASYNC_LATENCY inputs pass)) /\
  (forall capacity,
     0 <= aligned_capacity capacity <= MAX_int32 /\
     (aligned_capacity capacity mod 4096 = 0 \/
      aligned_capacity capacity = MAX_int32)) /\
  (forall capacity,
     0 <= capacity <= 2 ^ 32 - 4096 ->
     aligned_capacity capacity
     = Z.min (next_multiple_4096 capacity) MAX_int32 /\
     capacity <= next_multiple_4096 capacity < capacity + 4096 /\
     next_multiple_4096 capacity mod 4096 = 0) /\
  (forall inp capacity d,
     culledObjectsInitFailed inp = false ->
     culled_size (allocate_culled inp capacity d).1
     = if culled_size d <? capacity then capacity else culled_size d) /\
  (forall inp before,
     let r := cull_objects GPU_ASYNC_LATENCY inp before in
     let request := requested_capacity GPU_ASYNC_LATENCY inp before in
     Objects (surfaceAtlasData before) <> ∅ -> culled_failed r = false ->
     objectsBufferCapacity r = aligned_capacity request /\
     culled_size (surfaceAtlasData (culled_pass r))
     = Z.max (culled_size (surfaceAtlasData before))
         (aligned_capacity request)) /\
  (forall F d,
     CulledObjectsBuffer (Clear F d) = CulledObjectsBuffer d /\
     CulledObjectsBuffer (ClearObjects F d) = CulledObjectsBuffer d).
Proof.
  intros Hinit. split; [|split; [|split; [|split; [|split]]]].
  - revert pass. induction Hinit as [|inp inputs Hinp Hinit IH]; simpl;
      intros pass; [done|].
    etrans; [|apply IH]. by apply Render_grows.
  - apply aligned_capacity_spec.
  - apply aligned_capacity_next.
  - intros inp capacity d Hok. by apply allocate_culled_spec.
  - intros inp before. apply cull_objects_size.
  - done.
Qed.

Lemma culled_buffer_grows_witness :
  let pass := run 8192 2 [frame 3 [crate]; frame_read 4 [crate] [1000; 0; 0; 0]]
                (new_pass 4) in
  culled_size (surfaceAtlasData pass) = 16384 /\
  16384 <= culled_size
             (surfaceAtlasData
                (run 8192 2 [frame_read 5 [crate] [25; 0; 0; 0]; frame 6 []] pass)).
Proof.
  intros pass.
  assert (culled_size (surfaceAtlasData pass) = 16384) as Hsize
    by (vm_compute; reflexivity).
  split; [exact Hsize|]. rewrite <- Hsize.
  refine (proj1 (culled_buffer_grows 8192 2
                   [frame_read 5 [crate] [25; 0; 0; 0]; frame 6 []] pass _)).
  repeat constructor.
Defined.

(** Without the provisos the statement fails.  After two frames the buffer
    has 16384 bytes; a frame that asks for more and whose initialisation
    of the buffer fails leaves it without storage, so its size has
    decreased.  And a frame whose counter gives a request of
    [2 ^ 32 - 16] bytes sizes the buffer for 0 bytes: line 664 computes in
    [uint32], where the next multiple of 4096 wraps around. *)
Lemma culled_buffer_shrinks :
  let pass := run 8192 2 [frame 3 [crate]; frame_read 4 [crate] [1000; 0; 0; 0]]
                (new_pass 4) in
  let failing := frame_read_failing 5 [crate] [2000; 0; 0; 0] in
  let large := frame_read 5 [crate] [268435455; 0; 0; 0] in
  let updated := (update_atlas 8192 large pass).1 in
  (culled_size (surfaceAtlasData pass) = 16384 /\
   culled_size (surfaceAtlasData (run 8192 2 [failing] pass)) = 0 /\
   ~ culled_size (surfaceAtlasData pass)
     <= culled_size (surfaceAtlasData (run 8192 2 [failing] pass))) /\
  (requested_capacity 2 large updated = 4294967280 /\
   objectsBufferCapacity (cull_objects 2 large updated) = 0 /\
   ~ (requested_capacity 2 large updated
      <= objectsBufferCapacity (cull_objects 2 large updated) \/
      objectsBufferCapacity (cull_objects 2 large updated) = MAX_int32)).
Proof.
  intros pass failing large updated.
  assert (culled_size (surfaceAtlasData pass) = 16384) as Hsize
    by (vm_compute; reflexivity).
  assert (culled_size (surfaceAtlasData (run 8192 2 [failing] pass)) = 0)
    as Hfailed by (vm_compute; reflexivity).
  assert (requested_capacity 2 large updated = 4294967280) as Hreq
    by (vm_compute; reflexivity).
  assert (objectsBufferCapacity (cull_objects 2 large updated) = 0) as Hcap
    by (vm_compute; reflexivity).
  split.
  - split; [exact Hsize|]. split; [exact Hfailed|]. rewrite Hsize, Hfailed. lia.
  - split; [exact Hreq|]. split; [exact Hcap|]. rewrite Hreq, Hcap.
    unfold MAX_int32. lia.
Qed.

(** ** What a call leaves alone *)

Lemma same_settings_refl d : same_settings d d.
Proof. by repeat split. Qed.

Lemma same_settings_trans d1 d2 d3 :
  same_settings d1 d2 -> same_settings d2 d3 -> same_settings d1 d3.
Proof.
  unfold same_settings. intros (?&?&?&?&?&?&?&?) (?&?&?&?&?&?&?&?).
  repeat split; try congruence; tauto.
Qed.

Lemma insert_face_settings c i res st :
  same_settings (loop_data st) (loop_data (insert_face c i res st)).
Proof.
  destruct st as [d a b]. unfold insert_face. simpl.
  destruct (AtlasTiles d) as [root|] eqn:Hroot; [|apply same_settings_refl].
  destruct (RectPack.Insert root res res 0) as [[q root']|]; simpl;
    repeat split; simpl; rewrite ?Hroot; eauto.
Qed.

Lemma free_tile_settings tile d : same_settings d (free_tile tile d).
Proof.
  repeat split; simpl; try done; rewrite fmap_is_Some; done.
Qed.

Lemma set_tile_settings key i v d : same_settings d (set_tile key i v d).
Proof. by repeat split. Qed.

Lemma RasterizeActor_face_settings c st i :
  same_settings (loop_data st) (loop_data (RasterizeActor_face c st i)).
Proof.
  unfold RasterizeActor_face.
  destruct (negb _); [apply same_settings_refl|].
  destruct (_ <? 4).
  - destruct (object_tile _ _ _) as [tile|]; [|apply same_settings_refl].
    simpl. eapply same_settings_trans; [apply (free_tile_settings tile)|].
    apply set_tile_settings.
  - destruct (object_tile _ _ _) as [tile|]; [|apply insert_face_settings].
    case_match; [apply same_settings_refl|].
    eapply same_settings_trans; [apply (free_tile_settings tile)|].
    apply (insert_face_settings c i _ (mkLoop _ _ _)).
Qed.

Lemma RasterizeActor_faces_settings c d :
  same_settings d (loop_data (RasterizeActor_faces c d)).
Proof.
  unfold RasterizeActor_faces.
  apply (foldl_faces_inv c (fun st => same_settings d (loop_data st)));
    [apply faces_in_range| |apply same_settings_refl].
  intros st i _ Hst. eapply same_settings_trans; [exact Hst|].
  apply RasterizeActor_face_settings.
Qed.

Lemma RasterizeActor_mark_settings c st pass :
  same_settings (loop_data st) (surfaceAtlasData (RasterizeActor_mark c st pass)) /\
  culledObjectsSizeBuffer (RasterizeActor_mark c st pass)
  = culledObjectsSizeBuffer pass /\
  culledObjectsSizeFrames (RasterizeActor_mark c st pass)
  = culledObjectsSizeFrames pass.
Proof.
  unfold RasterizeActor_mark. repeat case_match; simpl; by repeat split.
Qed.

Lemma RasterizeActor_settings c pass :
  same_settings (surfaceAtlasData pass) (surfaceAtlasData (RasterizeActor c pass)) /\
  culledObjectsSizeBuffer (RasterizeActor c pass) = culledObjectsSizeBuffer pass /\
  culledObjectsSizeFrames (RasterizeActor c pass) = culledObjectsSizeFrames pass.
Proof.
  unfold RasterizeActor.
  pose proof (RasterizeActor_faces_settings c (surfaceAtlasData pass)) as Hf.
  revert Hf. generalize (RasterizeActor_faces c (surfaceAtlasData pass)).
  intros st Hst.
  destruct (RasterizeActor_mark_settings c st pass) as (Hm & Hb & Hfr).
  split; [by eapply same_settings_trans|done].
Qed.

Lemma draw_calls_settings calls pass :
  let pass' := foldl (fun p c => RasterizeActor c p) pass calls in
  same_settings (surfaceAtlasData pass) (surfaceAtlasData pass') /\
  culledObjectsSizeBuffer pass' = culledObjectsSizeBuffer pass /\
  culledObjectsSizeFrames pass' = culledObjectsSizeFrames pass.
Proof.
  revert pass. induction calls as [|c calls IH]; simpl; intros pass.
  { split; [apply same_settings_refl|done]. }
  destruct (IH (RasterizeActor c pass)) as (Hs & Hb & Hf).
  destruct (RasterizeActor_settings c pass) as (Hs1 & Hb1 & Hf1).
  split; [by eapply same_settings_trans|]. split; congruence.
Qed.

Lemma draw_objects_settings inp pass :
  let pass' := draw_objects inp pass in
  same_settings (set_CurrentFrame (FrameCount inp) (surfaceAtlasData pass))
    (surfaceAtlasData pass') /\
  culledObjectsSizeBuffer pass' = culledObjectsSizeBuffer pass /\
  culledObjectsSizeFrames pass' = culledObjectsSizeFrames pass.
Proof.
  unfold draw_objects.
  apply (draw_calls_settings (drawn inp)
           (mkPass (set_CurrentFrame (FrameCount inp) (surfaceAtlasData pass)) []
              (culledObjectsSizeBuffer pass) (culledObjectsSizeFrames pass))).
Qed.

(** ** The frame stamp, the resolution and the counter slot *)

Lemma ensure_atlas_settings res d :
  CustomBuffer_LastFrameUsed (ensure_atlas res d) = CustomBuffer_LastFrameUsed d /\
  Resolution (ensure_atlas res d) = Resolution d /\
  ChunksBuffer (ensure_atlas res d) = ChunksBuffer d /\
  CulledObjectsCounterIndex (ensure_atlas res d) = CulledObjectsCounterIndex d /\
  Objects (ensure_atlas res d) = Objects d.
Proof. unfold ensure_atlas. by case_match. Qed.

Lemma update_atlas_buffer_frame MAX inp pass :
  CustomBuffer_LastFrameUsed (surfaceAtlasData (update_atlas MAX inp pass).1)
  = FrameCount inp.
Proof.
  unfold update_atlas, draw_atlas.
  pose proof (init_buffers_entries MAX inp
    (set_CustomBuffer_LastFrameUsed (FrameCount inp) (surfaceAtlasData pass)))
    as (_ & _ & Hframe).
  destruct (init_buffers MAX inp _) as [d1 failed]. simpl in Hframe.
  destruct failed; simpl; [done|].
  destruct (draw_objects_settings inp
              (with_data (ensure_atlas (atlas_resolution MAX inp) d1) pass))
    as ((Hf & _) & _).
  rewrite Hf. simpl.
  by destruct (ensure_atlas_settings (atlas_resolution MAX inp) d1) as (-> & _).
Qed.

Lemma Render_buffer_frame MAX LAT inp pass :
  passSkipped inp = false ->
  CustomBuffer_LastFrameUsed (surfaceAtlasData (Render MAX LAT inp pass).1)
  = FrameCount inp.
Proof.
  intros Hskip. unfold Render. rewrite Hskip.
  destruct (_ =? _) eqn:E; [zbool; done|].
  pose proof (update_atlas_buffer_frame MAX inp pass) as Hupd.
  destruct (update_atlas MAX inp pass) as [pass1 failed]. simpl in Hupd.
  destruct failed; simpl; [done|].
  by rewrite cull_objects_keeps_buffer_frame.
Qed.

(** X1: once a call of [Render] has passed the early exits of lines
    326-335, every further call in the same frame that passes them too
    returns [false] at once and changes nothing, whether the first call
    went through or returned [true] because a buffer could not be
    initialised: the frame stamp is written before any buffer is touched.
    A call that takes one of the early exits returns [true] and changes
    nothing, not even the stamp, so the next call of the frame is treated
    as its first. *)
Theorem Render_same_frame GPU_MAX_TEXTURE_SIZE GPU_ASYNC_LATENCY :
  (forall (inp inp' : RenderInput) (pass : GlobalSurfaceAtlasPass),
     passSkipped inp = false -> passSkipped inp' = false ->
     FrameCount inp' = FrameCount inp ->
     let first := Render GPU_MAX_TEXTURE_SIZE GPU_ASYNC_LATENCY inp pass in
     Render GPU_MAX_TEXTURE_SIZE GPU_ASYNC_LATENCY inp' first.1
     = (first.1, false)) /\
  (forall (inp inp' : RenderInput) (pass : GlobalSurfaceAtlasPass),
     passSkipped inp = true ->
     let first := Render GPU_MAX_TEXTURE_SIZE GPU_ASYNC_LATENCY inp pass in
     first = (pass, true) /\
     Render GPU_MAX_TEXTURE_SIZE GPU_ASYNC_LATENCY inp' first.1
     = Render GPU_MAX_TEXTURE_SIZE GPU_ASYNC_LATENCY inp' pass).
Proof.
  split.
  - intros inp inp' pass Hskip Hskip' Hframe first.
    pose proof (Render_buffer_frame GPU_MAX_TEXTURE_SIZE GPU_ASYNC_LATENCY
                  inp pass Hskip) as Hstamp.
    fold first in Hstamp. revert Hstamp. generalize (first.1). clear first.
    intros pass1 Hstamp. unfold Render. rewrite Hskip', Hstamp, Hframe.
    by rewrite Z.eqb_refl.
  - intros inp inp' pass Hskip first. subst first.
    assert (Render GPU_MAX_TEXTURE_SIZE GPU_ASYNC_LATENCY inp pass
            = (pass, true)) as ->
      by (unfold Render; by rewrite Hskip).
    done.
Qed.

Lemma Render_same_frame_witness :
  let first := Render 8192 2 (frame_without_textures 1 [crate]) (new_pass 4) in
  first.2 = true /\
  Render 8192 2 (frame 1 [crate]) first.1 = (first.1, false).
Proof.
  intros first. split; [vm_compute; reflexivity|].
  exact (proj1 (Render_same_frame 8192 2) (frame_without_textures 1 [crate])
           (frame 1 [crate]) (new_pass 4) eq_refl eq_refl eq_refl).
Defined.

(** *** The counter slot *)

Lemma find_free_slot_range LAT currentFrame frames :
  find_free_slot LAT currentFrame frames = -1 \/
  0 <= find_free_slot LAT currentFrame frames < Z.of_nat (length frames).
Proof.
  unfold find_free_slot.
  destruct (list_find _ frames) as [[i f]|] eqn:Hfind; [right|by left].
  apply list_find_Some in Hfind as (Hi & _).
  apply lookup_lt_Some in Hi. lia.
Qed.

Lemma init_buffers_slot MAX inp d :
  CulledObjectsCounterIndex (init_buffers MAX inp d).1
  = CulledObjectsCounterIndex d \/
  CulledObjectsCounterIndex (init_buffers MAX inp d).1 = -1.
Proof. unfold init_buffers. repeat case_match; simpl; auto. Qed.

Lemma update_atlas_slot MAX inp pass slots :
  slot_in_range slots pass -> slot_in_range slots (update_atlas MAX inp pass).1.
Proof.
  intros [Hlen Hidx]. unfold update_atlas, draw_atlas.
  pose proof (init_buffers_slot MAX inp
    (set_CustomBuffer_LastFrameUsed (FrameCount inp) (surfaceAtlasData pass)))
    as Hinit.
  destruct (init_buffers MAX inp _) as [d1 failed]. simpl in Hinit.
  assert (CulledObjectsCounterIndex d1 = -1 \/
          0 <= CulledObjectsCounterIndex d1 < Z.of_nat slots) as Hd1
    by (destruct Hinit as [->| ->]; auto).
  destruct failed; simpl; [done|].
  destruct (draw_objects_settings inp
              (with_data (ensure_atlas (atlas_resolution MAX inp) d1) pass))
    as ((_ & _ & _ & _ & _ & Hi & _) & _ & Hf).
  split; simpl; [by rewrite Hf|]. rewrite Hi. simpl.
  by destruct (ensure_atlas_settings (atlas_resolution MAX inp) d1)
    as (_ & _ & _ & -> & _).
Qed.

Lemma readback_slot LAT inp capacity pass slots :
  slot_in_range slots pass ->
  slot_in_range slots (culled_pass (readback LAT inp capacity pass)).
Proof.
  intros [Hlen Hidx]. unfold readback.
  set (frames := if negb (culledObjectsSizeBuffer pass)
                 then replicate (length (culledObjectsSizeFrames pass)) 0
                 else culledObjectsSizeFrames pass).
  assert (length frames = slots) as Hframes
    by (subst frames; case_match; by rewrite ?length_replicate).
  destruct (negb _ && _); [done|].
  destruct (read_counter inp _ capacity) as [cap stale]. simpl.
  split; simpl.
  - case_match; [done|]. by rewrite length_insert.
  - destruct (CulledObjectsCounterIndex (surfaceAtlasData pass) =? -1) eqn:E;
      [|done].
    rewrite <- Hframes. apply find_free_slot_range.
Qed.

Lemma cull_objects_slot LAT inp pass slots :
  slot_in_range slots pass ->
  slot_in_range slots (culled_pass (cull_objects LAT inp pass)).
Proof.
  intros Hslot. unfold cull_objects. case_match; [done|].
  set (r := if ChunksBuffer (surfaceAtlasData pass) then _ else _).
  assert (slot_in_range slots (culled_pass r)) as Hr.
  { subst r. destruct (ChunksBuffer (surfaceAtlasData pass)); [|done].
    by apply readback_slot. }
  destruct (culled_failed r); [done|].
  unfold allocate_culled. destruct Hr as [Hlen Hidx].
  repeat case_match; simplify_eq; split; simpl; done.
Qed.

Lemma Render_slot MAX LAT inp pass slots :
  slot_in_range slots pass -> slot_in_range slots (Render MAX LAT inp pass).1.
Proof.
  intros Hslot. unfold Render.
  destruct (passSkipped inp); [done|]. destruct (_ =? _); [done|].
  pose proof (update_atlas_slot MAX inp pass slots Hslot) as Hupd.
  destruct (update_atlas MAX inp pass) as [pass1 failed].
  destruct failed; simpl in *; [done|]. by apply cull_objects_slot.
Qed.

(** X2: after any sequence of frames the readback ring still has its
    [slots] entries and the counter slot of the buffer is either unassigned
    ([-1]) or the index of one of them, so the entry read from the mapped
    counters and the entry of [_culledObjectsSizeFrames] written for it
    exist. *)
Theorem counter_slot_in_range GPU_MAX_TEXTURE_SIZE GPU_ASYNC_LATENCY
    (slots : nat) (inputs : list RenderInput) :
  let pass :=
    run GPU_MAX_TEXTURE_SIZE GPU_ASYNC_LATENCY inputs (new_pass slots) in
  let index := CulledObjectsCounterIndex (surfaceAtlasData pass) in
  length (culledObjectsSizeFrames pass) = slots /\
  (index = -1 \/ 0 <= index < Z.of_nat slots) /\
  (index <> -1 -> is_Some (culledObjectsSizeFrames pass !! Z.to_nat index)).
Proof.
  intros pass index.
  assert (slot_in_range slots pass) as [Hlen Hidx].
  { subst pass. unfold run.
    assert (slot_in_range slots (new_pass slots)) as Hnew
      by (split; simpl; [apply length_replicate|by left]).
    revert Hnew. generalize (new_pass slots).
    induction inputs as [|inp inputs IH]; simpl; intros pass Hpass; [done|].
    apply IH. by apply Render_slot. }
  split; [done|]. split; [done|].
  intros Hne. apply lookup_lt_is_Some. fold index in Hidx. lia.
Qed.

(** *** The root of the packer *)

Lemma init_buffers_resolution MAX inp d :
  256 <= MAX -> resolution_set MAX d ->
  resolution_set MAX (init_buffers MAX inp d).1.
Proof.
  intros Hmax Hd. unfold init_buffers, resolution_set.
  repeat case_match; simpl; try done; by intros [].
Qed.

Lemma update_atlas_resolution MAX inp pass :
  256 <= MAX -> resolution_set MAX (surfaceAtlasData pass) ->
  resolution_set MAX (surfaceAtlasData (update_atlas MAX inp pass).1).
Proof.
  intros Hmax Hres. unfold update_atlas, draw_atlas.
  set (d0 := set_CustomBuffer_LastFrameUsed (FrameCount inp) (surfaceAtlasData pass)).
  assert (resolution_set MAX d0) as Hd0 by done.
  pose proof (init_buffers_resolution MAX inp d0 Hmax Hd0) as Hinit.
  assert ((init_buffers MAX inp d0).2 = false ->
          Resolution (init_buffers MAX inp d0).1 = atlas_resolution MAX inp)
    as Hset.
  { unfold init_buffers. repeat case_match; simpl; try done; intros _; zbool;
      done. }
  destruct (init_buffers MAX inp d0) as [d1 failed]. simpl in *.
  destruct failed; simpl; [done|]. specialize (Hset eq_refl).
  destruct (draw_objects_settings inp
              (with_data (ensure_atlas (atlas_resolution MAX inp) d1) pass))
    as ((_ & Hr & _) & _).
  unfold resolution_set. simpl. rewrite Hr. simpl. intros _.
  destruct (ensure_atlas_settings (atlas_resolution MAX inp) d1)
    as (_ & -> & _).
  rewrite Hset. apply Clamp_bounds. done.
Qed.

Lemma Render_resolution MAX LAT inp pass :
  256 <= MAX -> resolution_set MAX (surfaceAtlasData pass) ->
  resolution_set MAX (surfaceAtlasData (Render MAX LAT inp pass).1).
Proof.
  intros Hmax Hres. unfold Render.
  destruct (passSkipped inp); [done|]. destruct (_ =? _); [done|].
  pose proof (update_atlas_resolution MAX inp pass Hmax Hres) as Hupd.
  destruct (update_atlas MAX inp pass) as [pass1 failed].
  destruct failed; simpl in *; [done|].
  destruct (cull_objects_cache LAT inp pass1) as (Ht & Hr & _).
  unfold resolution_set. by rewrite Ht, Hr.
Qed.

(** X3: whenever the buffer has a packer, after any sequence of frames,
    the resolution of the buffer lies within
    [[256, GPU_MAX_TEXTURE_SIZE]] and the root of the packer is the whole
    atlas, from the origin to the resolution on both axes (the resolution
    fits the [uint16] coordinates of the packer). *)
Theorem atlas_root_spans GPU_MAX_TEXTURE_SIZE GPU_ASYNC_LATENCY
    (slots : nat) (inputs : list RenderInput) (root : RectPack.t) :
  256 <= GPU_MAX_TEXTURE_SIZE < 2 ^ 16 ->
  let d := surfaceAtlasData
             (run GPU_MAX_TEXTURE_SIZE GPU_ASYNC_LATENCY inputs (new_pass slots)) in
  AtlasTiles d = Some root ->
  256 <= Resolution d <= GPU_MAX_TEXTURE_SIZE /\
  RectPack.region root = mkRect 0 0 (Resolution d) (Resolution d).
Proof.
  intros [Hmin Hmax] d Hroot.
  assert (atlas_inv d) as [Hwf _ _ _]
    by (apply run_inv; [done|apply new_pass_inv]).
  assert (resolution_set GPU_MAX_TEXTURE_SIZE d) as Hres.
  { subst d. unfold run.
    assert (resolution_set GPU_MAX_TEXTURE_SIZE (surfaceAtlasData (new_pass slots)))
      as Hnew by (by intros []).
    revert Hnew. generalize (new_pass slots). clear Hroot Hwf.
    induction inputs as [|inp inputs IH]; simpl; intros pass Hpass; [done|].
    apply IH. by apply Render_resolution. }
  specialize (Hres ltac:(by rewrite Hroot)).
  split; [done|]. destruct (Hwf root Hroot) as [_ ->].
  unfold wrap16. rewrite Z.mod_small by lia. done.
Qed.

Lemma atlas_root_spans_witness :
  let d := surfaceAtlasData (run 8192 2 [frame 1 [crate]] (new_pass 4)) in
  exists root, AtlasTiles d = Some root /\ Resolution d = 256 /\
               RectPack.region root = mkRect 0 0 256 256.
Proof.
  intros d.
  assert (is_Some (AtlasTiles d)) as [root Hroot] by (vm_compute; eauto).
  exists root. split; [exact Hroot|].
  assert (Resolution d = 256) as Hres by (vm_compute; reflexivity).
  split; [exact Hres|]. rewrite <- Hres.
  exact (proj2 (atlas_root_spans 8192 2 4 [frame 1 [crate]] root
                  ltac:(lia) Hroot)).
Defined.

(** ** Failed initialisation *)

Lemma update_atlas_failed MAX inp pass :
  (update_atlas MAX inp pass).2
  = (init_buffers MAX inp
       (set_CustomBuffer_LastFrameUsed (FrameCount inp) (surfaceAtlasData pass))).2.
Proof.
  unfold update_atlas, draw_atlas.
  destruct (init_buffers MAX inp _) as [d1 failed]. by destruct failed.
Qed.

Lemma update_atlas_done MAX inp pass :
  (update_atlas MAX inp pass).2 = false ->
  let d' := surfaceAtlasData (update_atlas MAX inp pass).1 in
  Resolution d' = atlas_resolution MAX inp /\ is_Some (AtlasTiles d') /\
  ChunksBuffer d'
  = ChunksBuffer
      (init_buffers MAX inp
         (set_CustomBuffer_LastFrameUsed (FrameCount inp) (surfaceAtlasData pass))).1.
Proof.
  rewrite update_atlas_failed. unfold update_atlas, draw_atlas.
  set (d0 := set_CustomBuffer_LastFrameUsed (FrameCount inp) (surfaceAtlasData pass)).
  assert ((init_buffers MAX inp d0).2 = false ->
          Resolution (init_buffers MAX inp d0).1 = atlas_resolution MAX inp)
    as Hset.
  { unfold init_buffers. repeat case_match; simpl; try done; intros _; zbool;
      done. }
  destruct (init_buffers MAX inp d0) as [d1 failed]. simpl in *.
  intros ->. specialize (Hset eq_refl). simpl.
  destruct (draw_objects_settings inp
              (with_data (ensure_atlas (atlas_resolution MAX inp) d1) pass))
    as ((_ & Hr & _ & Hc & _ & _ & _ & Ht) & _).
  simpl in *. rewrite Hr, Hc, fmap_is_Some, Ht.
  destruct (ensure_atlas_settings (atlas_resolution MAX inp) d1)
    as (_ & -> & -> & _).
  split; [done|]. split; [|done].
  unfold ensure_atlas. case_match; simpl; eauto.
Qed.

Lemma Render_done MAX LAT inp pass :
  passSkipped inp = false ->
  CustomBuffer_LastFrameUsed (surfaceAtlasData pass) <> FrameCount inp ->
  (update_atlas MAX inp pass).2 = false ->
  let d' := surfaceAtlasData (Render MAX LAT inp pass).1 in
  Resolution d' = atlas_resolution MAX inp /\ is_Some (AtlasTiles d').
Proof.
  intros Hskip Hframe Hok. unfold Render. rewrite Hskip.
  destruct (_ =? _) eqn:E; [zbool; done|].
  destruct (update_atlas_done MAX inp pass Hok) as (Hr & Ht & _).
  destruct (update_atlas MAX inp pass) as [pass1 failed]. simpl in *.
  subst failed. simpl.
  destruct (cull_objects_cache LAT inp pass1) as (-> & -> & _). done.
Qed.

(** X4: when the resolution has changed and an atlas texture cannot be
    allocated, [Render] returns [true] with the cache and the packer gone
    and the resolution of the buffer left as it was; so the next frame sees
    the change again, and once the textures (and the chunks buffer) can be
    had the buffer gets the new resolution and a packer. *)
Theorem texture_failure_retried GPU_MAX_TEXTURE_SIZE GPU_ASYNC_LATENCY
    (inp inp' : RenderInput) (pass : GlobalSurfaceAtlasPass) :
  let d := surfaceAtlasData pass in
  let failed := Render GPU_MAX_TEXTURE_SIZE GPU_ASYNC_LATENCY inp pass in
  let next := Render GPU_MAX_TEXTURE_SIZE GPU_ASYNC_LATENCY inp' failed.1 in
  passSkipped inp = false ->
  CustomBuffer_LastFrameUsed d <> FrameCount inp ->
  Resolution d <> atlas_resolution GPU_MAX_TEXTURE_SIZE inp ->
  atlasTexturesFailed inp = true ->
  failed.2 = true /\
  Objects (surfaceAtlasData failed.1) = ∅ /\
  AtlasTiles (surfaceAtlasData failed.1) = None /\
  Resolution (surfaceAtlasData failed.1) = Resolution d /\
  (passSkipped inp' = false -> FrameCount inp' <> FrameCount inp ->
   atlas_resolution GPU_MAX_TEXTURE_SIZE inp'
   = atlas_resolution GPU_MAX_TEXTURE_SIZE inp ->
   atlasTexturesFailed inp' = false ->
   ChunksBuffer d = true \/ chunksBufferInitFailed inp' = false ->
   Resolution (surfaceAtlasData next.1)
   = atlas_resolution GPU_MAX_TEXTURE_SIZE inp' /\
   is_Some (AtlasTiles (surfaceAtlasData next.1))).
Proof.
  intros d failed next Hskip Hframe Hres Htex.
  assert (failed
          = (with_data
               (Clear (FrameCount inp)
                  (set_CustomBuffer_LastFrameUsed (FrameCount inp) d)) pass,
             true)) as Hfailed.
  { subst failed. unfold Render. rewrite Hskip.
    destruct (_ =? _) eqn:E; [zbool; done|].
    unfold update_atlas, draw_atlas, init_buffers. simpl. fold d.
    destruct (Resolution d =? _) eqn:Er; [zbool; done|]. simpl.
    by rewrite Htex. }
  subst next. rewrite Hfailed. simpl.
  split; [done|]. split; [done|]. split; [done|]. split; [done|].
  intros Hskip' Hframe' Hsame Htex' Hchunks.
  apply Render_done; [done|simpl; congruence|].
  rewrite update_atlas_failed. unfold init_buffers. simpl.
  rewrite Hsame. destruct (Resolution d =? _) eqn:Er; [zbool; done|]. simpl.
  rewrite Htex'. destruct (ChunksBuffer d) eqn:Ec; [done|].
  by destruct Hchunks.
Qed.

Lemma texture_failure_retried_witness :
  let failed := Render 8192 2 (frame_without_textures 1 [crate]) (new_pass 4) in
  let next := Render 8192 2 (frame 2 [crate]) failed.1 in
  Resolution (surfaceAtlasData failed.1) = 0 /\
  Resolution (surfaceAtlasData next.1) = 256.
Proof.
  intros failed next.
  destruct (texture_failure_retried 8192 2 (frame_without_textures 1 [crate])
              (frame 2 [crate]) (new_pass 4))
    as (_ & _ & _ & Hold & Hnext).
  - reflexivity.
  - vm_compute. discriminate.
  - vm_compute. discriminate.
  - reflexivity.
  - split; [exact Hold|].
    refine (proj1 (Hnext eq_refl _ eq_refl eq_refl (or_intror eq_refl))).
    vm_compute. discriminate.
Defined.

(** X5: when the chunks buffer is created and its initialisation fails,
    [Render] returns [true] with the new resolution already stored and the
    buffer pointer set; a later frame at that resolution therefore does not
    initialise the chunks buffer again and goes on to add the objects,
    whether or not an initialisation would succeed then. *)
Theorem chunks_failure_not_retried GPU_MAX_TEXTURE_SIZE GPU_ASYNC_LATENCY
    (inp inp' : RenderInput) (pass : GlobalSurfaceAtlasPass) :
  let d := surfaceAtlasData pass in
  let failed := Render GPU_MAX_TEXTURE_SIZE GPU_ASYNC_LATENCY inp pass in
  passSkipped inp = false ->
  CustomBuffer_LastFrameUsed d <> FrameCount inp ->
  Resolution d <> atlas_resolution GPU_MAX_TEXTURE_SIZE inp ->
  atlasTexturesFailed inp = false ->
  ChunksBuffer d = false -> chunksBufferInitFailed inp = true ->
  failed.2 = true /\
  Objects (surfaceAtlasData failed.1) = ∅ /\
  ChunksBuffer (surfaceAtlasData failed.1) = true /\
  Resolution (surfaceAtlasData failed.1)
  = atlas_resolution GPU_MAX_TEXTURE_SIZE inp /\
  (atlas_resolution GPU_MAX_TEXTURE_SIZE inp'
   = atlas_resolution GPU_MAX_TEXTURE_SIZE inp ->
   let updated := update_atlas GPU_MAX_TEXTURE_SIZE inp' failed.1 in
   updated.2 = false /\
   ChunksBuffer (surfaceAtlasData updated.1) = true /\
   is_Some (AtlasTiles (surfaceAtlasData updated.1))).
Proof.
  intros d failed Hskip Hframe Hres Htex Hnone Hinit.
  assert (failed
          = (with_data
               (set_ChunksBuffer true
                  (set_Resolution (atlas_resolution GPU_MAX_TEXTURE_SIZE inp)
                     (Clear (FrameCount inp)
                        (set_CustomBuffer_LastFrameUsed (FrameCount inp) d))))
               pass, true)) as Hfailed.
  { subst failed. unfold Render. rewrite Hskip.
    destruct (_ =? _) eqn:E; [zbool; done|].
    unfold update_atlas, draw_atlas, init_buffers. simpl. fold d.
    destruct (Resolution d =? _) eqn:Er; [zbool; done|]. simpl.
    by rewrite Htex, Hnone, Hinit. }
  rewrite Hfailed. simpl.
  split; [done|]. split; [done|]. split; [done|]. split; [done|].
  intros Hsame.
  assert ((update_atlas GPU_MAX_TEXTURE_SIZE inp'
             (with_data
                (set_ChunksBuffer true
                   (set_Resolution (atlas_resolution GPU_MAX_TEXTURE_SIZE inp)
                      (Clear (FrameCount inp)
                         (set_CustomBuffer_LastFrameUsed (FrameCount inp) d))))
                pass)).2 = false) as Hok.
  { rewrite update_atlas_failed. unfold init_buffers. simpl.
    rewrite Hsame, Z.eqb_refl. done. }
  split; [done|].
  destruct (update_atlas_done _ _ _ Hok) as (_ & Ht & Hc).
  split; [|done]. rewrite Hc. unfold init_buffers. simpl.
  rewrite Hsame, Z.eqb_refl. simpl. by case_match.
Qed.

Lemma chunks_failure_not_retried_witness :
  let failed := Render 8192 2 (frame_without_chunks 1 [crate]) (new_pass 4) in
  failed.2 = true /\
  (update_atlas 8192 (frame_without_chunks 2 [crate]) failed.1).2 = false.
Proof.
  intros failed.
  destruct (chunks_failure_not_retried 8192 2 (frame_without_chunks 1 [crate])
              (frame_without_chunks 2 [crate]) (new_pass 4))
    as (Hfail & _ & _ & _ & Hnext).
  - reflexivity.
  - vm_compute. discriminate.
  - vm_compute. discriminate.
  - reflexivity.
  - reflexivity.
  - reflexivity.
  - split; [exact Hfail|]. exact (proj1 (Hnext eq_refl)).
Defined.

(** ** Objects used in a frame *)

Lemma insert_face_any c j res st :
  anyTile (insert_face c j res st) = true \/
  anyTile (insert_face c j res st) = anyTile st.
Proof.
  destruct st as [d a b]. unfold insert_face. simpl.
  destruct (AtlasTiles d) as [root|]; [|by right].
  destruct (RectPack.Insert root res res 0) as [[q root']|]; simpl; auto.
Qed.

Lemma RasterizeActor_face_wants c st j :
  anyTile (RasterizeActor_face c st j) = true ->
  anyTile st = true \/
  (Z.testbit (tilesMask c) (Z.of_nat j) = true /\ 4 <= face_resolution c j).
Proof.
  unfold RasterizeActor_face.
  destruct (Z.testbit (tilesMask c) (Z.of_nat j)) eqn:Hmask; simpl; [|by left].
  destruct (face_resolution c j <? 4) eqn:Hres.
  - destruct (object_tile _ _ _); simpl; by left.
  - zbool. intros _. right. split; [done|lia].
Qed.

Lemma RasterizeActor_faces_wants c d :
  anyTile (RasterizeActor_faces c d) = true -> wants_tile c.
Proof.
  unfold RasterizeActor_faces.
  apply (foldl_faces_inv c (fun st => anyTile st = true -> wants_tile c));
    [apply faces_in_range| |done].
  intros st i Hi Hst Hany.
  destruct (RasterizeActor_face_wants c st i Hany) as [Ha|[Hm Hr]]; [auto|].
  by exists i.
Qed.

Lemma RasterizeActor_used_by c pass k o' F :
  Objects (surfaceAtlasData (RasterizeActor c pass)) !! k = Some o' ->
  LastFrameUsed o' = F ->
  (k = actorObject c /\ wants_tile c) \/
  exists o, Objects (surfaceAtlasData pass) !! k = Some o /\ LastFrameUsed o = F.
Proof.
  unfold RasterizeActor.
  pose proof (RasterizeActor_faces_wants c (surfaceAtlasData pass)) as Hwants.
  pose proof (RasterizeActor_faces_lfu c (surfaceAtlasData pass)) as Hlfu.
  pose proof (fun k => RasterizeActor_faces_entry c (surfaceAtlasData pass) k)
    as Hother.
  revert Hwants Hlfu Hother.
  generalize (RasterizeActor_faces c (surfaceAtlasData pass)).
  intros st Hwants Hlfu Hother Ho' HF.
  destruct (decide (k = actorObject c)) as [->|Hne].
  - destruct (anyTile st) eqn:Hany; [by left; auto|].
    right. unfold RasterizeActor_mark in Ho'. rewrite Hany in Ho'. simpl in Ho'.
    destruct (Hlfu o' Ho') as [?|(o & Ho & Heq)]; [done|].
    exists o. split; [done|congruence].
  - right. exists o'. split; [|done]. rewrite <- Hother by done.
    unfold RasterizeActor_mark in Ho'.
    destruct (negb (anyTile st)); [done|].
    destruct (Objects (loop_data st) !! actorObject c); [|done].
    simpl in Ho'. by rewrite lookup_insert_ne in Ho'.
Qed.

Lemma draw_calls_used_by calls pass k o' F :
  Objects (surfaceAtlasData (foldl (fun p c => RasterizeActor c p) pass calls))
    !! k = Some o' ->
  LastFrameUsed o' = F ->
  (exists c, c ∈ calls /\ actorObject c = k /\ wants_tile c) \/
  exists o, Objects (surfaceAtlasData pass) !! k = Some o /\ LastFrameUsed o = F.
Proof.
  revert pass. induction calls as [|c calls IH]; simpl; intros pass Ho' HF.
  { right. eauto. }
  destruct (IH _ Ho' HF) as [(c' & Hin & Hk & Hw)|(o & Ho & Hlfu)].
  { left. exists c'. split; [apply elem_of_cons; by right|done]. }
  destruct (RasterizeActor_used_by c pass k o F Ho Hlfu) as [[-> Hw]|Hold];
    [left|by right].
  exists c. split; [apply elem_of_cons; by left|done].
Qed.

Lemma update_atlas_entry MAX inp pass k o :
  (update_atlas MAX inp pass).2 = false ->
  Objects (surfaceAtlasData (update_atlas MAX inp pass).1) !! k = Some o <->
  Objects (surfaceAtlasData (draw_atlas MAX inp pass).1) !! k = Some o /\
  LastFrameUsed o = FrameCount inp.
Proof.
  unfold update_atlas.
  destruct (draw_atlas MAX inp pass) as [pass1 failed].
  destruct failed; [done|]. intros _. simpl.
  apply map_lookup_filter_Some.
Qed.

Lemma draw_atlas_used_by MAX inp pass k o' :
  (draw_atlas MAX inp pass).2 = false ->
  Objects (surfaceAtlasData (draw_atlas MAX inp pass).1) !! k = Some o' ->
  LastFrameUsed o' = FrameCount inp ->
  (exists c, c ∈ drawn inp /\ actorObject c = k /\ wants_tile c) \/
  exists o, Objects (surfaceAtlasData pass) !! k = Some o /\
            LastFrameUsed o = FrameCount inp.
Proof.
  unfold draw_atlas.
  pose proof (init_buffers_entries MAX inp
    (set_CustomBuffer_LastFrameUsed (FrameCount inp) (surfaceAtlasData pass)))
    as (Hobjs & _ & _).
  destruct (init_buffers MAX inp _) as [d1 failed]. simpl in Hobjs.
  destruct failed; [done|]. intros _. simpl. unfold draw_objects.
  intros Ho' HF.
  destruct (draw_calls_used_by _ _ _ _ _ Ho' HF) as [?|(o & Ho & Hlfu)];
    [by left|right].
  simpl in Ho.
  destruct (ensure_atlas_settings (atlas_resolution MAX inp) d1)
    as (_ & _ & _ & _ & Hsame).
  rewrite Hsame in Ho. destruct Hobjs as [Hobjs|Hobjs]; rewrite Hobjs in Ho;
    [eauto|by rewrite lookup_empty in Ho].
Qed.

Lemma Render_fresh MAX LAT inp pass :
  cache_fresh (surfaceAtlasData pass) ->
  cache_fresh (surfaceAtlasData (Render MAX LAT inp pass).1).
Proof.
  intros Hfresh. unfold Render.
  destruct (passSkipped inp); [done|]. destruct (_ =? _); [done|].
  pose proof (update_atlas_buffer_frame MAX inp pass) as Hstamp.
  pose proof (fun k o => update_atlas_entry MAX inp pass k o) as Hentry.
  assert ((update_atlas MAX inp pass).2 = true ->
          Objects (surfaceAtlasData (update_atlas MAX inp pass).1) = ∅) as Hfail.
  { rewrite update_atlas_failed. unfold update_atlas, draw_atlas.
    pose proof (init_buffers_entries MAX inp
      (set_CustomBuffer_LastFrameUsed (FrameCount inp) (surfaceAtlasData pass)))
      as (_ & Hempty & _).
    destruct (init_buffers MAX inp _) as [d1 failed]. simpl in *.
    intros ->. by apply Hempty. }
  destruct (update_atlas MAX inp pass) as [pass1 failed]. simpl in *.
  destruct failed; simpl.
  - intros k o. rewrite Hfail by done. by rewrite lookup_empty.
  - intros k o. rewrite cull_objects_keeps_buffer_frame.
    destruct (cull_objects_cache LAT inp pass1) as (_ & _ & ->).
    intros Ho. apply Hentry in Ho as [_ ->]; done.
Qed.

Lemma run_fresh MAX LAT inputs pass :
  cache_fresh (surfaceAtlasData pass) ->
  cache_fresh (surfaceAtlasData (run MAX LAT inputs pass)).
Proof.
  revert pass. induction inputs as [|inp inputs IH]; simpl; intros pass Hpass;
    [done|].
  apply IH. by apply Render_fresh.
Qed.

(** X6: after a frame that [Render] updates, an object is in the cache only
    if it was used in that frame: one of the frame's [RasterizeActor] calls
    was made for it, with a face in its mask whose resolution is not below
    4.  Every other object has been removed, whatever it held. *)
Theorem cached_objects_were_drawn GPU_MAX_TEXTURE_SIZE GPU_ASYNC_LATENCY
    (slots : nat) (inputs : list RenderInput) (inp : RenderInput)
    (key : Z) (o : GlobalSurfaceAtlasObject) :
  let pass :=
    run GPU_MAX_TEXTURE_SIZE GPU_ASYNC_LATENCY inputs (new_pass slots) in
  passSkipped inp = false ->
  CustomBuffer_LastFrameUsed (surfaceAtlasData pass) <> FrameCount inp ->
  Objects (surfaceAtlasData
             (Render GPU_MAX_TEXTURE_SIZE GPU_ASYNC_LATENCY inp pass).1) !! key
  = Some o ->
  LastFrameUsed o = FrameCount inp /\
  exists c, c ∈ drawn inp /\ actorObject c = key /\ wants_tile c.
Proof.
  intros pass Hskip Hframe.
  assert (cache_fresh (surfaceAtlasData pass)) as Hfresh.
  { apply run_fresh. intros k o'. simpl. by rewrite lookup_empty. }
  pose proof (Render_fresh GPU_MAX_TEXTURE_SIZE GPU_ASYNC_LATENCY inp pass Hfresh)
    as Hafter.
  pose proof (Render_buffer_frame GPU_MAX_TEXTURE_SIZE GPU_ASYNC_LATENCY inp pass
                Hskip) as Hstamp.
  intros Ho. split; [by rewrite (Hafter key o Ho)|].
  revert Ho. unfold Render. rewrite Hskip.
  destruct (_ =? _) eqn:E; [zbool; done|].
  pose proof (fun o => update_atlas_entry GPU_MAX_TEXTURE_SIZE inp pass key o)
    as Hentry.
  pose proof (update_atlas_failed GPU_MAX_TEXTURE_SIZE inp pass) as Hfailed.
  pose proof (init_buffers_entries GPU_MAX_TEXTURE_SIZE inp
    (set_CustomBuffer_LastFrameUsed (FrameCount inp) (surfaceAtlasData pass)))
    as (_ & Hempty & _).
  pose proof (draw_atlas_used_by GPU_MAX_TEXTURE_SIZE inp pass key o) as Hdraw.
  assert ((draw_atlas GPU_MAX_TEXTURE_SIZE inp pass).2
          = (update_atlas GPU_MAX_TEXTURE_SIZE inp pass).2) as Hsame.
  { unfold update_atlas. destruct (draw_atlas _ _ _) as [p f]. by destruct f. }
  assert ((update_atlas GPU_MAX_TEXTURE_SIZE inp pass).2 = true ->
          Objects (surfaceAtlasData
                     (update_atlas GPU_MAX_TEXTURE_SIZE inp pass).1) = ∅)
    as Hfail.
  { rewrite Hfailed. unfold update_atlas, draw_atlas.
    destruct (init_buffers _ inp _) as [d1 failed]. simpl in *.
    intros ->. by apply Hempty. }
  destruct (update_atlas GPU_MAX_TEXTURE_SIZE inp pass) as [pass1 failed].
  simpl in *. destruct failed; simpl.
  - rewrite Hfail by done. by rewrite lookup_empty.
  - destruct (cull_objects_cache GPU_ASYNC_LATENCY inp pass1) as (_ & _ & ->).
    intros Ho. apply Hentry in Ho as [Ho Hlfu]; [|done].
    destruct (Hdraw Hsame Ho Hlfu) as [?|(o0 & Ho0 & Hlfu0)]; [done|].
    rewrite (Hfresh key o0 Ho0) in Hlfu0. done.
Qed.

Lemma cached_objects_were_drawn_witness :
  let pass := run 8192 2 [frame 1 [crate; wall]] (new_pass 4) in
  let d := surfaceAtlasData (Render 8192 2 (frame 2 [crate]) pass).1 in
  is_Some (Objects (surfaceAtlasData pass) !! 200) /\
  Objects d !! 200 = None /\
  exists o, Objects d !! 100 = Some o /\ LastFrameUsed o = 2.
Proof.
  intros pass d.
  split; [vm_compute; eauto|]. split; [vm_compute; reflexivity|].
  assert (is_Some (Objects d !! 100)) as [o Ho] by (vm_compute; eauto).
  exists o. split; [exact Ho|].
  refine (proj1 (cached_objects_were_drawn 8192 2 4 [frame 1 [crate; wall]]
                   (frame 2 [crate]) 100 o eq_refl _ Ho)).
  vm_compute. discriminate.
Defined.

(** ** Objects queued for a redraw *)

Lemma has_marks_alter d key o k f :
  (forall o, same_marks o (f o)) ->
  has_marks d key o -> has_marks (set_Objects (alter f k) d) key o.
Proof.
  intros Hf (o' & Ho' & Hm). unfold has_marks. simpl.
  destruct (decide (k = key)) as [->|Hk].
  - exists (f o'). rewrite lookup_alter_eq, Ho'. simpl. split; [done|].
    destruct (Hf o') as (? & ? & ?), Hm as (? & ? & ?).
    repeat split; congruence.
  - exists o'. by rewrite lookup_alter_ne.
Qed.

Lemma has_marks_OnInsert d key o k j q :
  has_marks d key o -> has_marks (OnInsert k j q d) key o.
Proof.
  intros (o' & Ho' & Hm). unfold has_marks, OnInsert. simpl.
  destruct (decide (k = key)) as [->|Hk].
  - rewrite lookup_insert_eq, Ho'. simpl. eauto.
  - rewrite lookup_insert_ne by done. eauto.
Qed.

Lemma RasterizeActor_face_marks c st j key o :
  has_marks (loop_data st) key o ->
  has_marks (loop_data (RasterizeActor_face c st j)) key o.
Proof.
  intros Hm. destruct st as [d a b]. simpl in *.
  unfold RasterizeActor_face, insert_face. simpl.
  repeat case_match; simpl; try done;
    try (apply has_marks_OnInsert; done);
    try (apply (has_marks_alter _ _ _ _ (with_tile j None)); done).
Qed.

Lemma RasterizeActor_faces_marks c d key o :
  Objects d !! key = Some o ->
  has_marks (loop_data (RasterizeActor_faces c d)) key o.
Proof.
  intros Ho. unfold RasterizeActor_faces.
  apply (foldl_faces_inv c (fun st => has_marks (loop_data st) key o));
    [apply faces_in_range| |by exists o].
  intros st i _. apply RasterizeActor_face_marks.
Qed.

Lemma RasterizeActor_marked c pass key F :
  CurrentFrame (surfaceAtlasData pass) = F ->
  marked (surfaceAtlasData pass) key F ->
  marked (surfaceAtlasData (RasterizeActor c pass)) key F.
Proof.
  intros Hcur (o & a & Ho & Hu & Hd & Ha). unfold RasterizeActor.
  pose proof (RasterizeActor_faces_marks c _ key o Ho) as Hm.
  pose proof (RasterizeActor_faces_frame c (surfaceAtlasData pass)) as Hf.
  rewrite Hcur in Hf. revert Hm Hf.
  generalize (RasterizeActor_faces c (surfaceAtlasData pass)).
  intros st (o' & Ho' & Hu' & Hd' & Ha') Hf. unfold RasterizeActor_mark.
  destruct (negb (anyTile st)).
  { exists o', a. simpl. repeat split; congruence. }
  destruct (Objects (loop_data st) !! actorObject c) as [object|] eqn:Eo.
  2: { exists o', a. simpl. repeat split; congruence. }
  unfold marked. simpl. destruct (decide (key = actorObject c)) as [->|Hk].
  - rewrite lookup_insert_eq. rewrite Eo in Ho'. injection Ho' as ->.
    eexists _, (actor c). split; [done|]. simpl. rewrite Hf.
    split; [done|]. split; [|done]. case_match; congruence.
  - rewrite lookup_insert_ne by done. exists o', a. repeat split; congruence.
Qed.

Lemma RasterizeActor_queued c pass key F :
  CurrentFrame (surfaceAtlasData pass) = F ->
  key ∈ dirtyObjectsBuffer (RasterizeActor c pass) ->
  key ∈ dirtyObjectsBuffer pass \/
  (key = actorObject c /\ marked (surfaceAtlasData (RasterizeActor c pass)) key F).
Proof.
  intros Hcur. unfold RasterizeActor.
  pose proof (RasterizeActor_faces_frame c (surfaceAtlasData pass)) as Hf.
  rewrite Hcur in Hf. revert Hf.
  generalize (RasterizeActor_faces c (surfaceAtlasData pass)).
  intros st Hf. unfold RasterizeActor_mark.
  destruct (negb (anyTile st)); [by left|].
  destruct (Objects (loop_data st) !! actorObject c) as [object|] eqn:Eo;
    [|by left].
  simpl. set (isDirty := _ || _ || _). destruct isDirty eqn:Edirty; [|by left].
  intros [Hin| ->%list_elem_of_singleton]%elem_of_app; [by left|right].
  split; [done|]. unfold marked. simpl. rewrite lookup_insert_eq.
  eexists _, (actor c). split; [done|]. simpl. by rewrite Hf.
Qed.

Lemma RasterizeActor_keeps_queued c pass key :
  key ∈ dirtyObjectsBuffer pass ->
  key ∈ dirtyObjectsBuffer (RasterizeActor c pass).
Proof.
  intros Hin. unfold RasterizeActor.
  generalize (RasterizeActor_faces c (surfaceAtlasData pass)). intros st.
  unfold RasterizeActor_mark.
  repeat case_match; simpl; try done. apply elem_of_app. by left.
Qed.

Lemma draw_calls_keep_queued calls pass key :
  key ∈ dirtyObjectsBuffer pass ->
  key ∈ dirtyObjectsBuffer (foldl (fun p c => RasterizeActor c p) pass calls).
Proof.
  revert pass. induction calls as [|c calls IH]; simpl; intros pass Hin; [done|].
  apply IH. by apply RasterizeActor_keeps_queued.
Qed.

Lemma draw_calls_queued calls pass F :
  CurrentFrame (surfaceAtlasData pass) = F ->
  (forall key, key ∈ dirtyObjectsBuffer pass ->
     marked (surfaceAtlasData pass) key F) ->
  let pass' := foldl (fun p c => RasterizeActor c p) pass calls in
  forall key, key ∈ dirtyObjectsBuffer pass' ->
    marked (surfaceAtlasData pass') key F /\
    (key ∈ dirtyObjectsBuffer pass \/
     exists c, c ∈ calls /\ actorObject c = key).
Proof.
  revert pass. induction calls as [|c calls IH]; simpl; intros pass Hcur Hold key Hin.
  { split; [auto|by left]. }
  destruct (IH (RasterizeActor c pass)) with (key := key) as [Hm Hfrom];
    [by rewrite RasterizeActor_frame| |done|].
  { intros k Hk.
    destruct (RasterizeActor_queued c pass k F Hcur Hk) as [Hq|[_ Hq]]; [|done].
    apply RasterizeActor_marked; auto. }
  split; [done|]. destruct Hfrom as [Hq|(c' & Hc' & Hk)].
  - destruct (RasterizeActor_queued c pass key F Hcur Hq) as [?|[-> _]];
      [by left|right].
    exists c. split; [apply elem_of_cons; by left|done].
  - right. exists c'. split; [apply elem_of_cons; by right|done].
Qed.

(** X7: when the tiles of the dirty objects are about to be rasterized
    (after the removal of the unused objects), every object queued in
    [_dirtyObjectsBuffer] was queued by a [RasterizeActor] call of this
    frame and still has its entry in the cache, used and made dirty in this
    frame and with its actor set: the lookups [Objects[actorObject]] and the
    call [object.Actor->Draw] of that pass find what they need. *)
Theorem dirty_objects_cached GPU_MAX_TEXTURE_SIZE
    (inp : RenderInput) (pass : GlobalSurfaceAtlasPass) (key : Z) :
  let updated := update_atlas GPU_MAX_TEXTURE_SIZE inp pass in
  updated.2 = false ->
  key ∈ dirtyObjectsBuffer updated.1 ->
  (exists c, c ∈ drawn inp /\ actorObject c = key) /\
  exists o a,
    Objects (surfaceAtlasData updated.1) !! key = Some o /\
    LastFrameUsed o = FrameCount inp /\ LastFrameDirty o = FrameCount inp /\
    ObjectActor o = Some a.
Proof.
  intros updated. subst updated. unfold update_atlas, draw_atlas.
  destruct (init_buffers GPU_MAX_TEXTURE_SIZE inp _) as [d1 failed].
  destruct failed; [done|]. simpl. intros _ Hin.
  unfold draw_objects in *.
  set (start := mkPass _ [] _ _) in *.
  destruct (draw_calls_queued (drawn inp) start (FrameCount inp)) with (key := key)
    as [(o & a & Ho & Hu & Hd & Ha) Hfrom]; [done| |done|].
  { intros k Hk. by apply elem_of_nil in Hk. }
  split.
  - destruct Hfrom as [Hk|?]; [by apply elem_of_nil in Hk|done].
  - exists o, a. split; [|done]. by apply map_lookup_filter_Some.
Qed.

Lemma dirty_objects_cached_witness :
  let updated := update_atlas 8192 (frame 1 [crate; wall]) (new_pass 4) in
  dirtyObjectsBuffer updated.1 = [100; 200] /\
  exists o a,
    Objects (surfaceAtlasData updated.1) !! 200 = Some o /\
    LastFrameDirty o = 1 /\ ObjectActor o = Some a.
Proof.
  intros updated.
  assert (dirtyObjectsBuffer updated.1 = [100; 200]) as Hq
    by (vm_compute; reflexivity).
  split; [exact Hq|].
  assert (updated.2 = false) as Hok by (vm_compute; reflexivity).
  assert (200 ∈ dirtyObjectsBuffer updated.1) as Hin
    by (rewrite Hq; apply elem_of_cons; right; apply elem_of_cons; by left).
  destruct (proj2 (dirty_objects_cached 8192 (frame 1 [crate; wall])
                     (new_pass 4) 200 Hok Hin))
    as (o & a & Ho & _ & Hd & Ha).
  exists o, a. split; [exact Ho|]. split; [exact Hd|exact Ha].
Defined.

(** ** Tiles that appear in a frame *)

Lemma insert_face_fresh c j res st p :
  object_tile (loop_data (insert_face c j res st)) (actorObject c) j = Some p ->
  dirty (insert_face c j res st) = true \/
  object_tile (loop_data st) (actorObject c) j = Some p.
Proof.
  destruct st as [d a b]. unfold insert_face. simpl.
  destruct (AtlasTiles d) as [root|]; [|by right].
  destruct (RectPack.Insert root res res 0) as [[q root']|]; simpl; [by left|].
  change (object_tile (set_tile (actorObject c) j None d) (actorObject c) j
          = Some p -> b = true \/ object_tile d (actorObject c) j = Some p).
  by rewrite object_tile_set_tile_None.
Qed.

Lemma RasterizeActor_face_fresh c st j k i p :
  object_tile (loop_data (RasterizeActor_face c st j)) k i = Some p ->
  object_tile (loop_data st) k i = Some p \/
  (k = actorObject c /\ dirty (RasterizeActor_face c st j) = true).
Proof.
  destruct (decide ((actorObject c, j) = (k, i))) as [[= <- <-]|Hne].
  2: { rewrite RasterizeActor_face_slot by done. by left. }
  unfold RasterizeActor_face.
  destruct (negb _); [by left|].
  destruct (_ <? 4).
  - destruct (object_tile (loop_data st) (actorObject c) j) as [tile|] eqn:Et;
      [|rewrite Et; by left].
    simpl.
    change (object_tile (set_tile (actorObject c) j None (loop_data st))
              (actorObject c) j = Some p ->
            Some tile = Some p \/ actorObject c = actorObject c /\ dirty st = true).
    by rewrite object_tile_set_tile_None.
  - destruct (object_tile (loop_data st) (actorObject c) j) as [tile|] eqn:Et.
    + case_match; [simpl; rewrite Et; by left|].
      intros [Hd|Ho]%insert_face_fresh; [by right|left].
      change (object_tile (loop_data st) (actorObject c) j = Some p) in Ho.
      by rewrite Et in Ho.
    + intros [Hd|Ho]%insert_face_fresh; [by right|].
      rewrite Et in Ho. done.
Qed.

Lemma RasterizeActor_face_dirty c st j :
  (dirty st = true -> dirty (RasterizeActor_face c st j) = true) /\
  ((dirty st = true -> anyTile st = true) ->
   dirty (RasterizeActor_face c st j) = true ->
   anyTile (RasterizeActor_face c st j) = true).
Proof.
  unfold RasterizeActor_face, insert_face.
  split; repeat case_match; simpl; auto.
Qed.

Lemma RasterizeActor_faces_fresh c d :
  let st := RasterizeActor_faces c d in
  (dirty st = true -> anyTile st = true) /\
  forall k i p, object_tile (loop_data st) k i = Some p ->
    object_tile d k i = Some p \/ (k = actorObject c /\ dirty st = true).
Proof.
  unfold RasterizeActor_faces.
  apply (foldl_faces_inv c (fun st =>
    (dirty st = true -> anyTile st = true) /\
    forall k i p, object_tile (loop_data st) k i = Some p ->
      object_tile d k i = Some p \/ (k = actorObject c /\ dirty st = true)));
    [apply faces_in_range| |by split; [|left]].
  intros st j _ [Hda Hold].
  destruct (RasterizeActor_face_dirty c st j) as [Hmono Hany].
  split; [by apply Hany|].
  intros k i p [Ho|Hnew]%RasterizeActor_face_fresh; [|by right].
  destruct (Hold k i p Ho) as [?|[-> Hd]]; [by left|right]. auto.
Qed.

Lemma RasterizeActor_fresh c pass k i p :
  object_tile (surfaceAtlasData (RasterizeActor c pass)) k i = Some p ->
  object_tile (surfaceAtlasData pass) k i = Some p \/
  k ∈ dirtyObjectsBuffer (RasterizeActor c pass).
Proof.
  unfold RasterizeActor.
  destruct (RasterizeActor_faces_fresh c (surfaceAtlasData pass)) as [Hda Hold].
  revert Hda Hold. generalize (RasterizeActor_faces c (surfaceAtlasData pass)).
  intros st Hda Hold. unfold RasterizeActor_mark.
  destruct (anyTile st) eqn:Hany; simpl.
  2: { intros [?|[_ Hd]]%Hold; [by left|]. discriminate (Hda Hd). }
  destruct (Objects (loop_data st) !! actorObject c) as [object|] eqn:Eo; simpl.
  2: { intros Ho. destruct (Hold k i p Ho) as [?|[-> _]]; [by left|].
       unfold object_tile in Ho. by rewrite Eo in Ho. }
  erewrite object_tile_mark; [|done|done].
  intros [?|[-> Hd]]%Hold; [by left|right].
  rewrite Hd. simpl. apply elem_of_app. right. by apply list_elem_of_singleton.
Qed.

Lemma draw_calls_fresh calls pass k i p :
  let pass' := foldl (fun p c => RasterizeActor c p) pass calls in
  object_tile (surfaceAtlasData pass') k i = Some p ->
  object_tile (surfaceAtlasData pass) k i = Some p \/
  k ∈ dirtyObjectsBuffer pass'.
Proof.
  revert pass. induction calls as [|c calls IH]; simpl; intros pass Ho;
    [by left|].
  destruct (IH _ Ho) as [Ho1|?]; [|by right].
  destruct (RasterizeActor_fresh c pass k i p Ho1) as [?|Hq]; [by left|right].
  by apply draw_calls_keep_queued.
Qed.

Lemma init_buffers_kept MAX inp d k i p :
  object_tile (init_buffers MAX inp d).1 k i = Some p ->
  object_tile d k i = Some p /\ Resolution d = atlas_resolution MAX inp /\
  defragmentation_needed (FrameCount inp) d = false.
Proof.
  unfold init_buffers.
  destruct (Resolution d =? atlas_resolution MAX inp) eqn:Er; simpl.
  - destruct (defragmentation_needed (FrameCount inp) d) eqn:Ed; simpl.
    + unfold object_tile. simpl. by rewrite lookup_empty.
    + zbool. done.
  - repeat case_match; unfold object_tile; simpl; by rewrite lookup_empty.
Qed.

(** X8: a tile that a slot of the cache holds after the frame's update is
    the tile of an object queued for a redraw in this frame, unless the
    slot already held the same tile before the frame and the frame did not
    clear the cache (the resolution was unchanged and no defragmentation
    was due): no tile is handed out without its object being redrawn. *)
Theorem new_tiles_are_redrawn GPU_MAX_TEXTURE_SIZE
    (inp : RenderInput) (pass : GlobalSurfaceAtlasPass)
    (key : Z) (tileIndex : nat) (tile : TilePtr) :
  let d := surfaceAtlasData pass in
  let updated := update_atlas GPU_MAX_TEXTURE_SIZE inp pass in
  updated.2 = false ->
  object_tile (surfaceAtlasData updated.1) key tileIndex = Some tile ->
  key ∈ dirtyObjectsBuffer updated.1 \/
  (object_tile d key tileIndex = Some tile /\
   Resolution d = atlas_resolution GPU_MAX_TEXTURE_SIZE inp /\
   defragmentation_needed (FrameCount inp) d = false).
Proof.
  intros d updated. subst updated. unfold update_atlas, draw_atlas.
  pose proof (init_buffers_kept GPU_MAX_TEXTURE_SIZE inp
    (set_CustomBuffer_LastFrameUsed (FrameCount inp) d) key tileIndex tile)
    as Hkept.
  destruct (init_buffers GPU_MAX_TEXTURE_SIZE inp _) as [d1 failed].
  destruct failed; [done|]. simpl in *. intros _.
  intros (o & Ho & _ & Ht)%object_tile_remove_unused.
  assert (object_tile
            (surfaceAtlasData
               (draw_objects inp
                  (with_data
                     (ensure_atlas (atlas_resolution GPU_MAX_TEXTURE_SIZE inp) d1)
                     pass))) key tileIndex = Some tile) as Hdrawn
    by (apply object_tile_Some; eauto).
  unfold draw_objects in *.
  destruct (draw_calls_fresh _ _ _ _ _ Hdrawn) as [Hstart|?]; [right|by left].
  apply Hkept. revert Hstart. unfold object_tile. simpl.
  by destruct (ensure_atlas_settings (atlas_resolution GPU_MAX_TEXTURE_SIZE inp) d1)
    as (_ & _ & _ & _ & ->).
Qed.

Lemma new_tiles_are_redrawn_witness :
  let pass := run 8192 2 [frame 1 [crate]] (new_pass 4) in
  let updated := update_atlas 8192 (frame 2 [crate_near; wall]) pass in
  object_tile (surfaceAtlasData pass) 200 0 = None /\
  is_Some (object_tile (surfaceAtlasData updated.1) 200 0) /\
  200 ∈ dirtyObjectsBuffer updated.1.
Proof.
  intros pass updated.
  assert (object_tile (surfaceAtlasData pass) 200 0 = None) as Hnone
    by (vm_compute; reflexivity).
  assert (is_Some (object_tile (surfaceAtlasData updated.1) 200 0))
    as Hsome by (vm_compute; eauto).
  split; [exact Hnone|]. split; [exact Hsome|].
  destruct Hsome as [tile Htile].
  assert (updated.2 = false) as Hok by (vm_compute; reflexivity).
  destruct (new_tiles_are_redrawn 8192 (frame 2 [crate_near; wall]) pass
              200 0%nat tile Hok Htile) as [Hq|[Hold _]].
  - exact Hq.
  - rewrite Hnone in Hold. discriminate Hold.
Defined.

(** ** Actors that change *)

(** X9: [OnSceneRenderingUpdateActor] does nothing for an actor without
    the static lightmap flag; for one with the flag it resets
    [LastFrameDirty] of the entry stored under the actor's own address,
    when there is one, and touches nothing else (no tile, no other entry,
    not the packer).  The next [RasterizeActor] call for that object then
    queues it for a redraw as soon as it has a tile, whatever its faces
    did, provided the current frame has reached the redraw period of the
    actor. *)
Theorem static_actor_update_redraws :
  (forall a d, StaticLightmap a = false -> OnSceneRenderingUpdateActor a d = d) /\
  (forall a d key,
     let d' := OnSceneRenderingUpdateActor a d in
     AtlasTiles d' = AtlasTiles d /\
     (forall i, object_tile d' key i = object_tile d key i) /\
     (key <> ActorPtr a -> Objects d' !! key = Objects d !! key) /\
     (Objects d !! key = None -> Objects d' !! key = None)) /\
  (forall a d o,
     StaticLightmap a = true -> Objects d !! ActorPtr a = Some o ->
     Objects (OnSceneRenderingUpdateActor a d) !! ActorPtr a
     = Some (mkObject (LastFrameUsed o) 0 (ObjectActor o) (Tiles o))) /\
  (forall (c : RasterizeCall) (pass : GlobalSurfaceAtlasPass) o,
     let d := surfaceAtlasData pass in
     let d' := OnSceneRenderingUpdateActor (actor c) d in
     StaticLightmap (actor c) = true ->
     actorObject c = ActorPtr (actor c) ->
     Objects d !! actorObject c = Some o ->
     anyTile (RasterizeActor_faces c d') = true ->
     redraw_period (actor c) <= CurrentFrame d < 2 ^ 64 ->
     actorObject c ∈ dirtyObjectsBuffer (RasterizeActor c (with_data d' pass))).
Proof.
  split; [|split; [|split]].
  - intros a d Hs. unfold OnSceneRenderingUpdateActor. by rewrite Hs.
  - intros a d key d'. subst d'. unfold OnSceneRenderingUpdateActor.
    destruct (StaticLightmap a); [|done]. simpl.
    split; [done|]. split; [|split].
    + intros i. unfold object_tile. simpl.
      destruct (decide (key = ActorPtr a)) as [->|Hk].
      * rewrite lookup_alter_eq. by destruct (Objects d !! ActorPtr a).
      * by rewrite lookup_alter_ne.
    + intros Hk. by rewrite lookup_alter_ne.
    + intros Hnone. destruct (decide (key = ActorPtr a)) as [->|Hk].
      * by rewrite lookup_alter_eq, Hnone.
      * by rewrite lookup_alter_ne.
  - intros a d o Hs Ho. unfold OnSceneRenderingUpdateActor. rewrite Hs. simpl.
    by rewrite lookup_alter_eq, Ho.
  - intros c pass o d d' Hs Hkey Ho Hany Hframe.
    assert (Objects d' !! actorObject c
            = Some (mkObject (LastFrameUsed o) 0 (ObjectActor o) (Tiles o)))
      as Ho'.
    { subst d'. unfold OnSceneRenderingUpdateActor. rewrite Hs. simpl.
      by rewrite <- Hkey, lookup_alter_eq, Ho. }
    assert (CurrentFrame d' = CurrentFrame d) as Hcur.
    { subst d'. unfold OnSceneRenderingUpdateActor. by destruct (StaticLightmap _). }
    unfold RasterizeActor. simpl.
    pose proof (RasterizeActor_faces_marks c d' _ _ Ho') as Hm.
    pose proof (RasterizeActor_faces_frame c d') as Hf. rewrite Hcur in Hf.
    revert Hany Hm Hf. generalize (RasterizeActor_faces c d').
    intros st Hany (o1 & Ho1 & _ & Hd1 & _) Hf.
    unfold RasterizeActor_mark. rewrite Hany, Ho1. simpl.
    assert (redraw_due (actor c) (CurrentFrame (loop_data st)) o1 = true) as ->.
    { unfold redraw_due. rewrite Hd1, Hf. simpl. apply Z.leb_le.
      pose proof (redraw_period_bounds (actor c)) as Hp.
      unfold redrawFramesCount in Hp. rewrite Hs in Hp.
      unfold sub64, wrap64. rewrite Z.sub_0_r, Z.mod_small; lia. }
    rewrite orb_true_r. simpl. apply elem_of_app. right.
    by apply list_elem_of_singleton.
Qed.

(** ** Other objects during a call *)

(** X10: at any point while the objects of a frame are added, a
    [RasterizeActor] call changes the entry of its own object only: the
    entry of any other object is the same after the call, and each tile it
    holds is still in use in the packer with the same rectangle. *)
Theorem other_objects_untouched GPU_MAX_TEXTURE_SIZE GPU_ASYNC_LATENCY
    (slots : nat) (inputs : list RenderInput) (inp : RenderInput)
    (c : RasterizeCall) (key : Z) :
  256 <= GPU_MAX_TEXTURE_SIZE ->
  let reached :=
    draw_atlas GPU_MAX_TEXTURE_SIZE inp
      (run GPU_MAX_TEXTURE_SIZE GPU_ASYNC_LATENCY inputs (new_pass slots)) in
  let d := surfaceAtlasData reached.1 in
  let d' := surfaceAtlasData (RasterizeActor c reached.1) in
  reached.2 = false -> key <> actorObject c ->
  Objects d' !! key = Objects d !! key /\
  forall i tile r, holds_tile d key i tile r ->
    holds_tile d' key i tile r /\
    exists root', AtlasTiles d' = Some root' /\
                  RectPack.tile_at tile root' = Some (r, true).
Proof.
  intros Hmax reached d d' Hok Hne.
  assert (atlas_inv (surfaceAtlasData
            (run GPU_MAX_TEXTURE_SIZE GPU_ASYNC_LATENCY inputs (new_pass slots))))
    as Hinv0 by (apply run_inv; [done|apply new_pass_inv]).
  destruct (draw_atlas_inv GPU_MAX_TEXTURE_SIZE Hmax inp _ Hinv0)
    as [Hinv Hroot].
  fold reached in Hinv, Hroot. specialize (Hroot Hok).
  destruct (RasterizeActor_inv c reached.1 Hinv Hroot) as [Hinv' _].
  destruct (RasterizeActor_entries c reached.1 Hinv Hroot) as [Hother _].
  split; [by apply Hother|].
  intros i tile r Hh.
  destruct (RasterizeActor_holds c reached.1 key i tile r
              (CurrentFrame (surfaceAtlasData reached.1)))
    as (Hh' & _); try done.
  split; [done|]. by eapply holds_tile_used.
Qed.

Lemma other_objects_untouched_witness :
  let reached := draw_atlas 8192 (frame 2 []) (run 8192 2 [frame 1 [crate; wall]]
                                                 (new_pass 4)) in
  let d' := surfaceAtlasData (RasterizeActor crate_close reached.1) in
  holds_tile d' 200 0 [GoRight; GoRight] (mkRect 64 64 192 192).
Proof.
  intros reached d'.
  refine (proj1 (proj2 (other_objects_untouched 8192 2 4 [frame 1 [crate; wall]]
            (frame 2 []) crate_close 200 ltac:(lia) _ _)
            0%nat [GoRight; GoRight] (mkRect 64 64 192 192) _)).
  - vm_compute. reflexivity.
  - vm_compute. discriminate.
  - split; vm_compute; reflexivity.
Defined.

(** ** Sizes of the tiles *)

Lemma Free_list_used ps q n s :
  RectPack.tile_at q (foldr RectPack.Free n ps) = Some (s, true) ->
  RectPack.tile_at q n = Some (s, true).
Proof.
  induction ps as [|p ps IH]; simpl; [done|].
  intros [Hq _]%Free_used. by apply IH.
Qed.

Lemma insert_face_snapped c i x st :
  tiles_snapped (loop_data st) ->
  tiles_snapped (loop_data (insert_face c i (snap_resolution x) st)).
Proof.
  intros Hs. destruct st as [d a b]. unfold insert_face. simpl in *.
  destruct (AtlasTiles d) as [root|] eqn:Hroot; [|done].
  destruct (RectPack.Insert root _ _ 0) as [[q root']|] eqn:Hins; simpl.
  - intros root1 p r [= <-] Hp.
    destruct (Insert_new_used _ _ _ _ _ _ _ _ Hins Hp) as [->|Hold].
    + destruct (Insert_tile _ _ _ _ _ _ Hins) as (x0 & y0 & Hq).
      rewrite Hq in Hp. injection Hp as <-.
      destruct (snap_resolution_bounds x) as [Hb Hm].
      unfold snapped, GLOBAL_SURFACE_ATLAS_TILE_SIZE_MIN,
        GLOBAL_SURFACE_ATLAS_TILE_SIZE_MAX. simpl.
      rewrite !Z.add_0_r. done.
    + by eapply Hs.
  - intros root1 p r. simpl. rewrite Hroot. intros [= <-]. by eapply Hs.
Qed.

Lemma free_tile_snapped tile d :
  tiles_snapped d -> tiles_snapped (free_tile tile d).
Proof.
  intros Hs root p r. simpl.
  destruct (AtlasTiles d) as [root0|] eqn:Hroot; [|done]. simpl.
  intros [= <-] [Hp _]%Free_used. by eapply Hs.
Qed.

Lemma RasterizeActor_face_snapped c st i :
  tiles_snapped (loop_data st) ->
  tiles_snapped (loop_data (RasterizeActor_face c st i)).
Proof.
  intros Hs. unfold RasterizeActor_face.
  destruct (negb _); [done|].
  destruct (_ <? 4).
  - destruct (object_tile _ _ _) as [tile|]; [|done].
    by apply (free_tile_snapped tile) in Hs.
  - destruct (object_tile _ _ _) as [tile|]; [|by apply insert_face_snapped].
    case_match; [done|].
    apply (insert_face_snapped c i _ (mkLoop _ _ _)). simpl.
    by apply free_tile_snapped.
Qed.

Lemma RasterizeActor_mark_atlas c st pass :
  AtlasTiles (surfaceAtlasData (RasterizeActor_mark c st pass))
  = AtlasTiles (loop_data st).
Proof. unfold RasterizeActor_mark. by repeat case_match. Qed.

Lemma RasterizeActor_snapped c pass :
  tiles_snapped (surfaceAtlasData pass) ->
  tiles_snapped (surfaceAtlasData (RasterizeActor c pass)).
Proof.
  intros Hs. unfold RasterizeActor.
  assert (tiles_snapped (loop_data (RasterizeActor_faces c (surfaceAtlasData pass))))
    as Hf.
  { unfold RasterizeActor_faces.
    apply (foldl_faces_inv c (fun st => tiles_snapped (loop_data st)));
      [apply faces_in_range| |done].
    intros st i _. apply RasterizeActor_face_snapped. }
  revert Hf. generalize (RasterizeActor_faces c (surfaceAtlasData pass)).
  intros st Hf root p r. rewrite RasterizeActor_mark_atlas. apply Hf.
Qed.

Lemma draw_calls_snapped calls pass :
  tiles_snapped (surfaceAtlasData pass) ->
  tiles_snapped (surfaceAtlasData (foldl (fun p c => RasterizeActor c p) pass calls)).
Proof.
  revert pass. induction calls as [|c calls IH]; simpl; intros pass Hs; [done|].
  apply IH. by apply RasterizeActor_snapped.
Qed.

Lemma update_atlas_snapped MAX inp pass :
  tiles_snapped (surfaceAtlasData pass) ->
  tiles_snapped (surfaceAtlasData (update_atlas MAX inp pass).1).
Proof.
  intros Hs. unfold update_atlas, draw_atlas.
  set (d0 := set_CustomBuffer_LastFrameUsed (FrameCount inp) (surfaceAtlasData pass)).
  assert (tiles_snapped (init_buffers MAX inp d0).1) as Hinit.
  { unfold init_buffers. repeat case_match; simpl; try done;
      intros root p r; simpl; done. }
  destruct (init_buffers MAX inp d0) as [d1 failed]. simpl in Hinit.
  destruct failed; simpl; [done|].
  assert (tiles_snapped (ensure_atlas (atlas_resolution MAX inp) d1)) as Hroot.
  { unfold ensure_atlas. destruct (AtlasTiles d1) eqn:Ht; [done|].
    intros root p r. simpl. intros [= <-]. unfold new_atlas.
    by destruct p as [|[] p]. }
  assert (tiles_snapped
            (surfaceAtlasData
               (draw_objects inp
                  (with_data (ensure_atlas (atlas_resolution MAX inp) d1) pass))))
    as Hdrawn by (unfold draw_objects; by apply draw_calls_snapped).
  revert Hdrawn. generalize (draw_objects inp
    (with_data (ensure_atlas (atlas_resolution MAX inp) d1) pass)).
  intros pass1 Hdrawn root p r. simpl.
  destruct (AtlasTiles (surfaceAtlasData pass1)) as [root1|] eqn:Ht; [|done].
  simpl. intros [= <-] Hp%Free_list_used. by eapply Hdrawn.
Qed.

Lemma Render_snapped MAX LAT inp pass :
  tiles_snapped (surfaceAtlasData pass) ->
  tiles_snapped (surfaceAtlasData (Render MAX LAT inp pass).1).
Proof.
  intros Hs. unfold Render.
  destruct (passSkipped inp); [done|]. destruct (_ =? _); [done|].
  pose proof (update_atlas_snapped MAX inp pass Hs) as Hupd.
  destruct (update_atlas MAX inp pass) as [pass1 failed].
  destruct failed; simpl in *; [done|].
  destruct (cull_objects_cache LAT inp pass1) as (Ht & _).
  intros root p r. rewrite Ht. apply Hupd.
Qed.

(** X11: after any sequence of frames, every tile the cache holds is a
    square of the packer whose side is a multiple of 8 within
    [[GLOBAL_SURFACE_ATLAS_TILE_SIZE_MIN, GLOBAL_SURFACE_ATLAS_TILE_SIZE_MAX]]
    (the packer hands out the size asked for, and [RasterizeActor] only asks
    for snapped resolutions, with no padding), so the width and height less
    [GLOBAL_SURFACE_ATLAS_TILE_PADDING] that the tile is drawn with are
    positive. *)
Theorem held_tiles_are_snapped GPU_MAX_TEXTURE_SIZE GPU_ASYNC_LATENCY
    (slots : nat) (inputs : list RenderInput)
    (key : Z) (tileIndex : nat) (tile : TilePtr) :
  256 <= GPU_MAX_TEXTURE_SIZE ->
  let d := surfaceAtlasData
             (run GPU_MAX_TEXTURE_SIZE GPU_ASYNC_LATENCY inputs (new_pass slots)) in
  object_tile d key tileIndex = Some tile ->
  exists r,
    tile_rect d tile = Some r /\ Width r = Height r /\
    GLOBAL_SURFACE_ATLAS_TILE_SIZE_MIN <= Width r
      <= GLOBAL_SURFACE_ATLAS_TILE_SIZE_MAX /\
    Width r mod 8 = 0 /\
    0 < Width r - GLOBAL_SURFACE_ATLAS_TILE_PADDING.
Proof.
  intros Hmax d Ho.
  assert (atlas_inv d) as [_ Hown _ _]
    by (apply run_inv; [done|apply new_pass_inv]).
  assert (tiles_snapped d) as Hs.
  { subst d. unfold run.
    assert (tiles_snapped (surfaceAtlasData (new_pass slots))) as Hnew by done.
    revert Hnew. generalize (new_pass slots). clear Ho Hown.
    induction inputs as [|inp inputs IH]; simpl; intros pass Hpass; [done|].
    apply IH. by apply Render_snapped. }
  destruct (Hown key tileIndex tile) as [(root & r & Hroot & Hr) _];
    [by intros []|done|].
  destruct (Hs root tile r Hroot Hr) as (Hsq & Hb & Hm).
  exists r. unfold tile_rect. rewrite Hroot, Hr. simpl.
  split; [done|]. split; [done|]. split; [done|]. split; [done|].
  unfold GLOBAL_SURFACE_ATLAS_TILE_SIZE_MIN, GLOBAL_SURFACE_ATLAS_TILE_PADDING in *.
  lia.
Qed.

Lemma held_tiles_are_snapped_witness :
  let d := surfaceAtlasData (run 8192 2 [frame 1 [crate; wall]] (new_pass 4)) in
  exists r, tile_rect d [GoRight; GoRight] = Some r /\ Width r = 192 /\
            Width r = Height r.
Proof.
  intros d.
  destruct (held_tiles_are_snapped 8192 2 4 [frame 1 [crate; wall]] 200 0%nat
              [GoRight; GoRight] ltac:(lia))
    as (r & Hr & Hsq & _); [vm_compute; reflexivity|].
  exists r. split; [exact Hr|]. split; [|exact Hsq].
  vm_compute in Hr. injection Hr as <-. reflexivity.
Defined.

(** ** Resources of the pass *)

Ltac split_flags :=
  repeat (match goal with
          | H : context [if ?c then _ else _] |- _ =>
              match c with
              | context [?b] => is_var b; destruct b; simpl in *
              end
          | |- context [if ?c then _ else _] =>
              match c with
              | context [?b] => is_var b; destruct b; simpl in *
              end
          end; try done).

Ltac run_setup s env :=
  destruct s as [sup sh cb cs pd pc p0 p1 pi];
  destruct env as [found loaded ecb ecs fd fc f0 f1 fi];
  unfold setupResources, and_then, check_supported, load_shader,
    get_constants, setup_psDebug, setup_psClear, setup_lighting in *;
  simpl in *.

(** X12: when [setupResources] returns [false], the pass is supported and
    the shader, its constant buffer and the pipeline states for debugging,
    for clearing and for the directional light are set; the two other
    lighting pipeline states are then set as well if the one for the
    directional light was missing before the call, which is the case for
    a pass as constructed, after [OnShaderReloading] and after
    [Dispose]. *)
Theorem setupResources_success (env : ResourceEnv) (s : PassResources) :
  let s' := (setupResources env s).1 in
  (setupResources env s).2 = false ->
  supported s' = true /\ shader s' = true /\ cb0 s' = true /\
  psDebug s' = true /\ psClear s' = true /\ psDirectLighting0 s' = true /\
  (psDirectLighting0 s = false ->
   psDirectLighting1 s' = true /\ psIndirectLighting s' = true) /\
  psDirectLighting0 (OnShaderReloading s) = false /\
  psDirectLighting0 (Dispose s) = false /\
  psDirectLighting0 no_resources = false.
Proof.
  intros s' Hok. subst s'. run_setup s env. split_flags.
Qed.

Lemma setupResources_success_witness :
  let s := (Init true no_resources).1 in
  (setupResources all_available s).2 = false /\
  psDirectLighting1 (setupResources all_available s).1 = true /\
  psIndirectLighting (setupResources all_available s).1 = true.
Proof.
  intros s. split; [reflexivity|].
  destruct (setupResources_success all_available s eq_refl)
    as (_ & _ & _ & _ & _ & _ & Hlighting & _).
  exact (Hlighting eq_refl).
Defined.

(** X13: the lighting pipeline states are not tried again.  When a call
    of [setupResources] gets as far as creating the pipeline state of the
    directional light and then fails on one of the two that follow, it
    returns [true]; every later call that finds the shader loaded returns
    [false], without creating or initialising anything, and if it was the
    second pipeline state that failed, [_psIndirectLighting] is still
    null. *)
Theorem setupResources_lighting_not_retried (env env' : ResourceEnv)
    (s : PassResources) :
  let first := setupResources env s in
  let second := setupResources env' first.1 in
  supported s = true -> psDirectLighting0 s = false ->
  psIndirectLighting s = false ->
  shaderFound env = true -> shaderLoaded env = true -> shaderCB env = true ->
  psDebugInitFailed env = false -> psClearInitFailed env = false ->
  psDirectLighting0InitFailed env = false ->
  psDirectLighting1InitFailed env = true \/
  psIndirectLightingInitFailed env = true ->
  shaderLoaded env' = true -> shaderCB env' = true ->
  first.2 = true /\ second.2 = false /\
  psDirectLighting1 second.1 = psDirectLighting1 first.1 /\
  psIndirectLighting second.1 = psIndirectLighting first.1 /\
  (psDirectLighting1InitFailed env = true ->
   psIndirectLighting second.1 = false).
Proof.
  intros first second. subst first second.
  destruct env' as [found' loaded' ecb' ecs' fd' fc' f0' f1' fi'].
  run_setup s env.
  intros -> -> -> -> -> -> -> -> -> Hfail -> ->. simpl.
  destruct sh, pd, pc, f1; simpl; split_flags; by destruct Hfail.
Qed.

Lemma setupResources_lighting_not_retried_witness :
  let s := (Init true no_resources).1 in
  let first := setupResources lighting1_unavailable s in
  let second := setupResources all_available first.1 in
  first.2 = true /\ second.2 = false /\ psIndirectLighting second.1 = false.
Proof.
  intros s first second.
  destruct (setupResources_lighting_not_retried lighting1_unavailable
              all_available s eq_refl eq_refl eq_refl eq_refl eq_refl eq_refl
              eq_refl eq_refl eq_refl (or_introl eq_refl) eq_refl eq_refl)
    as (H1 & H2 & _ & _ & H3).
  split; [exact H1|]. split; [exact H2|]. exact (H3 eq_refl).
Defined.

(** X14: once [setupResources] has returned [false], every later call that
    finds the shader loaded and its constant buffer returns [false] again
    and changes no member, apart from fetching the compute shader anew: no
    pipeline state is created or initialised twice. *)
Theorem setupResources_stable (env env' : ResourceEnv) (s : PassResources) :
  let s' := (setupResources env s).1 in
  (setupResources env s).2 = false ->
  shaderLoaded env' = true -> shaderCB env' = true ->
  setupResources env' s'
  = (mkResources (supported s') (shader s') (cb0 s') (shaderCS env')
       (psDebug s') (psClear s') (psDirectLighting0 s')
       (psDirectLighting1 s') (psIndirectLighting s'), false).
Proof.
  intros s' Hok. subst s'.
  destruct env' as [found' loaded' ecb' ecs' fd' fc' f0' f1' fi'].
  run_setup s env. intros -> ->. split_flags.
Qed.

Lemma setupResources_stable_witness :
  let s := (setupResources all_available (Init true no_resources).1).1 in
  setupResources lighting1_unavailable s = (s, false).
Proof.
  intros s.
  exact (setupResources_stable all_available lighting1_unavailable
           (Init true no_resources).1 eq_refl eq_refl eq_refl).
Defined.

(** ** The objects buffer *)

Lemma tiles_before_S_Some tiles n t :
  tiles !! n = Some (Some t) ->
  tiles_before tiles (S n) = S (tiles_before tiles n).
Proof.
  intros Hn. unfold tiles_before. rewrite (take_S_r _ _ _ Hn), omap_app.
  rewrite length_app. simpl. lia.
Qed.

Lemma tiles_before_S_None tiles n :
  tiles !! n = Some None -> tiles_before tiles (S n) = tiles_before tiles n.
Proof.
  intros Hn. unfold tiles_before. rewrite (take_S_r _ _ _ Hn), omap_app.
  rewrite length_app. simpl. lia.
Qed.

Lemma tiles_before_le tiles n : (tiles_before tiles n <= n)%nat.
Proof.
  induction n as [|n IH]; [unfold tiles_before; by rewrite take_0|].
  destruct (tiles !! n) as [[t|]|] eqn:Hn.
  - rewrite (tiles_before_S_Some _ _ _ Hn). lia.
  - rewrite (tiles_before_S_None _ _ Hn). lia.
  - apply lookup_ge_None in Hn. unfold tiles_before in *.
    rewrite !take_ge in * by lia. lia.
Qed.

Lemma write_tile_inv start key w tiles n st :
  Z.of_nat start + 36 < 2 ^ 32 -> (n < 6)%nat -> length tiles = 6%nat ->
  object_data_inv start key w tiles n st ->
  object_data_inv start key w tiles (S n) (write_tile start tiles st n).
Proof.
  intros Hsmall Hn Hlen [Hsize Hlength Hbefore Hbounds Hlayout Hrows Holen
                          Htile Hnone Hother Haddr].
  pose proof (tiles_before_le tiles n) as Hle.
  unfold write_tile.
  destruct (tiles !! n) as [[t0|]|] eqn:Ht; simpl.
  3: { apply lookup_ge_None in Ht. lia. }
  - (* the slot holds a tile *)
    assert (tile_offset tiles (S n) = (tile_offset tiles n + 5)%nat) as Hoff.
    { unfold tile_offset. rewrite (tiles_before_S_Some _ _ _ Ht).
      unfold GLOBAL_SURFACE_ATLAS_TILE_DATA_STRIDE. lia. }
    assert ((tile_offset tiles n <= 31)%nat) as Hbound.
    { unfold tile_offset, GLOBAL_SURFACE_ATLAS_OBJECT_DATA_STRIDE,
        GLOBAL_SURFACE_ATLAS_TILE_DATA_STRIDE. lia. }
    assert (wrap16 (objectDataSize st) = objectDataSize st) as Hw16.
    { unfold wrap16. rewrite Hsize. apply Z.mod_small. lia. }
    assert (wrap32 (objectDataSize st + Z.of_nat 5)
            = Z.of_nat (tile_offset tiles (S n))) as Hw32.
    { unfold wrap32. rewrite Hsize, Hoff. rewrite Z.mod_small; lia. }
    assert (wrap32 (wrap32 (Z.of_nat start) + objectDataSize st)
            = Z.of_nat (start + tile_offset tiles n)) as Hwaddr.
    { unfold wrap32. rewrite Hsize, (Z.mod_small (Z.of_nat start)) by lia.
      rewrite Z.mod_small; lia. }
    unfold GLOBAL_SURFACE_ATLAS_TILE_DATA_STRIDE in *.
    rewrite Hw16, Hw32, Hwaddr.
    set (data := Data (objects_buffer st)) in *.
    set (layout := ObjectLayout _ _).
    assert (forall j x, j <> S start -> data !! j = Some x ->
              (<[S start := layout]> data ++ tileData t0) !! j = Some x)
      as Hkeep.
    { intros j x Hj Hx. apply lookup_app_l_Some.
      by rewrite list_lookup_insert_ne. }
    split; simpl.
    + done.
    + rewrite length_app, length_insert, Hlength, Hoff.
      unfold tileData, GLOBAL_SURFACE_ATLAS_TILE_DATA_STRIDE.
      rewrite length_fmap, length_seq. lia.
    + intros j Hj. rewrite lookup_app_l
        by (rewrite length_insert, Hlength; unfold tile_offset; lia).
      rewrite list_lookup_insert_ne by lia. by apply Hbefore.
    + apply Hkeep; [lia|done].
    + apply lookup_app_l_Some, list_lookup_insert_eq.
      rewrite Hlength. unfold tile_offset,
        GLOBAL_SURFACE_ATLAS_OBJECT_DATA_STRIDE. lia.
    + intros row Hrow. apply Hkeep; [lia|by apply Hrows].
    + by rewrite length_insert.
    + intros i t Hi Hit. destruct (decide (i = n)) as [->|Hne].
      * rewrite Ht in Hit. injection Hit as ->.
        split; [rewrite list_lookup_insert_eq by lia; by rewrite Hsize|].
        intros row Hrow.
        rewrite lookup_app_r by (rewrite length_insert, Hlength; lia).
        rewrite length_insert, Hlength.
        replace (start + tile_offset tiles n + row
                 - (start + tile_offset tiles n))%nat with row by lia.
        unfold tileData. rewrite list_lookup_fmap, lookup_seq_lt by done.
        done.
      * destruct (Htile i t ltac:(lia) Hit) as [Hoffs Hdata].
        split; [by rewrite list_lookup_insert_ne|].
        intros row Hrow. apply Hkeep; [|by apply Hdata].
        unfold tile_offset, GLOBAL_SURFACE_ATLAS_OBJECT_DATA_STRIDE. lia.
    + intros i Hi Hcase.
      assert (i <> n) as Hne by (intros ->; destruct Hcase; [lia|congruence]).
      rewrite list_lookup_insert_ne by done.
      apply Hnone; [done|]. destruct Hcase; [left; lia|by right].
    + intros t Habsent.
      destruct (decide (t = t0)) as [->|Hne];
        [by destruct (Habsent n ltac:(lia))|].
      apply Hother. intros i Hi. apply Habsent. lia.
    + intros i t Hi Hit Hlast. destruct (decide (i = n)) as [->|Hne].
      * rewrite Ht in Hit. injection Hit as ->.
        rewrite decide_True by done. by rewrite Hsize.
      * assert (t <> t0) as Hne0
          by (intros ->; by destruct (Hlast n ltac:(lia))).
        rewrite decide_False by done.
        apply Haddr; [lia|done|]. intros j Hj. apply Hlast. lia.
  - (* the slot is empty *)
    assert (tile_offset tiles (S n) = tile_offset tiles n) as Hoff
      by (unfold tile_offset; by rewrite (tiles_before_S_None _ _ Ht)).
    split; rewrite ?Hoff; try done.
    + intros i t Hi Hit. apply Htile; [|done].
      destruct (decide (i = n)) as [->|]; [congruence|lia].
    + intros i Hi Hcase. apply Hnone; [done|].
      destruct Hcase as [Hge|?]; [|by right].
      destruct (decide (i = n)) as [->|]; [by right|left; lia].
    + intros t Habsent. apply Hother. intros i Hi. apply Habsent. lia.
    + intros i t Hi Hit Hlast.
      assert (i <> n) as Hne by congruence.
      apply Haddr; [lia|done|]. intros j Hj. apply Hlast. lia.
Qed.

Lemma write_tiles_inv start key w tiles n st :
  Z.of_nat start + 36 < 2 ^ 32 -> (n <= 6)%nat -> length tiles = 6%nat ->
  object_data_inv start key w tiles 0 st ->
  object_data_inv start key w tiles n
    (foldl (write_tile start tiles) st (seq 0 n)).
Proof.
  intros Hsmall Hn Hlen Hst. induction n as [|n IH]; [done|].
  rewrite seq_S, foldl_snoc. simpl.
  apply write_tile_inv; [done|lia|done|]. apply IH. lia.
Qed.

Lemma write_object_data_inv key tiles w :
  Z.of_nat (length (Data w)) + 36 < 2 ^ 32 -> length tiles = 6%nat ->
  exists st,
    write_object_data key tiles w = objects_buffer st /\
    object_data_inv (length (Data w)) key w tiles 6 st.
Proof.
  intros Hsmall Hlen. eexists. split; [reflexivity|].
  apply write_tiles_inv; [done|lia|done|].
  assert (tile_offset tiles 0 = 6%nat) as Hzero
    by (unfold tile_offset, tiles_before; by rewrite take_0).
  split; simpl; rewrite ?Hzero.
  - done.
  - rewrite length_app. simpl. lia.
  - intros j Hj. by rewrite lookup_app_l.
  - rewrite lookup_app_r by lia. by rewrite Nat.sub_diag.
  - rewrite lookup_app_r by lia.
    by replace (S (length (Data w)) - length (Data w))%nat with 1%nat by lia.
  - intros row Hrow. rewrite lookup_app_r by lia.
    replace (length (Data w) + row - length (Data w))%nat with row by lia.
    destruct row as [|[|[|[|[|[|row]]]]]]; try lia; done.
  - done.
  - intros i t Hi. lia.
  - intros i Hi _. change [0; 0; 0; 0; 0; 0] with (replicate 6 0).
    apply lookup_replicate. split; [done|lia].
  - done.
  - intros i t Hi. lia.
Qed.

Lemma tiles_before_mono tiles n m :
  (n <= m)%nat -> (tiles_before tiles n <= tiles_before tiles m)%nat.
Proof.
  induction m as [|m IH]; intros Hnm.
  { by replace n with 0%nat by lia. }
  destruct (decide (n = S m)) as [->|Hne]; [done|].
  specialize (IH ltac:(lia)).
  destruct (tiles !! m) as [[t|]|] eqn:Hm.
  - rewrite (tiles_before_S_Some _ _ _ Hm). lia.
  - rewrite (tiles_before_S_None _ _ Hm). lia.
  - apply lookup_ge_None in Hm. unfold tiles_before in *.
    rewrite (take_ge tiles (S m)) by lia. rewrite (take_ge tiles m) in IH by lia.
    done.
Qed.

Lemma tile_offset_next tiles i j t :
  (i < j)%nat -> tiles !! i = Some (Some t) ->
  (tile_offset tiles i + 5 <= tile_offset tiles j)%nat.
Proof.
  intros Hij Hi. unfold tile_offset, GLOBAL_SURFACE_ATLAS_TILE_DATA_STRIDE.
  pose proof (tiles_before_mono tiles (S i) j ltac:(lia)) as Hm.
  rewrite (tiles_before_S_Some _ _ _ Hi) in Hm. lia.
Qed.

(** X15: the data [RasterizeActor] appends to the objects buffer for an
    object has the layout its second cell describes.  The cells written
    before are untouched; the object takes 6 cells plus 5 for each of its
    tiles; the second cell holds that size and, for each face, the offset of
    the tile's data from the start of the object (zero for a face without
    tile); the five rows of a tile lie at that offset, inside the object,
    and the rows of two tiles do not overlap. *)
Theorem object_data_layout (key : Z) (tiles : list (option TilePtr))
    (w : ObjectsBuffer) :
  let start := length (Data w) in
  let w' := write_object_data key tiles w in
  let size := tile_offset tiles 6 in
  Z.of_nat start + 36 < 2 ^ 32 -> length tiles = 6%nat ->
  length (Data w') = (start + size)%nat /\
  size = (6 + 5 * length (omap id tiles))%nat /\
  (forall j, (j < start)%nat -> Data w' !! j = Data w !! j) /\
  Data w' !! start = Some (ObjectBounds key) /\
  (exists offsets,
     Data w' !! S start = Some (ObjectLayout offsets (Z.of_nat size)) /\
     length offsets = 6%nat /\
     forall i, (i < 6)%nat ->
       offsets !! i
       = Some (match tiles !! i with
               | Some (Some _) => Z.of_nat (tile_offset tiles i)
               | _ => 0
               end)) /\
  (forall i t, tiles !! i = Some (Some t) ->
     (6 <= tile_offset tiles i)%nat /\
     (tile_offset tiles i + 5 <= size)%nat /\
     (forall j t', (i < j)%nat -> tiles !! j = Some (Some t') ->
        (tile_offset tiles i + 5 <= tile_offset tiles j)%nat) /\
     forall row, (row < 5)%nat ->
       Data w' !! (start + tile_offset tiles i + row)%nat
       = Some (TileRow t row)).
Proof.
  intros start w' size Hsmall Hlen.
  destruct (write_object_data_inv key tiles w Hsmall Hlen)
    as (st & Hst & [Hsize Hlength Hbefore Hbounds Hlayout Hrows Holen
                    Htile Hnone Hother Haddr]).
  subst w'. rewrite Hst. fold start in Hlength, Hbefore, Hbounds, Hlayout, Htile.
  split; [done|]. split.
  { subst size. unfold tile_offset, tiles_before.
    rewrite take_ge by lia. done. }
  split; [done|]. split; [done|]. split.
  { exists (tileOffsets st). rewrite Hlayout, Hsize. split; [done|].
    split; [done|]. intros i Hi.
    destruct (tiles !! i) as [[t|]|] eqn:Hti.
    - by destruct (Htile i t Hi Hti).
    - apply Hnone; [done|by right].
    - apply lookup_ge_None in Hti. lia. }
  intros i t Hti.
  assert ((i < 6)%nat) as Hi by (apply lookup_lt_Some in Hti; lia).
  split; [unfold tile_offset, GLOBAL_SURFACE_ATLAS_OBJECT_DATA_STRIDE; lia|].
  split; [by eapply tile_offset_next|].
  split; [intros j t' Hij _; by eapply tile_offset_next|].
  by destruct (Htile i t Hi Hti).
Qed.

Lemma object_data_layout_witness :
  let tiles := [Some [GoLeft]; None; None; Some [GoRight]; None; None] in
  let w' := write_object_data 100 tiles (mkObjectsBuffer [ObjectBounds 7]
                                           (fun _ => mkTileAddress 0 0)) in
  length (Data w') = 17%nat /\
  Data w' !! 2%nat = Some (ObjectLayout [6; 0; 0; 11; 0; 0] 16) /\
  Data w' !! 12%nat = Some (TileRow [GoRight] 0).
Proof.
  intros tiles w'.
  destruct (object_data_layout 100 tiles
              (mkObjectsBuffer [ObjectBounds 7] (fun _ => mkTileAddress 0 0))
              ltac:(simpl; lia) eq_refl)
    as (Hlen & _ & _ & _ & _ & Htiles).
  split; [exact Hlen|]. split; [reflexivity|].
  destruct (Htiles 3%nat [GoRight] eq_refl) as (_ & _ & _ & Hrows).
  exact (Hrows 0%nat ltac:(lia)).
Defined.

Lemma RasterizeActor_write_resolve c pass w st tileIndex tile :
  atlas_inv (loop_data st) ->
  Z.of_nat (length (Data w)) + 36 < 2 ^ 32 ->
  anyTile st = true ->
  is_Some (Objects (loop_data st) !! actorObject c) ->
  object_tile (surfaceAtlasData (RasterizeActor_mark c st pass)) (actorObject c)
    tileIndex = Some tile ->
  let w' := RasterizeActor_write c st w in
  let a := tile_address w' tile in
  Address a = Z.of_nat (length (Data w)) + ObjectAddressOffset a /\
  6 <= ObjectAddressOffset a <= 31 /\
  (exists offsets size,
     Data w' !! S (length (Data w)) = Some (ObjectLayout offsets size) /\
     offsets !! tileIndex = Some (ObjectAddressOffset a)) /\
  forall row, (row < 5)%nat ->
    Data w' !! (Z.to_nat (Address a) + row)%nat = Some (TileRow tile row).
Proof.
  intros [_ Hown Hslots _] Hsmall Hany [o Ho] Ht w' a. subst a w'.
  unfold RasterizeActor_write. rewrite Hany, Ho. simpl.
  assert (object_tile (loop_data st) (actorObject c) tileIndex = Some tile)
    as Hti.
  { revert Ht. unfold RasterizeActor_mark. rewrite Hany, Ho. simpl.
    by erewrite object_tile_mark. }
  assert (Tiles o !! tileIndex = Some (Some tile)) as Hslot.
  { apply object_tile_Some in Hti as (o' & Ho' & Hs). congruence. }
  assert (forall j, Tiles o !! j = Some (Some tile) -> j = tileIndex) as Hone.
  { intros j Hj. destruct (Hown (actorObject c) tileIndex tile) as [_ Hd];
      [by intros []|done|].
    destruct (Hd (actorObject c) j) as [_ ->]; [by intros []| |done].
    apply object_tile_Some. eauto. }
  pose proof (Hslots _ _ Ho) as Hlen.
  assert ((tileIndex < 6)%nat) as Hi
    by (apply lookup_lt_Some in Hslot; lia).
  destruct (write_object_data_inv (actorObject c) (Tiles o) w Hsmall Hlen)
    as (st' & -> & [Hsize Hlength Hbefore Hbounds Hlayout Hrows Holen
                    Htile Hnone Hother Haddr]).
  destruct (Htile tileIndex tile Hi Hslot) as [Hoffs Hdata].
  rewrite (Haddr tileIndex tile Hi Hslot).
  2: { intros j Hj Htj. apply Hone in Htj. lia. }
  simpl. pose proof (tiles_before_le (Tiles o) tileIndex) as Hle.
  split; [lia|]. split.
  { unfold tile_offset, GLOBAL_SURFACE_ATLAS_OBJECT_DATA_STRIDE,
      GLOBAL_SURFACE_ATLAS_TILE_DATA_STRIDE. lia. }
  split; [eauto|].
  intros row Hrow. rewrite Nat2Z.id. by apply Hdata.
Qed.

Lemma RasterizeActor_unfold c pass :
  RasterizeActor c pass
  = RasterizeActor_mark c (RasterizeActor_faces c (surfaceAtlasData pass)) pass.
Proof. reflexivity. Qed.

Lemma RasterizeActor_objects_unfold c pass w :
  RasterizeActor_objects c pass w
  = RasterizeActor_write c (RasterizeActor_faces c (surfaceAtlasData pass)) w.
Proof. reflexivity. Qed.

Lemma RasterizeActor_objects_resolve c pass w tileIndex tile :
  atlas_inv (surfaceAtlasData pass) ->
  is_Some (AtlasTiles (surfaceAtlasData pass)) ->
  Z.of_nat (length (Data w)) + 36 < 2 ^ 32 ->
  anyTile (RasterizeActor_faces c (surfaceAtlasData pass)) = true ->
  object_tile (surfaceAtlasData (RasterizeActor c pass)) (actorObject c)
    tileIndex = Some tile ->
  let w' := RasterizeActor_objects c pass w in
  let a := tile_address w' tile in
  Address a = Z.of_nat (length (Data w)) + ObjectAddressOffset a /\
  6 <= ObjectAddressOffset a <= 31 /\
  (exists offsets size,
     Data w' !! S (length (Data w)) = Some (ObjectLayout offsets size) /\
     offsets !! tileIndex = Some (ObjectAddressOffset a)) /\
  forall row, (row < 5)%nat ->
    Data w' !! (Z.to_nat (Address a) + row)%nat = Some (TileRow tile row).
Proof.
  intros Hinv Hroot Hsmall Hany Ht.
  destruct (RasterizeActor_faces_inv c _ Hinv Hroot) as [Hinv1 _].
  pose proof (RasterizeActor_faces_exists c (surfaceAtlasData pass) Hany)
    as Hex.
  rewrite RasterizeActor_unfold in Ht. rewrite RasterizeActor_objects_unfold.
  revert Hinv1 Hany Hex Ht.
  generalize (RasterizeActor_faces c (surfaceAtlasData pass)).
  intros st Hinv1 Hany Hex Ht.
  exact (RasterizeActor_write_resolve c pass w st tileIndex tile
           Hinv1 Hsmall Hany Hex Ht).
Qed.

(** X16: after a [RasterizeActor] call that leaves its object with a tile,
    made at any point while the objects of a frame are added, each tile the
    object holds has the address of its own data: [Address] is the start of
    the object's data plus [ObjectAddressOffset], the offset is the one the
    object's second cell lists for the face, and the five cells from
    [Address] on are the rows of that tile. *)
Theorem tile_addresses_resolve GPU_MAX_TEXTURE_SIZE GPU_ASYNC_LATENCY
    (slots : nat) (inputs : list RenderInput) (inp : RenderInput)
    (c : RasterizeCall) (w : ObjectsBuffer) (tileIndex : nat)
    (tile : TilePtr) :
  256 <= GPU_MAX_TEXTURE_SIZE ->
  let reached :=
    draw_atlas GPU_MAX_TEXTURE_SIZE inp
      (run GPU_MAX_TEXTURE_SIZE GPU_ASYNC_LATENCY inputs (new_pass slots)) in
  let w' := RasterizeActor_objects c reached.1 w in
  let a := tile_address w' tile in
  reached.2 = false ->
  Z.of_nat (length (Data w)) + 36 < 2 ^ 32 ->
  anyTile (RasterizeActor_faces c (surfaceAtlasData reached.1)) = true ->
  object_tile (surfaceAtlasData (RasterizeActor c reached.1)) (actorObject c)
    tileIndex = Some tile ->
  Address a = Z.of_nat (length (Data w)) + ObjectAddressOffset a /\
  6 <= ObjectAddressOffset a <= 31 /\
  (exists offsets size,
     Data w' !! S (length (Data w)) = Some (ObjectLayout offsets size) /\
     offsets !! tileIndex = Some (ObjectAddressOffset a)) /\
  forall row, (row < 5)%nat ->
    Data w' !! (Z.to_nat (Address a) + row)%nat = Some (TileRow tile row).
Proof.
  intros Hmax reached w' a Hok Hsmall Hany Ht.
  assert (atlas_inv (surfaceAtlasData
            (run GPU_MAX_TEXTURE_SIZE GPU_ASYNC_LATENCY inputs (new_pass slots))))
    as Hinv0 by (apply run_inv; [done|apply new_pass_inv]).
  destruct (draw_atlas_inv GPU_MAX_TEXTURE_SIZE Hmax inp _ Hinv0)
    as [Hinv Hroot].
  fold reached in Hinv, Hroot. specialize (Hroot Hok).
  exact (RasterizeActor_objects_resolve c reached.1 w tileIndex tile
           Hinv Hroot Hsmall Hany Ht).
Qed.

Lemma tile_addresses_resolve_witness :
  let reached := draw_atlas 8192 (frame 1 []) (new_pass 4) in
  let w' := RasterizeActor_objects crate reached.1
              (mkObjectsBuffer [] (fun _ => mkTileAddress 0 0)) in
  object_tile (surfaceAtlasData (RasterizeActor crate reached.1)) 100 1
  = Some [GoLeft; GoRight; GoLeft] /\
  Address (tile_address w' [GoLeft; GoRight; GoLeft]) = 11 /\
  Data w' !! 11%nat = Some (TileRow [GoLeft; GoRight; GoLeft] 0).
Proof.
  intros reached w'.
  assert (object_tile (surfaceAtlasData (RasterizeActor crate reached.1)) 100 1
          = Some [GoLeft; GoRight; GoLeft]) as Ht
    by (vm_compute; reflexivity).
  split; [exact Ht|].
  assert (Address (tile_address w' [GoLeft; GoRight; GoLeft]) = 11)
    as Ha by (vm_compute; reflexivity).
  split; [exact Ha|].
  destruct (tile_addresses_resolve 8192 2 4 [] (frame 1 []) crate
              (mkObjectsBuffer [] (fun _ => mkTileAddress 0 0)) 1%nat
              [GoLeft; GoRight; GoLeft] ltac:(lia))
    as (_ & _ & _ & Hrows).
  - vm_compute. reflexivity.
  - simpl. lia.
  - vm_compute. reflexivity.
  - exact Ht.
  - specialize (Hrows 0%nat ltac:(lia)).
    change (Data w' !! (Z.to_nat (Address (tile_address w'
                                             [GoLeft; GoRight; GoLeft])) + 0)%nat
            = Some (TileRow [GoLeft; GoRight; GoLeft] 0)) in Hrows.
    rewrite Ha in Hrows. exact Hrows.
Defined.

(** ** Frames after which the atlas is not ready *)

Lemma init_buffers_cleared MAX inp d :
  Resolution d <> atlas_resolution MAX inp \/
  defragmentation_needed (FrameCount inp) d = true ->
  CulledObjectsCounterIndex (init_buffers MAX inp d).1 = -1 /\
  Objects (init_buffers MAX inp d).1 = ∅.
Proof.
  intros Hwhy. unfold init_buffers.
  destruct (Resolution d =? atlas_resolution MAX inp) eqn:Er; simpl.
  - destruct Hwhy as [Hne|Hdefrag]; [zbool; done|]. by rewrite Hdefrag.
  - by repeat case_match.
Qed.

Lemma update_atlas_keeps_slot MAX inp pass :
  CulledObjectsCounterIndex (surfaceAtlasData (update_atlas MAX inp pass).1)
  = CulledObjectsCounterIndex
      (init_buffers MAX inp
         (set_CustomBuffer_LastFrameUsed (FrameCount inp) (surfaceAtlasData pass))).1.
Proof.
  unfold update_atlas, draw_atlas.
  destruct (init_buffers MAX inp _) as [d1 failed].
  destruct failed; simpl; [done|].
  destruct (draw_objects_settings inp
              (with_data (ensure_atlas (atlas_resolution MAX inp) d1) pass))
    as ((_ & _ & _ & _ & _ & Hi & _) & _).
  rewrite Hi. simpl.
  by destruct (ensure_atlas_settings (atlas_resolution MAX inp) d1)
    as (_ & _ & _ & -> & _).
Qed.

(** X17: a frame that clears the cache, because the resolution changed or
    a defragmentation was due, leaves the buffer without counter slot; if
    objects are then culled into the chunks, [Render] returns [true] for
    that frame: the atlas is reported as not ready (or a buffer could not
    be initialised), however recent the counters read back are. *)
Theorem cleared_frame_not_ready GPU_MAX_TEXTURE_SIZE GPU_ASYNC_LATENCY
    (inp : RenderInput) (pass : GlobalSurfaceAtlasPass) :
  let d := surfaceAtlasData pass in
  let updated := update_atlas GPU_MAX_TEXTURE_SIZE inp pass in
  passSkipped inp = false ->
  CustomBuffer_LastFrameUsed d <> FrameCount inp ->
  Resolution d <> atlas_resolution GPU_MAX_TEXTURE_SIZE inp \/
  defragmentation_needed (FrameCount inp) d = true ->
  updated.2 = false ->
  Objects (surfaceAtlasData updated.1) <> ∅ ->
  ChunksBuffer (surfaceAtlasData updated.1) = true ->
  CulledObjectsCounterIndex (surfaceAtlasData updated.1) = -1 /\
  (Render GPU_MAX_TEXTURE_SIZE GPU_ASYNC_LATENCY inp pass).2 = true.
Proof.
  intros d updated Hskip Hframe Hwhy Hok Hobj Hchunks.
  assert (CulledObjectsCounterIndex (surfaceAtlasData updated.1) = -1) as Hidx.
  { subst updated. rewrite update_atlas_keeps_slot.
    by apply init_buffers_cleared. }
  split; [done|].
  rewrite (Render_culls _ _ _ _ Hskip Hframe Hok). fold updated. simpl.
  destruct (negb (culledObjectsSizeBuffer updated.1) && sizeBufferInitFailed inp)
    eqn:Esize.
  - assert (culled_failed (cull_objects GPU_ASYNC_LATENCY inp updated.1) = true)
      as ->; [|done].
    unfold cull_objects.
    destruct (decide (Objects (surfaceAtlasData updated.1) = ∅)); [done|].
    rewrite Hchunks. unfold readback. by rewrite Esize.
  - destruct (cull_objects_runs GPU_ASYNC_LATENCY inp updated.1 Hobj Hchunks Esize)
      as (d2 & _ & _ & Hstale & _).
    rewrite Hstale, Hidx. simpl.
    by destruct (culled_failed (cull_objects GPU_ASYNC_LATENCY inp updated.1)).
Qed.

Lemma cleared_frame_not_ready_witness :
  let pass := run 8192 2 [frame 3 [crate]; frame_read 4 [crate] [25; 0; 0; 0]]
                (new_pass 4) in
  (Render 8192 2 (frame_read 5 [crate] [25; 25; 0; 0]) pass).2 = false /\
  (Render 8192 2 (mkInput 5 false 512 false false [crate] 100 false
                    (Some [25; 25; 0; 0]) false) pass).2 = true.
Proof.
  intros pass. split; [vm_compute; reflexivity|].
  refine (proj2 (cleared_frame_not_ready 8192 2
            (mkInput 5 false 512 false false [crate] 100 false
               (Some [25; 25; 0; 0]) false) pass eq_refl _ (or_introl _) _ _ _)).
  - vm_compute. discriminate.
  - vm_compute. discriminate.
  - vm_compute. reflexivity.
  - intros Hempty.
    assert (Objects (surfaceAtlasData
              (update_atlas 8192
                 (mkInput 5 false 512 false false [crate] 100 false
                    (Some [25; 25; 0; 0]) false) pass).1) !! 100 = None)
      as Hnone by (rewrite Hempty; apply lookup_empty).
    vm_compute in Hnone. discriminate Hnone.
  - vm_compute. reflexivity.
Defined.

(** ** The readback ring *)

(** X18: the counter slot of the buffer.  A slot that is assigned stays
    assigned by the readback; a buffer without slot gets the first slot of
    the ring whose last copy is more than [GPU_ASYNC_LATENCY] frames old,
    and none when there is no such slot, as in the first
    [GPU_ASYNC_LATENCY] frames after the ring was created; in both cases
    the frame is not ready.  The slot in use is stamped with the current
    frame and the other entries of the ring are left as they are. *)
Theorem counter_slot_assignment GPU_ASYNC_LATENCY (inp : RenderInput)
    (capacity : Z) (pass : GlobalSurfaceAtlasPass) :
  let F := FrameCount inp in
  let r := readback GPU_ASYNC_LATENCY inp capacity pass in
  let ring :=
    if culledObjectsSizeBuffer pass then culledObjectsSizeFrames pass
    else replicate (length (culledObjectsSizeFrames pass)) 0 in
  let index := CulledObjectsCounterIndex (surfaceAtlasData pass) in
  let index' := CulledObjectsCounterIndex (surfaceAtlasData (culled_pass r)) in
  culled_failed r = false ->
  (index <> -1 -> index' = index) /\
  (index = -1 ->
   notReady r = true /\
   (index' = -1 -> forall f, f ∈ ring -> sub64 F f <= GPU_ASYNC_LATENCY) /\
   (index' <> -1 ->
    exists f, ring !! Z.to_nat index' = Some f /\
              GPU_ASYNC_LATENCY < sub64 F f /\
              forall j g, (j < Z.to_nat index')%nat -> ring !! j = Some g ->
                          sub64 F g <= GPU_ASYNC_LATENCY) /\
   (culledObjectsSizeBuffer pass = false ->
    0 <= F <= GPU_ASYNC_LATENCY -> index' = -1)) /\
  culledObjectsSizeFrames (culled_pass r)
  = (if index' =? -1 then ring else <[Z.to_nat index' := F]> ring).
Proof.
  intros F r ring index index'. subst r index'. unfold readback.
  destruct (culledObjectsSizeBuffer pass) eqn:Hbuf; simpl.
  - subst ring F. destruct (read_counter inp _ capacity) as [cap stale].
    simpl. intros _.
    fold index. destruct (index =? -1) eqn:Eidx; zbool.
    + split; [done|]. split; [|done]. intros _. split; [done|].
      unfold find_free_slot.
      match goal with
      | |- context [list_find ?P ?l] =>
          destruct (list_find P l) as [[i f]|] eqn:Hfind
      end.
      * apply list_find_Some in Hfind as (Hi & Hf & Hbefore).
        split; [lia|]. split; [|done]. intros _. rewrite Nat2Z.id.
        exists f. split; [done|]. split; [done|].
        intros j g Hj Hg. specialize (Hbefore j g Hg Hj). lia.
      * split; [|done]. intros _ f Hf.
        apply list_find_None in Hfind. rewrite Forall_forall in Hfind.
        specialize (Hfind f Hf). simpl in Hfind. lia.
    + split; [done|]. split; [done|]. done.
  - subst ring F. destruct (sizeBufferInitFailed inp); [done|].
    destruct (read_counter inp _ capacity) as [cap stale]. simpl. intros _.
    fold index. destruct (index =? -1) eqn:Eidx; zbool.
    + split; [done|]. split; [|done]. intros _. split; [done|].
      unfold find_free_slot.
      match goal with
      | |- context [list_find ?P ?l] =>
          destruct (list_find P l) as [[i f]|] eqn:Hfind
      end.
      * apply list_find_Some in Hfind as (Hi & Hf & Hbefore).
        split; [lia|]. split.
        { intros _. rewrite Nat2Z.id.
          exists f. split; [done|]. split; [done|].
          intros j g Hj Hg. specialize (Hbefore j g Hg Hj). lia. }
        intros _ HF.
        apply lookup_replicate in Hi as [-> _].
        unfold sub64, wrap64 in Hf. rewrite Z.sub_0_r in Hf.
        destruct (Z.lt_ge_cases (FrameCount inp) (2 ^ 64)) as [Hlt|Hbig].
        -- rewrite Z.mod_small in Hf; lia.
        -- pose proof (Z.mod_pos_bound (FrameCount inp) (2 ^ 64) ltac:(lia)).
           lia.
      * split; [|done]. intros _ f Hf.
        apply list_find_None in Hfind. rewrite Forall_forall in Hfind.
        specialize (Hfind f Hf). simpl in Hfind. lia.
    + split; [done|]. split; [done|]. done.
Qed.

(** ** How often the cache is defragmented *)

Lemma Render_keeps_defragmentation MAX LAT inp pass :
  init_buffers MAX inp
    (set_CustomBuffer_LastFrameUsed (FrameCount inp) (surfaceAtlasData pass))
  = (set_CustomBuffer_LastFrameUsed (FrameCount inp) (surfaceAtlasData pass),
     false) ->
  LastFrameAtlasDefragmentation (surfaceAtlasData (Render MAX LAT inp pass).1)
  = LastFrameAtlasDefragmentation (surfaceAtlasData pass).
Proof.
  intros Hinit. unfold Render.
  destruct (passSkipped inp) eqn:Hskip; [done|].
  destruct (_ =? _) eqn:E; [done|]. zbool.
  pose proof (Render_defragmentation_frame MAX LAT inp pass
                (LastFrameAtlasDefragmentation (surfaceAtlasData pass))
                Hskip E) as Hkeep.
  rewrite Hinit in Hkeep. specialize (Hkeep eq_refl).
  unfold Render in Hkeep. rewrite Hskip in Hkeep.
  destruct (_ =? _) eqn:E'; [zbool; done|]. exact Hkeep.
Qed.

(** X19: the cache is not defragmented twice within 61 frames.  In a frame
    at most 60 frames after the last clearing of the cache
    ([LastFrameAtlasDefragmentation]), with the resolution unchanged, the
    objects and the packer enter the draw phase as they are, however recent
    the last insertion failure is, and the frame of the last clearing stays
    what it was. *)
Theorem defragmentation_rate_limit GPU_MAX_TEXTURE_SIZE GPU_ASYNC_LATENCY
    (inp : RenderInput) (pass : GlobalSurfaceAtlasPass) :
  let d := surfaceAtlasData pass in
  let F := FrameCount inp in
  0 <= LastFrameAtlasDefragmentation d <= F ->
  F <= LastFrameAtlasDefragmentation d + 60 -> F < 2 ^ 64 ->
  Resolution d = atlas_resolution GPU_MAX_TEXTURE_SIZE inp ->
  init_buffers GPU_MAX_TEXTURE_SIZE inp (set_CustomBuffer_LastFrameUsed F d)
  = (set_CustomBuffer_LastFrameUsed F d, false) /\
  LastFrameAtlasDefragmentation
    (surfaceAtlasData
       (Render GPU_MAX_TEXTURE_SIZE GPU_ASYNC_LATENCY inp pass).1)
  = LastFrameAtlasDefragmentation d.
Proof.
  intros d F Hlast Hnear Hsmall Hres.
  assert (init_buffers GPU_MAX_TEXTURE_SIZE inp
            (set_CustomBuffer_LastFrameUsed F d)
          = (set_CustomBuffer_LastFrameUsed F d, false)) as Hinit.
  { unfold init_buffers. simpl. rewrite Hres, Z.eqb_refl. simpl.
    unfold defragmentation_needed, sub64, wrap64. simpl. fold F.
    rewrite (Z.mod_small (F - LastFrameAtlasDefragmentation d)) by lia.
    destruct (60 <? _) eqn:E; [zbool; lia|]. by rewrite andb_false_r. }
  split; [done|]. by apply Render_keeps_defragmentation.
Qed.

Lemma defragmentation_rate_limit_witness :
  let pass := run 8192 2 [frame 1 []; frame 100 [hall]; frame 101 [hall]]
                (new_pass 4) in
  LastFrameAtlasDefragmentation (surfaceAtlasData pass) = 101 /\
  LastFrameAtlasInsertFail (surfaceAtlasData pass) = 101 /\
  LastFrameAtlasDefragmentation
    (surfaceAtlasData (Render 8192 2 (frame 102 [hall]) pass).1) = 101.
Proof.
  intros pass.
  assert (LastFrameAtlasDefragmentation (surfaceAtlasData pass) = 101) as Hlast
    by (vm_compute; reflexivity).
  split; [exact Hlast|]. split; [vm_compute; reflexivity|].
  transitivity (LastFrameAtlasDefragmentation (surfaceAtlasData pass));
    [|exact Hlast].
  refine (proj2 (defragmentation_rate_limit 8192 2 (frame 102 [hall]) pass
                   _ _ _ _)).
  - rewrite Hlast. simpl. lia.
  - rewrite Hlast. simpl. lia.
  - simpl. lia.
  - vm_compute. reflexivity.
Defined.

Lemma counter_slot_assignment_witness :
  let r := readback 2 (frame 3 [crate]) 100 (new_pass 4) in
  CulledObjectsCounterIndex (surfaceAtlasData (culled_pass r)) = 0 /\
  notReady r = true /\
  culledObjectsSizeFrames (culled_pass r) = [3; 0; 0; 0].
Proof.
  intros r.
  destruct (counter_slot_assignment 2 (frame 3 [crate]) 100 (new_pass 4) eq_refl)
    as (_ & Hnew & Hring).
  split; [reflexivity|]. split; [exact (proj1 (Hnew eq_refl))|].
  exact Hring.
Defined.

(** ** An atlas without room *)

Lemma set_tile_absent key i v d :
  Objects d !! key = None -> set_tile key i v d = d.
Proof.
  intros Hnone. unfold set_tile, set_Objects.
  rewrite alter_id by (intros o Ho; congruence). by destruct d.
Qed.

Lemma RasterizeActor_face_full c d root i :
  AtlasTiles d = Some root -> Objects d !! actorObject c = None ->
  (face_wanted c i = true ->
   RectPack.Insert root (snap_resolution (face_resolution c i))
     (snap_resolution (face_resolution c i)) 0 = None) ->
  RasterizeActor_face c (mkLoop d false false) i
  = mkLoop (if face_wanted c i
            then set_LastFrameAtlasInsertFail (CurrentFrame d) d else d)
      false false.
Proof.
  intros Hroot Hnone Hfull. unfold RasterizeActor_face, face_wanted in *.
  simpl. destruct (Z.testbit (tilesMask c) (Z.of_nat i)); simpl in *; [|done].
  unfold object_tile. rewrite Hnone.
  destruct (face_resolution c i <? 4) eqn:E; zbool.
  - destruct (4 <=? face_resolution c i) eqn:E'; zbool; [lia|done].
  - destruct (4 <=? face_resolution c i) eqn:E'; zbool; [|lia].
    unfold insert_face. simpl. rewrite Hroot, (Hfull eq_refl). simpl.
    by rewrite set_tile_absent.
Qed.

Lemma RasterizeActor_faces_full c d root faces :
  AtlasTiles d = Some root -> Objects d !! actorObject c = None ->
  (forall i, i ∈ faces -> face_wanted c i = true ->
     RectPack.Insert root (snap_resolution (face_resolution c i))
       (snap_resolution (face_resolution c i)) 0 = None) ->
  foldl (RasterizeActor_face c) (mkLoop d false false) faces
  = mkLoop (if existsb (face_wanted c) faces
            then set_LastFrameAtlasInsertFail (CurrentFrame d) d else d)
      false false.
Proof.
  intros Hroot Hnone. revert d Hroot Hnone.
  induction faces as [|i faces IH]; intros d Hroot Hnone Hfull; simpl; [done|].
  rewrite (RasterizeActor_face_full c d root i Hroot Hnone)
    by (apply Hfull, elem_of_cons; by left).
  destruct (face_wanted c i) eqn:Hw; simpl.
  - rewrite (IH (set_LastFrameAtlasInsertFail (CurrentFrame d) d)); try done.
    + by case_match.
    + intros j Hj. apply Hfull, elem_of_cons. by right.
  - apply IH; try done. intros j Hj. apply Hfull, elem_of_cons. by right.
Qed.

(** X20: an object that is not in the cache and for which the packer has
    no room, on any of the faces it asks a tile for, leaves no trace but
    the frame of the failure: [RasterizeActor] creates no entry, changes
    neither the packer nor any tile, queues nothing for a redraw and sets
    [LastFrameAtlasInsertFail] to the current frame; without a face to ask
    for, the call changes nothing at all. *)
Theorem full_atlas_skips_object (c : RasterizeCall)
    (pass : GlobalSurfaceAtlasPass) (root : RectPack.t) :
  let d := surfaceAtlasData pass in
  AtlasTiles d = Some root -> Objects d !! actorObject c = None ->
  (forall i, (i < 6)%nat -> face_wanted c i = true ->
     RectPack.Insert root (snap_resolution (face_resolution c i))
       (snap_resolution (face_resolution c i)) 0 = None) ->
  ((exists i, (i < 6)%nat /\ face_wanted c i = true) ->
   RasterizeActor c pass
   = with_data (set_LastFrameAtlasInsertFail (CurrentFrame d) d) pass) /\
  ((forall i, (i < 6)%nat -> face_wanted c i = false) ->
   RasterizeActor c pass = with_data d pass) /\
  Objects (surfaceAtlasData (RasterizeActor c pass)) = Objects d /\
  AtlasTiles (surfaceAtlasData (RasterizeActor c pass)) = Some root /\
  dirtyObjectsBuffer (RasterizeActor c pass) = dirtyObjectsBuffer pass.
Proof.
  intros d Hroot Hnone Hfull.
  assert (RasterizeActor c pass
          = with_data (if existsb (face_wanted c) (seq 0 6)
                       then set_LastFrameAtlasInsertFail (CurrentFrame d) d
                       else d) pass) as Hcall.
  { rewrite RasterizeActor_unfold. unfold RasterizeActor_faces. fold d.
    rewrite (RasterizeActor_faces_full c d root (seq 0 6) Hroot Hnone).
    - unfold RasterizeActor_mark. by simpl.
    - intros i Hi. apply Hfull. apply elem_of_seq in Hi. lia. }
  rewrite Hcall. split; [|split; [|split; [|split]]].
  - intros (i & Hi & Hw).
    assert (existsb (face_wanted c) (seq 0 6) = true) as ->; [|done].
    apply existsb_exists. exists i. split; [|done].
    apply in_seq. lia.
  - intros Hno.
    assert (existsb (face_wanted c) (seq 0 6) = false) as ->; [|done].
    apply not_true_is_false. intros (i & Hi & Hw)%existsb_exists.
    apply in_seq in Hi. rewrite Hno in Hw; [done|lia].
  - by case_match.
  - by case_match.
  - by case_match.
Qed.

Lemma full_atlas_skips_object_witness :
  let pass := draw_atlas 8192 (frame 1 [hall]) (new_pass 4) in
  Objects (surfaceAtlasData pass.1) !! 400 = None /\
  LastFrameAtlasInsertFail (surfaceAtlasData (RasterizeActor pillar pass.1)) = 1 /\
  Objects (surfaceAtlasData (RasterizeActor pillar pass.1))
  = Objects (surfaceAtlasData pass.1).
Proof.
  intros pass.
  assert (Objects (surfaceAtlasData pass.1) !! 400 = None) as Hnone
    by (vm_compute; reflexivity).
  assert (is_Some (AtlasTiles (surfaceAtlasData pass.1))) as [root Hroot]
    by (vm_compute; eauto).
  split; [exact Hnone|].
  destruct (full_atlas_skips_object pillar pass.1 root Hroot Hnone)
    as (Hfail & _ & Hobjs & _).
  - intros i Hi Hw.
    assert (i = 0%nat) as ->.
    { destruct i as [|[|[|[|[|[|i]]]]]]; try lia; try done. }
    vm_compute in Hroot. injection Hroot as <-. vm_compute. reflexivity.
  - split; [|exact Hobjs].
    rewrite Hfail; [vm_compute; reflexivity|].
    exists 0%nat. split; [lia|reflexivity].
Defined.
